(** * clog: transcript harvesting and offset-tracked ingestion

    A shallow embedding of the ingestion path of clog and of the
    helpers around it:

    - package [transcript]: [Harvest], [extractText], [parseTimestamp];
    - package [store]: [SaveHarvestedMessages], [GetOffset], [nullStr],
      [InitCoreSchema], [UpsertSession], [InsertEvent],
      [appendTimeClauses], [rawJSON] and the tables of [coreSchema]
      they touch;
    - package [model]: [ParsePayload], [ParseTimeFilter], [parseTimeArg],
      [parseRelativeDuration];
    - package [config]: [Default], [ProjectSlug], [LogDir], [DBPath];
    - package [summary]: [NewFromEnv], [buildPrompt];
    - package [embedding]: [NewFromEnv], [newOllama], [NewHTTP],
      [truncate];
    - package [main]: [runHook], [harvestMessages], [formatToolInput],
      [truncate].

    Go strings and byte slices are byte sequences: both are modelled as
    [string] (a list of 8-bit [ascii] characters).  [int64] offsets are
    modelled in [Z]; the code only stores and compares them.  A
    [time.Duration] is an [int64] with its wrap-around.

    The Go standard library and the database are modelled as far as the
    code above observes them: [encoding/json] (syntax check, unquoting,
    decoding into the structs of the code), [time.Parse] for the
    layouts the code names, [strconv.Atoi], [strings] and
    [path/filepath], [bufio.Scanner] with the line splitter and a
    buffer cap, a read-only file system, the environment, and a store
    with the tables of the schema, transactional where the code opens
    a transaction. *)

From Stdlib Require Import ZArith NArith Lia List Ascii String Bool.
From stdpp Require Import base option list gmap strings.

Open Scope string_scope.

(* ================================================================= *)
(** ** Bytes *)

Definition code (c : ascii) : N := N_of_ascii c.
Definition chr (n : N) : ascii := ascii_of_N n.

Definition dquote : ascii := chr 34.
Definition LF : ascii := chr 10.
Definition CR : ascii := chr 13.
Definition TAB : ascii := chr 9.

Definition between (lo hi : N) (c : ascii) : bool :=
  ((lo <=? code c) && (code c <=? hi))%N.

Definition is_digit (c : ascii) : bool := between 48 57 c.

Definition is_hex (c : ascii) : bool :=
  is_digit c || between 97 102 c || between 65 70 c.

Definition hex_val (c : ascii) : N :=
  if is_digit c then code c - 48
  else if between 97 102 c then code c - 87
  else code c - 55.

(** [s[n:]] and [s[:n]] on byte strings. *)
Fixpoint sdrop (n : nat) (s : string) : string :=
  match n, s with
  | O, _ => s
  | S n', String _ s' => sdrop n' s'
  | S _, EmptyString => EmptyString
  end.

Fixpoint stake (n : nat) (s : string) : string :=
  match n, s with
  | S n', String c s' => String c (stake n' s')
  | _, _ => EmptyString
  end.

(** The text consumed by a scanner that turned [s] into [rest]. *)
Definition consumed (s rest : string) : string :=
  stake (String.length s - String.length rest) s.

(* ================================================================= *)
(** ** unicode/utf8 and unicode/utf16 *)

Module utf8.

Definition RuneError : N := 0xFFFD.

(** Size of the well-formed encoding at the head of [s]; [0] when the
    head is not one ([DecodeRune] then answers [RuneError, 1]). *)
Definition seq_len (s : string) : nat :=
  match s with
  | EmptyString => 0
  | String c0 r0 =>
      let n0 := code c0 in
      if (n0 <? 0x80)%N then 1
      else if (n0 <? 0xC2)%N then 0
      else if (n0 <? 0xE0)%N then
        match r0 with
        | String c1 _ => if between 0x80 0xBF c1 then 2 else 0
        | _ => 0
        end
      else if (n0 <? 0xF0)%N then
        let lo := if (n0 =? 0xE0)%N then 0xA0%N else 0x80%N in
        let hi := if (n0 =? 0xED)%N then 0x9F%N else 0xBF%N in
        match r0 with
        | String c1 (String c2 _) =>
            if between lo hi c1 && between 0x80 0xBF c2 then 3 else 0
        | _ => 0
        end
      else if (n0 <? 0xF5)%N then
        let lo := if (n0 =? 0xF0)%N then 0x90%N else 0x80%N in
        let hi := if (n0 =? 0xF4)%N then 0x8F%N else 0xBF%N in
        match r0 with
        | String c1 (String c2 (String c3 _)) =>
            if between lo hi c1 && between 0x80 0xBF c2
               && between 0x80 0xBF c3 then 4 else 0
        | _ => 0
        end
      else 0
  end.

Definition is_surrogate (r : N) : bool :=
  ((0xD800 <=? r) && (r <? 0xE000))%N.

Definition cont (r : N) : ascii := chr (N.lor 0x80 (N.land r 0x3F)).

(** [utf8.EncodeRune]; runes out of range and surrogates are written
    as [RuneError]. *)
Definition EncodeRune (r : N) : string :=
  if (r <? 0x80)%N then String (chr r) ""
  else if (r <? 0x800)%N then
    String (chr (N.lor 0xC0 (N.shiftr r 6))) (String (cont r) "")
  else if (0x10FFFF <? r)%N || is_surrogate r then
    String (chr 0xEF) (String (chr 0xBF) (String (chr 0xBD) ""))
  else if (r <? 0x10000)%N then
    String (chr (N.lor 0xE0 (N.shiftr r 12)))
      (String (cont (N.shiftr r 6)) (String (cont r) ""))
  else
    String (chr (N.lor 0xF0 (N.shiftr r 18)))
      (String (cont (N.shiftr r 12))
         (String (cont (N.shiftr r 6)) (String (cont r) ""))).

End utf8.

Module utf16.

(** [utf16.DecodeRune]: the rune of a surrogate pair, [RuneError] when
    the two halves do not form one. *)
Definition DecodeRune (r1 r2 : N) : N :=
  if ((0xD800 <=? r1) && (r1 <? 0xDC00) && (0xDC00 <=? r2) && (r2 <? 0xE000))%N
  then (N.lor (N.shiftl (r1 - 0xD800) 10) (r2 - 0xDC00) + 0x10000)%N
  else utf8.RuneError.

End utf16.

(* ================================================================= *)
(** ** encoding/json

    [Unmarshal] first checks that the whole input is one JSON text and
    then decodes it into the target.  The syntax check and the unquoting
    of strings follow the package's scanner and [unquoteBytes]; the
    decoders for the targets used by the code are given with the structs
    they fill.  Array elements and object members keep the text they
    were read from, which is what a [RawMessage] target receives. *)

Module json.

Definition RawMessage := string.

#[warnings="-register-all"] Inductive Value : Type :=
| Null
| Bool (b : bool)
| Number (lit : string)
| Str (s : string)
| Array (elems : list (RawMessage * Value))
| Object (members : list (string * (RawMessage * Value))).

Definition maxNestingDepth : N := 10000.

Definition isc (c : ascii) (n : N) : bool := (code c =? n)%N.

Definition is_space (c : ascii) : bool :=
  isc c 32 || isc c 9 || isc c 13 || isc c 10.

Fixpoint skip_space (s : string) : string :=
  match s with
  | String c r => if is_space c then skip_space r else s
  | EmptyString => s
  end.

Fixpoint strip_prefix (p s : string) : option string :=
  match p, s with
  | EmptyString, _ => Some s
  | String a p', String b s' =>
      if Ascii.eqb a b then strip_prefix p' s' else None
  | String _ _, EmptyString => None
  end.

(** *** Strings *)

Definition simple_escape_ok (e : ascii) : bool :=
  isc e 98 || isc e 102 || isc e 110 || isc e 114 || isc e 116
  || isc e 92 || isc e 47 || isc e 34.

(** The scanner inside a string literal, after the opening quote:
    the text up to the closing quote, and what follows it. *)
Fixpoint scan_string (s : string) : option (string * string) :=
  match s with
  | EmptyString => None
  | String c r =>
      if isc c 34 then Some (EmptyString, r)
      else if isc c 92 then
        match r with
        | EmptyString => None
        | String e r1 =>
            if simple_escape_ok e then
              '(inner, rest) ← scan_string r1;
              Some (String c (String e inner), rest)
            else if isc e 117 then
              match r1 with
              | String h1 (String h2 (String h3 (String h4 r5))) =>
                  if is_hex h1 && is_hex h2 && is_hex h3 && is_hex h4 then
                    '(inner, rest) ← scan_string r5;
                    Some (String c (String e (String h1 (String h2
                            (String h3 (String h4 inner))))), rest)
                  else None
              | _ => None
              end
            else None
        end
      else if (code c <? 32)%N then None
      else '(inner, rest) ← scan_string r; Some (String c inner, rest)
  end.

Definition hex4 (h1 h2 h3 h4 : ascii) : N :=
  (((hex_val h1 * 16 + hex_val h2) * 16 + hex_val h3) * 16 + hex_val h4)%N.

(** [getu4]: the code unit of a leading [\uXXXX], if there is one. *)
Definition getu4 (s : string) : option N :=
  match s with
  | String b (String u (String h1 (String h2 (String h3 (String h4 _))))) =>
      if isc b 92 && isc u 117
         && is_hex h1 && is_hex h2 && is_hex h3 && is_hex h4
      then Some (hex4 h1 h2 h3 h4) else None
  | _ => None
  end.

(** The byte an escape letter stands for, in [unquoteBytes]. *)
Definition simple_escape (e : ascii) : option ascii :=
  if isc e 34 || isc e 92 || isc e 47 || isc e 39 then Some e
  else if isc e 98 then Some (chr 8)
  else if isc e 102 then Some (chr 12)
  else if isc e 110 then Some (chr 10)
  else if isc e 114 then Some (chr 13)
  else if isc e 116 then Some (chr 9)
  else None.

(** [unquoteBytes] on the text between the quotes.  [skip] counts the
    continuation bytes of a well-formed multi-byte character that are
    still to be copied. *)
Fixpoint unquote_go (skip : nat) (s : string) : option string :=
  match s with
  | EmptyString => Some EmptyString
  | String c r =>
      match skip with
      | S k => String c <$> unquote_go k r
      | O =>
          if isc c 92 then
            match r with
            | EmptyString => None
            | String e r1 =>
                match simple_escape e with
                | Some x => String x <$> unquote_go 0 r1
                | None =>
                    if isc e 117 then
                      match r1 with
                      | String h1 (String h2 (String h3 (String h4 r5))) =>
                          if is_hex h1 && is_hex h2 && is_hex h3 && is_hex h4
                          then
                            let rr := hex4 h1 h2 h3 h4 in
                            if utf8.is_surrogate rr then
                              match r5 with
                              | String b (String u (String g1 (String g2
                                  (String g3 (String g4 r11))))) =>
                                  match getu4 r5 with
                                  | Some rr1 =>
                                      let dec := utf16.DecodeRune rr rr1 in
                                      if (dec =? utf8.RuneError)%N then
                                        String.app (utf8.EncodeRune utf8.RuneError)
                                          <$> unquote_go 0 r5
                                      else
                                        String.app (utf8.EncodeRune dec)
                                          <$> unquote_go 0 r11
                                  | None =>
                                      String.app (utf8.EncodeRune utf8.RuneError)
                                        <$> unquote_go 0 r5
                                  end
                              | _ =>
                                  String.app (utf8.EncodeRune utf8.RuneError)
                                    <$> unquote_go 0 r5
                              end
                            else String.app (utf8.EncodeRune rr) <$> unquote_go 0 r5
                          else None
                      | _ => None
                      end
                    else None
                end
            end
          else if isc c 34 || (code c <? 32)%N then None
          else if (code c <? 128)%N then String c <$> unquote_go 0 r
          else
            match utf8.seq_len s with
            | O => String.app (utf8.EncodeRune utf8.RuneError) <$> unquote_go 0 r
            | S k => String c <$> unquote_go k r
            end
      end
  end.

Definition unquote (inner : string) : option string := unquote_go 0 inner.

(** *** Numbers *)

Fixpoint scan_digits (s : string) : string :=
  match s with
  | String c r => if is_digit c then scan_digits r else s
  | EmptyString => s
  end.

Definition scan_digits1 (s : string) : option string :=
  match s with
  | String c r => if is_digit c then Some (scan_digits r) else None
  | EmptyString => None
  end.

Definition scan_int (s : string) : option string :=
  match s with
  | String c r =>
      if isc c 48 then Some r
      else if between 49 57 c then Some (scan_digits r)
      else None
  | EmptyString => None
  end.

Definition scan_frac (s : string) : option string :=
  match s with
  | String c r => if isc c 46 then scan_digits1 r else Some s
  | EmptyString => Some s
  end.

Definition scan_exp (s : string) : option string :=
  match s with
  | String c r =>
      if isc c 101 || isc c 69 then
        match r with
        | String sg r1 =>
            if isc sg 43 || isc sg 45 then scan_digits1 r1 else scan_digits1 r
        | EmptyString => None
        end
      else Some s
  | EmptyString => Some s
  end.

Definition scan_number (s : string) : option string :=
  let s1 := match s with
            | String c r => if isc c 45 then r else s
            | EmptyString => s
            end in
  r1 ← scan_int s1; r2 ← scan_frac r1; scan_exp r2.

(** *** Values *)

Abbreviation element := (RawMessage * Value)%type (only parsing).
Abbreviation member := (string * (RawMessage * Value))%type (only parsing).

(** A value at the head of [s]: the value and the text after it.
    [members] and [elems] read the inside of an object and of an array,
    one level deeper. *)
Definition value_body
    (members : N -> string -> option (list member * string))
    (elems : N -> string -> option (list element * string))
    (depth : N) (s : string) : option (Value * string) :=
  match s with
  | EmptyString => None
  | String c r =>
      if isc c 123 then
        if (maxNestingDepth <? depth + 1)%N then None
        else
          match skip_space r with
          | String c1 r1 =>
              if isc c1 125 then Some (Object [], r1)
              else
                '(ms, rest) ← members (depth + 1)%N (String c1 r1);
                Some (Object ms, rest)
          | EmptyString => None
          end
      else if isc c 91 then
        if (maxNestingDepth <? depth + 1)%N then None
        else
          match skip_space r with
          | String c1 r1 =>
              if isc c1 93 then Some (Array [], r1)
              else
                '(vs, rest) ← elems (depth + 1)%N (String c1 r1);
                Some (Array vs, rest)
          | EmptyString => None
          end
      else if isc c 34 then
        '(inner, rest) ← scan_string r;
        v ← unquote inner;
        Some (Str v, rest)
      else if isc c 45 || is_digit c then
        rest ← scan_number s; Some (Number (consumed s rest), rest)
      else if isc c 116 then
        rest ← strip_prefix "true" s; Some (Bool true, rest)
      else if isc c 102 then
        rest ← strip_prefix "false" s; Some (Bool false, rest)
      else if isc c 110 then
        rest ← strip_prefix "null" s; Some (Null, rest)
      else None
  end.

(** The elements of an array, [s] standing at the first of them, up to
    the closing bracket. *)
Definition elems_body
    (value : N -> string -> option (Value * string))
    (elems : N -> string -> option (list element * string))
    (depth : N) (s : string) : option (list element * string) :=
  '(v, r) ← value depth s;
  match skip_space r with
  | String c r1 =>
      if isc c 44 then
        '(vs, rest) ← elems depth (skip_space r1);
        Some ((consumed s r, v) :: vs, rest)
      else if isc c 93 then Some ([(consumed s r, v)], r1)
      else None
  | EmptyString => None
  end.

(** The members of an object, [s] standing at the first key, up to the
    closing brace. *)
Definition members_body
    (value : N -> string -> option (Value * string))
    (members : N -> string -> option (list member * string))
    (depth : N) (s : string) : option (list member * string) :=
  match s with
  | String q r0 =>
      if isc q 34 then
        '(inner, r) ← scan_string r0;
        k ← unquote inner;
        match skip_space r with
        | String c r1 =>
            if isc c 58 then
              let sv := skip_space r1 in
              '(v, r2) ← value depth sv;
              match skip_space r2 with
              | String c2 r3 =>
                  if isc c2 44 then
                    '(ms, rest) ← members depth (skip_space r3);
                    Some ((k, (consumed sv r2, v)) :: ms, rest)
                  else if isc c2 125 then
                    Some ([(k, (consumed sv r2, v))], r3)
                  else None
              | EmptyString => None
              end
            else None
        | EmptyString => None
        end
      else None
  | EmptyString => None
  end.

(** The three readers call each other; [fuel] bounds the calls. *)
Fixpoint parse_value (fuel : nat) (depth : N) (s : string) {struct fuel}
  : option (Value * string) :=
  match fuel with
  | O => None
  | S f => value_body (parse_members f) (parse_elems f) depth s
  end

with parse_elems (fuel : nat) (depth : N) (s : string) {struct fuel}
  : option (list element * string) :=
  match fuel with
  | O => None
  | S f => elems_body (parse_value f) (parse_elems f) depth s
  end

with parse_members (fuel : nat) (depth : N) (s : string) {struct fuel}
  : option (list member * string) :=
  match fuel with
  | O => None
  | S f => members_body (parse_value f) (parse_members f) depth s
  end.

(** Every call of the parser is on a text shorter than its caller's,
    so this much fuel is never used up. *)
Definition fuel_for (s : string) : nat := 2 * String.length s + 2.

(** The whole input as one JSON text ([checkValid] and the decoder's
    walk): [None] is a syntax error. *)
Definition parse (data : string) : option Value :=
  let s := skip_space data in
  '(v, r) ← parse_value (fuel_for s) 0 s;
  match skip_space r with
  | EmptyString => Some v
  | String _ _ => None
  end.

(** *** Decoding into Go values *)

(** A JSON value stored into a [string]: a string sets it, [null]
    leaves it as it is, anything else is an [UnmarshalTypeError]. *)
Definition store_string (old : string) (v : Value) : option string :=
  match v with
  | Str s => Some s
  | Null => Some old
  | _ => None
  end.

(** [var s string; json.Unmarshal(data, &s)]: [None] when [err != nil]. *)
Definition Unmarshal_string (data : string) : option string :=
  v ← parse data; store_string EmptyString v.

(** [var b []json.RawMessage; json.Unmarshal(data, &b)]. *)
Definition Unmarshal_RawMessages (data : string) : option (list RawMessage) :=
  v ← parse data;
  match v with
  | Array elems => Some (fst <$> elems)
  | Null => Some []
  | _ => None
  end.

(** [foldName] as far as it decides whether a key names a field whose
    name is ASCII: letters are upper-cased, and the two other runes
    that fold to a letter, U+017F and U+212A, become S and K. *)
Fixpoint foldName (s : string) : string :=
  match s with
  | EmptyString => EmptyString
  | String c r =>
      if between 97 122 c then String (chr (code c - 32)) (foldName r)
      else if isc c 0xC5 then
        match r with
        | String c1 r1 =>
            if isc c1 0xBF then String (chr 83) (foldName r1)
            else String c (foldName r)
        | EmptyString => String c (foldName r)
        end
      else if isc c 0xE2 then
        match r with
        | String c1 (String c2 r2) =>
            if isc c1 0x84 && isc c2 0xAA then String (chr 75) (foldName r2)
            else String c (foldName r)
        | _ => String c (foldName r)
        end
      else String c (foldName r)
  end.

(** Does [key] select the struct field tagged [name]? *)
Definition names (name key : string) : bool :=
  String.eqb (foldName key) (foldName name).

(** [var m map[string]json.RawMessage; json.Unmarshal(data, &m)]: the
    outer [None] is [err != nil], the inner one the map that is still
    [nil] after a [null].  Every member is stored under its key as it
    is spelled, a later one replacing an earlier one. *)
Definition Unmarshal_map (data : string) : option (option (gmap string RawMessage)) :=
  v ← parse data;
  match v with
  | Object members =>
      Some (Some (fold_left (fun m kv => <[kv.1 := kv.2.1]> m) members ∅))
  | Null => Some None
  | _ => None
  end.

End json.

(* ================================================================= *)
(** ** time

    A [Time] is an instant (seconds and nanoseconds since the Unix
    epoch) together with the offset of the zone it is shown in.
    [Parse] is the package's parser run on the layout [RFC3339Nano],
    [2006-01-02T15:04:05.999999999Z07:00]. *)

Module time.

Record Time : Type := mkTime { unixSec : Z; nsec : Z; zoneOffset : Z }.

Definition UTC (t : Time) : Time :=
  {| unixSec := unixSec t; nsec := nsec t; zoneOffset := 0 |}.

(** [t.Equal(u)]: the same instant, whatever the zones. *)
Definition Equal (t u : Time) : bool :=
  ((unixSec t =? unixSec u) && (nsec t =? nsec u))%Z.

(** The wall clock: [reading c n] is what the [n]-th call of [Now]
    returns. *)
Record Clock : Type := mkClock { reading : nat -> Time; calls : nat }.

Definition Now (c : Clock) : Time * Clock :=
  (reading c (calls c), {| reading := reading c; calls := S (calls c) |}).

Definition digit_val (c : ascii) : Z := Z.of_N (code c - 48).

(** [getnum]: a one- or two-digit number; two digits when [fixed]. *)
Definition getnum (s : string) (fixed : bool) : option (Z * string) :=
  match s with
  | String a r =>
      if is_digit a then
        match r with
        | String b r' =>
            if is_digit b then Some (digit_val a * 10 + digit_val b, r')%Z
            else if fixed then None else Some (digit_val a, r)
        | EmptyString => if fixed then None else Some (digit_val a, r)
        end
      else None
  | EmptyString => None
  end.

(** The layout element [2006]: exactly four digits. *)
Definition getyear (s : string) : option (Z * string) :=
  match s with
  | String a (String b (String c (String d r))) =>
      if is_digit a && is_digit b && is_digit c && is_digit d then
        Some (((digit_val a * 10 + digit_val b) * 10 + digit_val c) * 10
              + digit_val d, r)%Z
      else None
  | _ => None
  end.

(** A literal byte of the layout. *)
Definition lit (n : N) (s : string) : option string :=
  match s with
  | String c r => if (code c =? n)%N then Some r else None
  | EmptyString => None
  end.

Definition commaOrPeriod (c : ascii) : bool :=
  (code c =? 46)%N || (code c =? 44)%N.

Fixpoint digits_value (acc : Z) (s : string) : Z :=
  match s with
  | String c r => digits_value (acc * 10 + digit_val c) r
  | EmptyString => acc
  end.

(** The layout element [.999999999]: an optional fraction of any number
    of digits, of which the first nine count ([parseNanoseconds]). *)
Definition getfrac (s : string) : Z * string :=
  match s with
  | String p (String d r) =>
      if commaOrPeriod p && is_digit d then
        let rest := json.scan_digits (String d r) in
        let ds := stake 9 (consumed (String d r) rest) in
        (digits_value 0 ds * 10 ^ Z.of_nat (9 - String.length ds), rest)%Z
      else (0%Z, s)
  | _ => (0%Z, s)
  end.

(** The layout element [Z07:00]: [Z], or a sign, hours, a colon and
    minutes.  The result is the offset in seconds east of UTC. *)
Definition getzone (s : string) : option (Z * string) :=
  match s with
  | EmptyString => None
  | String z r =>
      if (code z =? 90)%N then Some (0%Z, r)
      else
        match r with
        | String h1 (String h2 (String c (String m1 (String m2 r')))) =>
            if (code c =? 58)%N then
              '(hr, _) ← getnum (String h1 (String h2 EmptyString)) true;
              '(mm, _) ← getnum (String m1 (String m2 EmptyString)) true;
              if ((24 <? hr) || (60 <? mm))%Z then None
              else
                let off := ((hr * 60 + mm) * 60)%Z in
                if (code z =? 43)%N then Some (off, r')
                else if (code z =? 45)%N then Some ((- off)%Z, r')
                else None
            else None
        | _ => None
        end
  end.

Definition isLeap (year : Z) : bool :=
  ((year mod 4 =? 0) && (negb (year mod 100 =? 0) || (year mod 400 =? 0)))%Z.

Definition daysIn (month year : Z) : Z :=
  if (month =? 2)%Z then (if isLeap year then 29 else 28)%Z
  else if ((month =? 4) || (month =? 6) || (month =? 9) || (month =? 11))%Z
       then 30%Z else 31%Z.

(** Days from 1970-01-01 to the given civil date. *)
Definition daysSinceEpoch (year month day : Z) : Z :=
  let y := (if month <=? 2 then year - 1 else year)%Z in
  let era := (y / 400)%Z in
  let yoe := (y - era * 400)%Z in
  let mp := (if month <=? 2 then month + 9 else month - 3)%Z in
  let doy := ((153 * mp + 2) / 5 + day - 1)%Z in
  let doe := (yoe * 365 + yoe / 4 - yoe / 100 + doy)%Z in
  (era * 146097 + doe - 719468)%Z.

(** [Date(year, month, day, hour, min, sec, nsec, UTC)]. *)
Definition Date (year month day hour min sec ns : Z) : Time :=
  {| unixSec := ((daysSinceEpoch year month day * 24 + hour) * 60 + min) * 60 + sec;
     nsec := ns; zoneOffset := 0 |}.

(** [time.Parse(time.RFC3339Nano, value)]; [None] when [err != nil]. *)
Definition Parse (value : string) : option Time :=
  '(year, v) ← getyear value;
  v ← lit 45 v;
  '(month, v) ← getnum v true;
  if ((month <=? 0) || (12 <? month))%Z then None else
  v ← lit 45 v;
  '(day, v) ← getnum v true;
  v ← lit 84 v;
  '(hour, v) ← getnum v false;
  if (24 <=? hour)%Z then None else
  v ← lit 58 v;
  '(min, v) ← getnum v true;
  if (60 <=? min)%Z then None else
  v ← lit 58 v;
  '(sec, v) ← getnum v true;
  if (60 <=? sec)%Z then None else
  let '(ns, v) := getfrac v in
  '(off, v) ← getzone v;
  match v with
  | String _ _ => None
  | EmptyString =>
      if ((day <? 1) || (daysIn month year <? day))%Z then None
      else
        let t := Date year month day hour min sec ns in
        Some {| unixSec := unixSec t - off; nsec := ns; zoneOffset := off |}
  end.

(** *** Durations and the other layouts *)

(** The value of an [int64] computation whose exact result is [z]. *)
Definition int64 (z : Z) : Z := ((z + 2 ^ 63) mod 2 ^ 64 - 2 ^ 63)%Z.

(** A [Duration] is an [int64] count of nanoseconds. *)
Abbreviation Duration := Z (only parsing).

Definition Second : Duration := 1000000000.
Definition Minute : Duration := 60 * Second.
Definition Hour : Duration := 60 * Minute.

(** The product and the opposite of durations, in [int64]. *)
Definition mul (a b : Duration) : Duration := int64 (a * b).
Definition neg (d : Duration) : Duration := int64 (- d).

(** [t.Add(d)], for instants whose seconds do not leave the range of
    [Time].  The division and the remainder round toward zero. *)
Definition Add (t : Time) (d : Duration) : Time :=
  let dsec := Z.quot d 1000000000 in
  let ns := (nsec t + Z.rem d 1000000000)%Z in
  if (1000000000 <=? ns)%Z then
    {| unixSec := unixSec t + dsec + 1; nsec := ns - 1000000000;
       zoneOffset := zoneOffset t |}
  else if (ns <? 0)%Z then
    {| unixSec := unixSec t + dsec - 1; nsec := ns + 1000000000;
       zoneOffset := zoneOffset t |}
  else
    {| unixSec := unixSec t + dsec; nsec := ns; zoneOffset := zoneOffset t |}.

(** The layout elements [2006-01-02]: year, month and day as they are
    read; the day is checked against the month when the whole value has
    been read. *)
Definition getdate (value : string) : option (Z * Z * Z * string) :=
  '(year, v) ← getyear value;
  v ← lit 45 v;
  '(month, v) ← getnum v true;
  if ((month <=? 0) || (12 <? month))%Z then None else
  v ← lit 45 v;
  '(day, v) ← getnum v true;
  Some (year, month, day, v).

(** [time.Parse(time.RFC3339, value)]: a fraction of a second in the
    value is read although the layout has none, so that the values and
    the results are those of the layout [RFC3339Nano]. *)
Definition ParseRFC3339 (value : string) : option Time := Parse value.

(** [time.Parse("2006-01-02T15:04", value)]: no zone is read and the
    result is in UTC. *)
Definition ParseMinutes (value : string) : option Time :=
  '(year, month, day, v) ← getdate value;
  v ← lit 84 v;
  '(hour, v) ← getnum v false;
  if (24 <=? hour)%Z then None else
  v ← lit 58 v;
  '(min, v) ← getnum v true;
  if (60 <=? min)%Z then None else
  match v with
  | String _ _ => None
  | EmptyString =>
      if ((day <? 1) || (daysIn month year <? day))%Z then None
      else Some (Date year month day hour min 0 0)
  end.

(** [time.Parse("2006-01-02", value)]. *)
Definition ParseDate (value : string) : option Time :=
  '(year, month, day, v) ← getdate value;
  match v with
  | String _ _ => None
  | EmptyString =>
      if ((day <? 1) || (daysIn month year <? day))%Z then None
      else Some (Date year month day 0 0 0 0)
  end.

End time.

(* ================================================================= *)
(** ** unicode *)

Module unicode.

(** The runes of [unicode.IsSpace]: the six of ASCII, U+0085 and U+00A0
    of Latin-1, and the rest of the category White_Space. *)
Definition White_Space : list N :=
  [0x09; 0x0A; 0x0B; 0x0C; 0x0D; 0x20; 0x85; 0xA0; 0x1680;
   0x2000; 0x2001; 0x2002; 0x2003; 0x2004; 0x2005; 0x2006; 0x2007;
   0x2008; 0x2009; 0x200A; 0x2028; 0x2029; 0x202F; 0x205F; 0x3000]%N.

End unicode.

(* ================================================================= *)
(** ** strings, os, io, bufio *)

Definition len (s : string) : Z := Z.of_nat (String.length s).

Module strings.

(** [strings.Join(elems, sep)]. *)
Definition Join (elems : list string) (sep : string) : string :=
  String.concat sep elems.

(** [strings.CutPrefix(s, prefix)]: [s] without the leading [prefix],
    [None] when [s] does not start with it. *)
Fixpoint CutPrefix (s prefix : string) {struct prefix} : option string :=
  match prefix, s with
  | EmptyString, _ => Some s
  | String a p, String b r => if Ascii.eqb a b then CutPrefix r p else None
  | String _ _, EmptyString => None
  end.

Definition HasPrefix (s prefix : string) : bool :=
  match CutPrefix s prefix with Some _ => true | None => false end.

(** [strings.TrimPrefix(s, prefix)]. *)
Definition TrimPrefix (s prefix : string) : string :=
  default s (CutPrefix s prefix).

(** The replacements of [old], which is not empty, from left to right
    and without overlap; [skip] counts the bytes of the occurrence
    being replaced that are still to be dropped. *)
Fixpoint replace_go (old new : string) (skip : nat) (s : string) : string :=
  match s with
  | EmptyString => EmptyString
  | String c r =>
      match skip with
      | S k => replace_go old new k r
      | O =>
          if HasPrefix s old
          then new ++ replace_go old new (String.length old - 1) r
          else String c (replace_go old new 0 r)
      end
  end.

(** The replacements of the empty string: [new] goes after every
    character; [left] counts the bytes of the character being copied
    that are still to come. *)
Fixpoint replace_empty (new : string) (left : nat) (s : string) : string :=
  match s with
  | EmptyString => EmptyString
  | String c r =>
      let n := match left with
               | O => Nat.max 1 (utf8.seq_len s)
               | S _ => left
               end in
      match n with
      | S (S k) => String c (replace_empty new (S k) r)
      | _ => String c (new ++ replace_empty new 0 r)
      end
  end.

(** [strings.ReplaceAll(s, old, new)]. *)
Definition ReplaceAll (s old new : string) : string :=
  if String.eqb old new then s
  else
    match old with
    | EmptyString => new ++ replace_empty new 0 s
    | String _ _ => replace_go old new 0 s
    end.

(** Does the byte [c] occur in [s]? *)
Fixpoint IndexByte (s : string) (c : ascii) : bool :=
  match s with
  | EmptyString => false
  | String b r => Ascii.eqb b c || IndexByte r c
  end.

(** [strings.TrimRight(s, cutset)] for a cutset of ASCII characters:
    [s] without its trailing bytes that are in the cutset. *)
Fixpoint TrimRight (s cutset : string) : string :=
  match s with
  | EmptyString => EmptyString
  | String c r =>
      match TrimRight r cutset with
      | EmptyString => if IndexByte cutset c then EmptyString else String c EmptyString
      | String _ _ as r' => String c r'
      end
  end.

Definition reverse (s : string) : string :=
  string_of_list_ascii (rev (list_ascii_of_string s)).

(** The size of the one of [runes] that [s] starts with, [0] when it
    starts with none. *)
Definition lead (runes : list string) (s : string) : nat :=
  fold_right (fun p n => if HasPrefix s p then String.length p else n) 0 runes.

(** [s] without the leading [runes]; [skip] counts the bytes of the
    rune being dropped that are still to go. *)
Fixpoint trim_go (runes : list string) (skip : nat) (s : string) : string :=
  match s with
  | EmptyString => EmptyString
  | String c r =>
      match skip with
      | S k => trim_go runes k r
      | O =>
          match lead runes s with
          | O => s
          | S k => trim_go runes k r
          end
      end
  end.

(** The encodings of the white-space runes. *)
Definition spaces : list string := utf8.EncodeRune <$> unicode.White_Space.

(** [strings.TrimSpace(s)]: [s] without the white space, as defined by
    Unicode, at its two ends.  At the end of [s] a rune is white space
    when the last bytes of [s] are its encoding. *)
Definition TrimSpace (s : string) : string :=
  reverse (trim_go (reverse <$> spaces) 0 (reverse (trim_go spaces 0 s))).

End strings.

Module io.

Inductive Whence : Type := SeekStart | SeekCurrent.

End io.

Module os.

(** The regular, readable files: path to content.  [Open] fails on any
    other path. *)
Abbreviation FS := (gmap string string).

(** An open file: its content and the offset of the next read. *)
Record File : Type := mkFile { data : string; pos : Z }.

Definition Open (fs : FS) (name : string) : option File :=
  d ← fs !! name; Some {| data := d; pos := 0 |}.

(** [f.Seek(offset, whence)]: the new offset; [None] is the error of
    seeking to a negative position.  Seeking past the end is allowed. *)
Definition Seek (f : File) (offset : Z) (whence : io.Whence) : option (Z * File) :=
  let target := match whence with
                | io.SeekStart => offset
                | io.SeekCurrent => (pos f + offset)%Z
                end in
  if (target <? 0)%Z then None
  else Some (target, {| data := data f; pos := target |}).

(** The bytes a reader of [f] has still to deliver. *)
Definition unread (f : File) : string := sdrop (Z.to_nat (pos f)) (data f).

(** [f] after [n] more bytes have been read from it. *)
Definition advance (f : File) (n : Z) : File :=
  {| data := data f; pos := pos f + n |}.

(** The environment: the variables that are set, with their values. *)
Abbreviation Env := (gmap string string).

(** [os.Getenv(key)]: empty when the variable is not set. *)
Definition Getenv (env : Env) (key : string) : string :=
  default EmptyString (env !! key).

End os.

Module bufio.

Inductive error : Type := ErrTooLong.

(** [dropCR]: a line without its trailing carriage return. *)
Fixpoint dropCR (s : string) : string :=
  match s with
  | EmptyString => EmptyString
  | String c EmptyString => if (code c =? 13)%N then EmptyString else s
  | String c r => String c (dropCR r)
  end.

(** A [Scanner] with the [ScanLines] splitter over the bytes [s] still
    to come, [cur] being the bytes of the line read so far.  A line is
    delivered at its newline, the last one also at the end of the
    input.  The buffer holds at most [limit] bytes: when the bytes of
    one line fill it and no newline is among them, the scan stops with
    [ErrTooLong].  The result is the tokens delivered by the successive
    calls of [Scan], the error reported by [Err], and the bytes not
    read from the reader. *)
Fixpoint scan (limit : Z) (cur s : string) : list string * option error * string :=
  match s with
  | EmptyString =>
      (match cur with
       | EmptyString => []
       | String _ _ => [dropCR cur]
       end, None, EmptyString)
  | String c r =>
      if (code c =? 10)%N then
        let '(toks, e, rest) := scan limit EmptyString r in
        (dropCR cur :: toks, e, rest)
      else if (limit <=? len cur + 1)%Z then ([], Some ErrTooLong, r)
      else scan limit (cur ++ String c EmptyString) r
  end.

(** [scanner.Buffer(buf, max)]: the largest buffer the scanner may use
    is the larger of [max] and the capacity of [buf]. *)
Definition Buffer (capacity max : Z) : Z := Z.max capacity max.

(** The loop [for scanner.Scan() { ... scanner.Bytes() ... }] followed
    by [scanner.Err()], on the file [f]. *)
Definition ScanAll (limit : Z) (f : os.File) : list string * option error * os.File :=
  let '(toks, e, rest) := scan limit EmptyString (os.unread f) in
  (toks, e, os.advance f (len (os.unread f) - len rest)).

End bufio.

(* ================================================================= *)
(** ** strconv, path/filepath *)

Module strconv.

(** [strconv.Atoi(s)] where [int] has 64 bits: an optional sign and
    decimal digits, at least one.  [None] is [err != nil]: a syntax
    error, or a value out of the range of [int]. *)
Definition Atoi (s : string) : option Z :=
  let '(negative, ds) :=
    match s with
    | String c r =>
        if (code c =? 45)%N then (true, r)
        else if (code c =? 43)%N then (false, r)
        else (false, s)
    | EmptyString => (false, s)
    end in
  match ds with
  | EmptyString => None
  | String _ _ =>
      if forallb is_digit (list_ascii_of_string ds) then
        let v := time.digits_value 0 ds in
        let n := if negative : bool then (- v)%Z else v in
        if ((- 2 ^ 63 <=? n) && (n <? 2 ^ 63))%Z then Some n else None
      else None
  end.

End strconv.

Module filepath.

(** The elements of a path: what stands between its separators. *)
Fixpoint elements (cur path : string) : list string :=
  match path with
  | EmptyString => [cur]
  | String c r =>
      if (code c =? 47)%N then cur :: elements EmptyString r
      else elements (cur ++ String c EmptyString) r
  end.

(** The elements that [Clean] keeps, last one first, [out] being those
    kept so far: empty elements and [.] go, [..] takes away the element
    before it, if there is one that is not [..] itself; above the root
    it goes, elsewhere it is kept. *)
Fixpoint clean_go (rooted : bool) (out elems : list string) : list string :=
  match elems with
  | [] => out
  | e :: rest =>
      if String.eqb e "" || String.eqb e "." then clean_go rooted out rest
      else if String.eqb e ".." then
        match out with
        | top :: out' =>
            if String.eqb top ".." then clean_go rooted (e :: out) rest
            else clean_go rooted out' rest
        | [] => clean_go rooted (if rooted then [] else [e]) rest
        end
      else clean_go rooted (e :: out) rest
  end.

(** [filepath.Clean(path)] where the separator is the slash. *)
Definition Clean (path : string) : string :=
  match path with
  | EmptyString => "."
  | String c _ =>
      let rooted := (code c =? 47)%N in
      let out := rev (clean_go rooted [] (elements EmptyString path)) in
      if rooted then "/" ++ strings.Join out "/"
      else
        match out with
        | [] => "."
        | _ :: _ => strings.Join out "/"
        end
  end.

(** [filepath.Join(elem...)]: the elements from the first non-empty one
    on, joined by slashes and cleaned. *)
Fixpoint Join (elem : list string) : string :=
  match elem with
  | [] => EmptyString
  | e :: rest =>
      if String.eqb e "" then Join rest else Clean (strings.Join elem "/")
  end.

End filepath.


(* ================================================================= *)
(** ** package model *)

Module model.

Record Message : Type := mkMessage {
  SessionID : string;
  UUID : string;
  ParentUUID : string;
  Role : string;
  Content : string;
  RawContent : string;
  Model : string;
  Timestamp : time.Time
}.

Record HarvestResult : Type := mkHarvestResult {
  Messages : list Message;
  NewOffset : Z
}.

(** *** The other types of the package *)

Module Session.

Record t : Type := mk {
  ID : string;
  CWD : string;
  TranscriptPath : string;
  CreatedAt : time.Time
}.

End Session.

(** A field that is a pointer or a [json.RawMessage] in the source is
    an [option] here, [None] being [nil]. *)
Module Event.

Record t : Type := mk {
  SessionID : string;
  EventType : string;
  Timestamp : time.Time;
  PermissionMode : option string;
  Source : option string;
  Model : option string;
  AgentType : option string;
  Prompt : option string;
  ToolName : option string;
  ToolInput : option json.RawMessage;
  ToolUseID : option string;
  ToolResponse : option json.RawMessage;
  PermissionSuggestions : option json.RawMessage;
  Error : option string;
  IsInterrupt : option bool;
  Message : option string;
  Title : option string;
  NotificationType : option string;
  AgentID : option string;
  AgentTranscriptPath : option string;
  StopHookActive : option bool;
  TriggerType : option string;
  CustomInstructions : option string;
  Reason : option string
}.

End Event.

Module StoredMessage.

Record t : Type := mk {
  ID : Z;
  SessionID : string;
  Role : string;
  Content : string;
  Timestamp : time.Time
}.

End StoredMessage.

(** *** timefilter.go *)

Record TimeFilter : Type := mkTimeFilter {
  Since : option time.Time;
  Until : option time.Time
}.

(** The last byte of a string that has one. *)
Fixpoint last_byte (s : string) : ascii :=
  match s with
  | EmptyString => Ascii.zero
  | String c EmptyString => c
  | String _ r => last_byte r
  end.

(** [parseRelativeDuration(s)]: the duration and whether there is one. *)
Definition parseRelativeDuration (s : string) : time.Duration * bool :=
  if (len s <? 2)%Z then (0%Z, false)
  else
    let suffix := last_byte s in
    let numStr := strings.TrimSpace (stake (String.length s - 1) s) in
    match strconv.Atoi numStr with
    | None => (0%Z, false)
    | Some n =>
        if (n <=? 0)%Z then (0%Z, false)
        else if (code suffix =? 109)%N then (time.mul n time.Minute, true)
        else if (code suffix =? 104)%N then (time.mul n time.Hour, true)
        else if (code suffix =? 100)%N then
          (time.mul (time.mul n 24) time.Hour, true)
        else if (code suffix =? 119)%N then
          (time.mul (time.mul (time.mul n 7) 24) time.Hour, true)
        else (0%Z, false)
    end.

(** The layouts that [parseTimeArg] tries, in their order. *)
Definition formats : list (string -> option time.Time) :=
  [time.ParseRFC3339; time.ParseMinutes; time.ParseDate].

(** The loop over the layouts: the first result. *)
Fixpoint first_parse (fs : list (string -> option time.Time)) (s : string)
    : option time.Time :=
  match fs with
  | [] => None
  | f :: rest =>
      match f s with
      | Some t => Some t
      | None => first_parse rest s
      end
  end.

(** [parseTimeArg(s)]: [None] is the error. *)
Definition parseTimeArg (s : string) (clk : time.Clock)
    : option time.Time * time.Clock :=
  let '(d, ok) := parseRelativeDuration s in
  if ok then
    let '(now, clk) := time.Now clk in
    (Some (time.Add now (time.neg d)), clk)
  else (first_parse formats s, clk).

Inductive error : Type :=
| ErrSince (value : string)
| ErrUntil (value : string).

(** [ParseTimeFilter(sinceStr, untilStr)]: the filter, [None] being
    [nil], and the error. *)
Definition ParseTimeFilter (sinceStr untilStr : string) (clk : time.Clock)
    : (option TimeFilter * option error) * time.Clock :=
  if String.eqb sinceStr "" && String.eqb untilStr "" then ((None, None), clk)
  else
    let tf := {| Since := None; Until := None |} in
    match (if negb (String.eqb sinceStr "")
           then
             match parseTimeArg sinceStr clk with
             | (None, clk) => (None, clk)
             | (Some t, clk) => (Some {| Since := Some t; Until := Until tf |}, clk)
             end
           else (Some tf, clk)) with
    | (None, clk) => ((None, Some (ErrSince sinceStr)), clk)
    | (Some tf, clk) =>
        if negb (String.eqb untilStr "") then
          match parseTimeArg untilStr clk with
          | (None, clk) => ((None, Some (ErrUntil untilStr)), clk)
          | (Some t, clk) =>
              ((Some {| Since := Since tf; Until := Some t |}, None), clk)
          end
        else ((Some tf, None), clk)
    end.

End model.

(* ================================================================= *)
(** ** package transcript *)

Module transcript.

Record messagePayload : Type := mkMessagePayload {
  Role : string;
  Content : json.RawMessage;
  Model : string
}.

(** [Message] is a pointer in the source: [None] is [nil]. *)
Record transcriptLine : Type := mkTranscriptLine {
  Type_ : string;
  UUID : string;
  Parent : string;
  Message : option messagePayload;
  Timestamp : string
}.

(** The struct that [extractText] decodes a content block into. *)
Record block : Type := mkBlock { blockType : string; blockText : string }.

(** Decoding an object into a struct: the members are stored one after
    the other, a later member with the same name overwriting an earlier
    one; a member that no field is tagged for is skipped; one member of
    the wrong kind makes [Unmarshal] return an error. *)
Fixpoint store_members {A : Type}
    (store : A -> string -> json.RawMessage -> json.Value -> option A)
    (a : A) (ms : list (string * (json.RawMessage * json.Value))) : option A :=
  match ms with
  | [] => Some a
  | (k, (raw, v)) :: ms' => a' ← store a k raw v; store_members store a' ms'
  end.

Definition store_messagePayload (p : messagePayload) (key : string)
    (raw : json.RawMessage) (v : json.Value) : option messagePayload :=
  if json.names "role" key then
    s ← json.store_string (Role p) v;
    Some {| Role := s; Content := Content p; Model := Model p |}
  else if json.names "content" key then
    Some {| Role := Role p; Content := raw; Model := Model p |}
  else if json.names "model" key then
    s ← json.store_string (Model p) v;
    Some {| Role := Role p; Content := Content p; Model := s |}
  else Some p.

Definition zero_messagePayload : messagePayload :=
  {| Role := ""; Content := ""; Model := "" |}.

Definition store_transcriptLine (l : transcriptLine) (key : string)
    (raw : json.RawMessage) (v : json.Value) : option transcriptLine :=
  if json.names "type" key then
    s ← json.store_string (Type_ l) v;
    Some {| Type_ := s; UUID := UUID l; Parent := Parent l;
            Message := Message l; Timestamp := Timestamp l |}
  else if json.names "uuid" key then
    s ← json.store_string (UUID l) v;
    Some {| Type_ := Type_ l; UUID := s; Parent := Parent l;
            Message := Message l; Timestamp := Timestamp l |}
  else if json.names "parentUuid" key then
    s ← json.store_string (Parent l) v;
    Some {| Type_ := Type_ l; UUID := UUID l; Parent := s;
            Message := Message l; Timestamp := Timestamp l |}
  else if json.names "message" key then
    match v with
    | json.Null =>
        Some {| Type_ := Type_ l; UUID := UUID l; Parent := Parent l;
                Message := None; Timestamp := Timestamp l |}
    | json.Object ms =>
        p ← store_members store_messagePayload
              (default zero_messagePayload (Message l)) ms;
        Some {| Type_ := Type_ l; UUID := UUID l; Parent := Parent l;
                Message := Some p; Timestamp := Timestamp l |}
    | _ => None
    end
  else if json.names "timestamp" key then
    s ← json.store_string (Timestamp l) v;
    Some {| Type_ := Type_ l; UUID := UUID l; Parent := Parent l;
            Message := Message l; Timestamp := s |}
  else Some l.

Definition zero_transcriptLine : transcriptLine :=
  {| Type_ := ""; UUID := ""; Parent := ""; Message := None; Timestamp := "" |}.

(** [var tl transcriptLine; json.Unmarshal(line, &tl)]: [None] when
    [err != nil]. *)
Definition Unmarshal_transcriptLine (line : string) : option transcriptLine :=
  v ← json.parse line;
  match v with
  | json.Object ms => store_members store_transcriptLine zero_transcriptLine ms
  | json.Null => Some zero_transcriptLine
  | _ => None
  end.

Definition store_block (b : block) (key : string)
    (raw : json.RawMessage) (v : json.Value) : option block :=
  if json.names "type" key then
    s ← json.store_string (blockType b) v;
    Some {| blockType := s; blockText := blockText b |}
  else if json.names "text" key then
    s ← json.store_string (blockText b) v;
    Some {| blockType := blockType b; blockText := s |}
  else Some b.

Definition zero_block : block := {| blockType := ""; blockText := "" |}.

(** [json.Unmarshal(block, &obj)] for the anonymous struct of
    [extractText]. *)
Definition Unmarshal_block (raw : json.RawMessage) : option block :=
  v ← json.parse raw;
  match v with
  | json.Object ms => store_members store_block zero_block ms
  | json.Null => Some zero_block
  | _ => None
  end.

(** The body of the loop over the blocks: [parts] after one block. *)
Definition extractText_step (parts : list string) (blk : json.RawMessage)
    : list string :=
  match Unmarshal_block blk with
  | None => parts
  | Some obj =>
      if String.eqb (blockType obj) "text" && negb (String.eqb (blockText obj) "")
      then parts ++ [blockText obj]
      else parts
  end.

Definition extractText (raw : json.RawMessage) : string :=
  if (len raw =? 0)%Z then ""
  else
    match json.Unmarshal_string raw with
    | Some s => s
    | None =>
        match json.Unmarshal_RawMessages raw with
        | None => raw
        | Some blocks =>
            strings.Join (fold_left extractText_step blocks [])
                         (String LF EmptyString)
        end
    end.

Definition parseTimestamp (raw : string) (fallback : time.Time) : time.Time :=
  if String.eqb raw "" then fallback
  else
    match time.Parse raw with
    | Some t => t
    | None => fallback
    end.

Inductive error : Type :=
| ErrOpen (path : string)
| ErrSeek (offset : Z)
| ErrScan (e : bufio.error).

(** The buffer of the scanner of [Harvest]: at most 10 MB. *)
Definition maxLine : Z := bufio.Buffer (1024 * 1024) (10 * 1024 * 1024).

(** The body of the scan loop of [Harvest]: [messages] after one line. *)
Definition Harvest_step (sessionID : string) (now : time.Time)
    (messages : list model.Message) (line : string) : list model.Message :=
  if (len line =? 0)%Z then messages
  else
    match Unmarshal_transcriptLine line with
    | None => messages
    | Some tl =>
        match Message tl with
        | None => messages
        | Some msg =>
            let role := Role msg in
            if negb (String.eqb role "user") && negb (String.eqb role "assistant")
            then messages
            else
              let ts := parseTimestamp (Timestamp tl) now in
              messages ++
                [ {| model.SessionID := sessionID;
                     model.UUID := UUID tl;
                     model.ParentUUID := Parent tl;
                     model.Role := role;
                     model.Content := extractText (Content msg);
                     model.RawContent := Content msg;
                     model.Model := Model msg;
                     model.Timestamp := ts |} ]
        end
    end.

(** [Harvest(sessionID, transcriptPath, fromOffset)] on the files [fs]
    with the clock [clk]: the two results of the Go function, and the
    clock afterwards. *)
Definition Harvest (sessionID transcriptPath : string) (fromOffset : Z)
    (fs : os.FS) (clk : time.Clock)
    : (option model.HarvestResult * option error) * time.Clock :=
  match os.Open fs transcriptPath with
  | None => ((None, Some (ErrOpen transcriptPath)), clk)
  | Some f =>
      match (if (0 <? fromOffset)%Z
             then snd <$> os.Seek f fromOffset io.SeekStart
             else Some f) with
      | None => ((None, Some (ErrSeek fromOffset)), clk)
      | Some f =>
          let limit := maxLine in
          let '(now, clk) := time.Now clk in
          let now := time.UTC now in
          let '(lines, err, f) := bufio.ScanAll limit f in
          let messages := fold_left (Harvest_step sessionID now) lines [] in
          match err with
          | Some e => ((None, Some (ErrScan e)), clk)
          | None =>
              let newOffset :=
                match os.Seek f 0 io.SeekCurrent with
                | Some (n, _) => n
                | None => 0%Z
                end in
              ((Some {| model.Messages := messages;
                        model.NewOffset := newOffset |}, None), clk)
          end
      end
  end.

End transcript.

(* ================================================================= *)
(** ** package model: payload.go *)

Module payload.

(** The payload of a hook, as [encoding/json] fills it. *)
Module hookPayload.

Record t : Type := mk {
  SessionID : string;
  CWD : string;
  HookEventName : string;
  TranscriptPath : string;
  PermissionMode : option string;
  Source : option string;
  Model : option string;
  AgentType : option string;
  Prompt : option string;
  ToolName : option string;
  ToolInput : option json.RawMessage;
  ToolUseID : option string;
  ToolResponse : option json.RawMessage;
  PermissionSuggestions : option json.RawMessage;
  Error : option string;
  IsInterrupt : option bool;
  Message : option string;
  Title : option string;
  NotificationType : option string;
  AgentID : option string;
  AgentTranscriptPath : option string;
  StopHookActive : option bool;
  TriggerType : option string;
  CustomInstructions : option string;
  Reason : option string
}.

End hookPayload.

Record ParsedPayload : Type := mkParsedPayload {
  Session : model.Session.t;
  Event : model.Event.t
}.

(** A JSON value stored into a [string] field. *)
Definition store_string (old : string) (raw : json.RawMessage) (v : json.Value)
    : option string :=
  json.store_string old v.

(** A JSON value stored into a [*string]: [null] makes it [nil]. *)
Definition store_pstring (old : option string) (raw : json.RawMessage)
    (v : json.Value) : option (option string) :=
  match v with
  | json.Str s => Some (Some s)
  | json.Null => Some None
  | _ => None
  end.

(** A JSON value stored into a [*bool]. *)
Definition store_pbool (old : option bool) (raw : json.RawMessage)
    (v : json.Value) : option (option bool) :=
  match v with
  | json.Bool b => Some (Some b)
  | json.Null => Some None
  | _ => None
  end.

(** A JSON value stored into a [*json.RawMessage]: any value but [null]
    is kept as it is written. *)
Definition store_praw (old : option json.RawMessage) (raw : json.RawMessage)
    (v : json.Value) : option (option json.RawMessage) :=
  match v with
  | json.Null => Some None
  | _ => Some (Some raw)
  end.

(** The value of the field tagged [name] once the members of an object
    have been stored, one after the other: those that name the field
    are stored into it, [zero] being its value before; one of them of
    the wrong kind is the error of [Unmarshal]. *)
Definition field {A : Type}
    (store : A -> json.RawMessage -> json.Value -> option A) (zero : A)
    (name : string) (members : list (string * (json.RawMessage * json.Value)))
    : option A :=
  fold_left
    (fun acc m => a ← acc; if json.names name m.1 then store a m.2.1 m.2.2 else Some a)
    members (Some zero).

Definition decode_hookPayload
    (ms : list (string * (json.RawMessage * json.Value))) : option hookPayload.t :=
  f1 ← field store_string "" "session_id" ms;
  f2 ← field store_string "" "cwd" ms;
  f3 ← field store_string "" "hook_event_name" ms;
  f4 ← field store_string "" "transcript_path" ms;
  f5 ← field store_pstring None "permission_mode" ms;
  f6 ← field store_pstring None "source" ms;
  f7 ← field store_pstring None "model" ms;
  f8 ← field store_pstring None "agent_type" ms;
  f9 ← field store_pstring None "prompt" ms;
  f10 ← field store_pstring None "tool_name" ms;
  f11 ← field store_praw None "tool_input" ms;
  f12 ← field store_pstring None "tool_use_id" ms;
  f13 ← field store_praw None "tool_response" ms;
  f14 ← field store_praw None "permission_suggestions" ms;
  f15 ← field store_pstring None "error" ms;
  f16 ← field store_pbool None "is_interrupt" ms;
  f17 ← field store_pstring None "message" ms;
  f18 ← field store_pstring None "title" ms;
  f19 ← field store_pstring None "notification_type" ms;
  f20 ← field store_pstring None "agent_id" ms;
  f21 ← field store_pstring None "agent_transcript_path" ms;
  f22 ← field store_pbool None "stop_hook_active" ms;
  f23 ← field store_pstring None "trigger_type" ms;
  f24 ← field store_pstring None "custom_instructions" ms;
  f25 ← field store_pstring None "reason" ms;
  Some (hookPayload.mk f1 f2 f3 f4 f5 f6 f7 f8 f9 f10 f11 f12 f13 f14 f15
          f16 f17 f18 f19 f20 f21 f22 f23 f24 f25).

(** [var p hookPayload; json.Unmarshal(data, &p)]: [None] when
    [err != nil]. *)
Definition Unmarshal_hookPayload (data : string) : option hookPayload.t :=
  v ← json.parse data;
  match v with
  | json.Object ms => decode_hookPayload ms
  | json.Null => decode_hookPayload []
  | _ => None
  end.

Inductive error : Type :=
| ErrUnmarshal
| ErrMissingFields.

(** [ParsePayload(data)] with the clock [clk]. *)
Definition ParsePayload (data : string) (clk : time.Clock)
    : (option ParsedPayload * option error) * time.Clock :=
  match Unmarshal_hookPayload data with
  | None => ((None, Some ErrUnmarshal), clk)
  | Some p =>
      if String.eqb (hookPayload.SessionID p) ""
         || String.eqb (hookPayload.CWD p) ""
         || String.eqb (hookPayload.HookEventName p) ""
      then ((None, Some ErrMissingFields), clk)
      else
        let '(now, clk) := time.Now clk in
        let now := time.UTC now in
        let session :=
          {| model.Session.ID := hookPayload.SessionID p;
             model.Session.CWD := hookPayload.CWD p;
             model.Session.TranscriptPath := hookPayload.TranscriptPath p;
             model.Session.CreatedAt := now |} in
        let event :=
          {| model.Event.SessionID := hookPayload.SessionID p;
             model.Event.EventType := hookPayload.HookEventName p;
             model.Event.Timestamp := now;
             model.Event.PermissionMode := hookPayload.PermissionMode p;
             model.Event.Source := hookPayload.Source p;
             model.Event.Model := hookPayload.Model p;
             model.Event.AgentType := hookPayload.AgentType p;
             model.Event.Prompt := hookPayload.Prompt p;
             model.Event.ToolName := hookPayload.ToolName p;
             model.Event.ToolInput :=
               match hookPayload.ToolInput p with
               | Some raw => Some raw
               | None => None
               end;
             model.Event.ToolUseID := hookPayload.ToolUseID p;
             model.Event.ToolResponse :=
               match hookPayload.ToolResponse p with
               | Some raw => Some raw
               | None => None
               end;
             model.Event.PermissionSuggestions :=
               match hookPayload.PermissionSuggestions p with
               | Some raw => Some raw
               | None => None
               end;
             model.Event.Error := hookPayload.Error p;
             model.Event.IsInterrupt := hookPayload.IsInterrupt p;
             model.Event.Message := hookPayload.Message p;
             model.Event.Title := hookPayload.Title p;
             model.Event.NotificationType := hookPayload.NotificationType p;
             model.Event.AgentID := hookPayload.AgentID p;
             model.Event.AgentTranscriptPath := hookPayload.AgentTranscriptPath p;
             model.Event.StopHookActive := hookPayload.StopHookActive p;
             model.Event.TriggerType := hookPayload.TriggerType p;
             model.Event.CustomInstructions := hookPayload.CustomInstructions p;
             model.Event.Reason := hookPayload.Reason p |} in
        ((Some {| Session := session; Event := event |}, None), clk)
  end.

End payload.

(* ================================================================= *)
(** ** package config *)

Module config.

Record Config : Type := mkConfig { LogBase : string }.

(** [Default()] in the environment [env]. *)
Definition Default (env : os.Env) : Config :=
  {| LogBase := filepath.Join [os.Getenv env "HOME"; ".claude"; "logs"] |}.

Definition ProjectSlug (c : Config) (cwd : string) : string :=
  let slug := strings.TrimPrefix cwd "/" in
  strings.ReplaceAll slug "/" "__".

Definition LogDir (c : Config) (cwd : string) : string :=
  filepath.Join [LogBase c; ProjectSlug c cwd].

Definition DBPath (c : Config) (cwd : string) : string :=
  filepath.Join [LogDir c cwd; "events.duckdb"].

End config.

(* ================================================================= *)
(** ** package summary *)

Module summary.

Definition maxConversationChars : Z := 8000.

Definition systemPrompt : string :=
  "Summarize this Claude Code session in one concise paragraph. Focus on what was accomplished, not the process. Do not use markdown formatting in the summary.".

(** The [client] of the source is its timeout here. *)
Record Summarizer : Type := mkSummarizer {
  endpoint : string;
  model : string;
  apiKey : string;
  client : time.Duration
}.

(** [NewFromEnv()] in the environment [env]; the error of the source
    is always [nil], and [None] is the [nil] summarizer. *)
Definition NewFromEnv (env : os.Env) : option Summarizer :=
  let model := os.Getenv env "OLLAMA_CHAT_MODEL" in
  if negb (String.eqb model "") then
    let host := os.Getenv env "OLLAMA_HOST" in
    if String.eqb host "" then None
    else
      Some {| endpoint := strings.TrimRight host "/" ++ "/v1/chat/completions";
              model := model;
              apiKey := "ollama";
              client := (120 * time.Second)%Z |}
  else
    let key := os.Getenv env "OPENAI_API_KEY" in
    if negb (String.eqb key "") then
      Some {| endpoint := "https://api.openai.com/v1/chat/completions";
              model := "gpt-4o-mini";
              apiKey := key;
              client := (60 * time.Second)%Z |}
    else None.

Definition Model (s : Summarizer) : string := model s.

Record chatMessage : Type := mkChatMessage { Role : string; Content : string }.

(** The line of one message: [fmt.Sprintf("%s: %s\n\n", label, m.Content)]. *)
Definition prompt_line (m : model.StoredMessage.t) : string :=
  let label :=
    if String.eqb (model.StoredMessage.Role m) "assistant" then "Assistant"
    else "User" in
  label ++ ": " ++ model.StoredMessage.Content m ++ String LF (String LF EmptyString).

(** The loop of [buildPrompt]: the builder [sb] after the messages. *)
Fixpoint buildPrompt_loop (messages : list model.StoredMessage.t) (sb : string)
    : string :=
  match messages with
  | [] => sb
  | m :: rest =>
      let line := prompt_line m in
      if (maxConversationChars <? len sb + len line)%Z
      then sb ++ "... (truncated)" ++ String LF EmptyString
      else buildPrompt_loop rest (sb ++ line)
  end.

Definition buildPrompt (messages : list model.StoredMessage.t) : list chatMessage :=
  [ {| Role := "system"; Content := systemPrompt |};
    {| Role := "user"; Content := buildPrompt_loop messages EmptyString |} ].

End summary.

(* ================================================================= *)
(** ** package embedding *)

Module embedding.

Module Provider.

Record t : Type := mk {
  Name : string;
  Endpoint : string;
  Model : string;
  Dimension : Z;
  EnvKey : string
}.

End Provider.

Definition Voyage : Provider.t :=
  {| Provider.Name := "Voyage AI";
     Provider.Endpoint := "https://api.voyageai.com/v1/embeddings";
     Provider.Model := "voyage-3-lite";
     Provider.Dimension := 1024;
     Provider.EnvKey := "VOYAGE_API_KEY" |}.

Definition OpenAI : Provider.t :=
  {| Provider.Name := "OpenAI";
     Provider.Endpoint := "https://api.openai.com/v1/embeddings";
     Provider.Model := "text-embedding-3-small";
     Provider.Dimension := 1536;
     Provider.EnvKey := "OPENAI_API_KEY" |}.

(** The [client] of the source is its timeout here. *)
Record HTTPEmbedder : Type := mkHTTPEmbedder {
  provider : Provider.t;
  apiKey : string;
  client : time.Duration
}.

Definition NewHTTP (provider : Provider.t) (apiKey : string) : HTTPEmbedder :=
  {| provider := provider; apiKey := apiKey; client := (60 * time.Second)%Z |}.

Definition Dimension (e : HTTPEmbedder) : Z := Provider.Dimension (provider e).

(** [truncate(s, max)]; [None] is the panic of a slice with a negative
    bound. *)
Definition truncate (s : string) (max : Z) : option string :=
  if (len s <=? max)%Z then Some s
  else if (max <? 0)%Z then None
  else Some (stake (Z.to_nat max) s ++ "...").

Inductive error : Type :=
| ErrNoHost
| ErrProbe (model : string)
| ErrEmptyProbe
| ErrNoProvider.

Section Embedding.

(** The exchange with the service, the method [Embed] of [HTTPEmbedder], is not
    described: [Embed e texts] is whatever it returns, [None] being an
    error. *)
Variable float32 : Type.
Variable Embed : HTTPEmbedder -> list string -> option (list (list float32)).

Definition newOllama (env : os.Env) (model : string)
    : option HTTPEmbedder * option error :=
  let host := os.Getenv env "OLLAMA_HOST" in
  if String.eqb host "" then (None, Some ErrNoHost)
  else
    let p := {| Provider.Name := "Ollama";
                Provider.Endpoint := strings.TrimRight host "/" ++ "/v1/embeddings";
                Provider.Model := model;
                Provider.Dimension := 0;
                Provider.EnvKey := "" |} in
    let emb := NewHTTP p "ollama" in
    match Embed emb ["hello"] with
    | None => (None, Some (ErrProbe model))
    | Some vecs =>
        match vecs with
        | [] => (None, Some ErrEmptyProbe)
        | v :: _ =>
            if (Z.of_nat (length v) =? 0)%Z then (None, Some ErrEmptyProbe)
            else
              (Some {| provider :=
                         {| Provider.Name := Provider.Name (provider emb);
                            Provider.Endpoint := Provider.Endpoint (provider emb);
                            Provider.Model := Provider.Model (provider emb);
                            Provider.Dimension := Z.of_nat (length v);
                            Provider.EnvKey := Provider.EnvKey (provider emb) |};
                       apiKey := apiKey emb;
                       client := client emb |}, None)
        end
    end.

(** The loop over the providers: the first whose key is set. *)
Fixpoint first_provider (env : os.Env) (ps : list Provider.t) : option HTTPEmbedder :=
  match ps with
  | [] => None
  | p :: rest =>
      let key := os.Getenv env (Provider.EnvKey p) in
      if negb (String.eqb key "") then Some (NewHTTP p key)
      else first_provider env rest
  end.

Definition NewFromEnv (env : os.Env) : option HTTPEmbedder * option error :=
  let model := os.Getenv env "OLLAMA_EMBED_MODEL" in
  if negb (String.eqb model "") then newOllama env model
  else
    match first_provider env [Voyage; OpenAI] with
    | Some e => (Some e, None)
    | None => (None, Some ErrNoProvider)
    end.

End Embedding.

End embedding.


(* ================================================================= *)
(** ** database/sql on the schema of the store

    The two tables of [coreSchema] that the harvesting path reads and
    writes.  [messages] is kept in insertion order; its surrogate key
    [id], drawn from a sequence by the database, is not read by the code
    modelled here and is left out.  A column that admits NULL is an
    [option]. *)

Module sql.

Record Row : Type := mkRow {
  session_id : string;
  uuid : option string;
  parent_uuid : option string;
  role : string;
  content : option string;
  raw_content : option string;
  model_ : option string;
  timestamp : time.Time
}.

Record Tables : Type := mkTables {
  messages : list Row;
  transcript_offsets : gmap string Z
}.

Definition has_uuid (u : string) (r : Row) : bool :=
  match uuid r with
  | Some v => String.eqb v u
  | None => false
  end.

(** [INSERT INTO messages ... ON CONFLICT (uuid) DO NOTHING]: the
    UNIQUE constraint on [uuid] compares non-NULL values only, so a row
    whose [uuid] is NULL never conflicts. *)
Definition insert_message (r : Row) (t : Tables) : Tables :=
  match uuid r with
  | Some u =>
      if existsb (has_uuid u) (messages t) then t
      else {| messages := messages t ++ [r];
              transcript_offsets := transcript_offsets t |}
  | None =>
      {| messages := messages t ++ [r];
         transcript_offsets := transcript_offsets t |}
  end.

(** [INSERT INTO transcript_offsets ... ON CONFLICT (transcript_path)
    DO UPDATE SET last_offset = excluded.last_offset]. *)
Definition upsert_offset (path : string) (offset : Z) (t : Tables) : Tables :=
  {| messages := messages t;
     transcript_offsets := <[path := offset]> (transcript_offsets t) |}.

(** [SELECT last_offset FROM transcript_offsets WHERE transcript_path = ?]:
    [None] is [sql.ErrNoRows]. *)
Definition select_offset (path : string) (t : Tables) : option Z :=
  transcript_offsets t !! path.

(** A database handle: the committed tables, the working copy of the
    transaction in progress, and the failures of the database itself
    (I/O and the like): the [n]-th call on the handle fails when
    [faults n] holds, and then changes nothing. *)
Record DB : Type := mkDB {
  committed : Tables;
  tx : option Tables;
  faults : nat -> bool;
  ncalls : nat
}.

(** One call reaches the database: does it fail? *)
Definition call (d : DB) : bool * DB :=
  (faults d (ncalls d),
   {| committed := committed d; tx := tx d;
      faults := faults d; ncalls := S (ncalls d) |}).

Definition set_tx (d : DB) (w : option Tables) : DB :=
  {| committed := committed d; tx := w;
     faults := faults d; ncalls := ncalls d |}.

(** [db.Begin()]: [true] when [err == nil]. *)
Definition Begin (d : DB) : bool * DB :=
  let '(failed, d) := call d in
  if failed then (false, d) else (true, set_tx d (Some (committed d))).

(** [tx.Prepare(...)]. *)
Definition Prepare (d : DB) : bool * DB :=
  let '(failed, d) := call d in (negb failed, d).

(** [stmt.Exec] and [tx.Exec]: a statement run inside the transaction
    changes its working copy only. *)
Definition Exec (stmt : Tables -> Tables) (d : DB) : bool * DB :=
  let '(failed, d) := call d in
  if failed then (false, d) else (true, set_tx d (stmt <$> tx d)).

(** [tx.Commit()]: the working copy becomes the committed state; a
    commit that fails leaves the committed state as it was.  Either way
    the transaction is over. *)
Definition Commit (d : DB) : bool * DB :=
  let '(failed, d) := call d in
  if failed then (false, set_tx d None)
  else
    (true,
     {| committed := default (committed d) (tx d); tx := None;
        faults := faults d; ncalls := ncalls d |}).

(** [tx.Rollback()]: drops the working copy; after [Commit] there is
    none and nothing happens. *)
Definition Rollback (d : DB) : DB := set_tx d None.

(** [db.QueryRow(...).Scan(&v)] outside a transaction: [inl] is the
    error of the database, [inr None] is [sql.ErrNoRows]. *)
Definition QueryRow {A : Type} (q : Tables -> option A) (d : DB)
    : (unit + option A) * DB :=
  let '(failed, d) := call d in
  if failed then (inl tt, d) else (inr (q (committed d)), d).

(** *** The tables of the hook

    The tables [sessions] and [events] of [coreSchema].  The statements
    on them run outside a transaction, so each takes effect at once.
    [sessions] is keyed by its primary key [session_id]; [events] is
    kept in insertion order, its surrogate key [id] left out as for
    [messages]. *)

Module Sessions.

Record Row : Type := mk {
  cwd : string;
  transcript_path : option string;
  created_at : time.Time
}.

End Sessions.

Module Events.

Record Row : Type := mk {
  session_id : string;
  event_type : string;
  timestamp : time.Time;
  permission_mode : option string;
  source : option string;
  model_ : option string;
  agent_type : option string;
  prompt : option string;
  tool_name : option string;
  tool_input : option string;
  tool_use_id : option string;
  tool_response : option string;
  permission_suggestions : option string;
  error : option string;
  is_interrupt : option bool;
  message : option string;
  title : option string;
  notification_type : option string;
  agent_id : option string;
  agent_transcript_path : option string;
  stop_hook_active : option bool;
  trigger_type : option string;
  custom_instructions : option string;
  reason : option string
}.

End Events.

Record Log : Type := mkLog {
  sessions : gmap string Sessions.Row;
  events : list Events.Row
}.

(** [INSERT INTO sessions ... ON CONFLICT (session_id) DO UPDATE SET
    transcript_path = excluded.transcript_path]: on a session that is
    stored only the path is replaced. *)
Definition upsert_session (id : string) (r : Sessions.Row) (l : Log) : Log :=
  {| sessions :=
       match sessions l !! id with
       | Some old =>
           <[id := {| Sessions.cwd := Sessions.cwd old;
                      Sessions.transcript_path := Sessions.transcript_path r;
                      Sessions.created_at := Sessions.created_at old |}]>
             (sessions l)
       | None => <[id := r]> (sessions l)
       end;
     events := events l |}.

(** [INSERT INTO events ... VALUES ...]. *)
Definition insert_event (r : Events.Row) (l : Log) : Log :=
  {| sessions := sessions l; events := events l ++ [r] |}.

(** A database file: the handle with the tables of the harvest, and
    the tables of the hook. *)
Record Conn : Type := mkConn {
  db : DB;
  log : Log
}.

(** [db.Exec] of a statement on the tables of the hook, outside a
    transaction: [true] when [err == nil]. *)
Definition ExecLog (stmt : Log -> Log) (c : Conn) : bool * Conn :=
  let '(failed, d) := call (db c) in
  if failed then (false, {| db := d; log := log c |})
  else (true, {| db := d; log := stmt (log c) |}).

(** [db.Exec(coreSchema)]: every statement of the schema is
    [IF NOT EXISTS], and the tables modelled here are there from the
    start, empty, so the call changes no table. *)
Definition ExecSchema (c : Conn) : bool * Conn :=
  let '(failed, d) := call (db c) in
  (negb failed, {| db := d; log := log c |}).

End sql.

(* ================================================================= *)
(** ** package store *)

Module store.

Inductive error : Type :=
| ErrBegin
| ErrPrepare
| ErrInsert (uuid : string)
| ErrUpdateOffset
| ErrCommit
| ErrQuery.

(** [nullStr]: [None] is the [nil] that becomes NULL. *)
Definition nullStr (s : string) : option string :=
  if String.eqb s "" then None else Some s.

(** The values bound to the INSERT statement for one message. *)
Definition row_of (m : model.Message) : sql.Row :=
  {| sql.session_id := model.SessionID m;
     sql.uuid := nullStr (model.UUID m);
     sql.parent_uuid := nullStr (model.ParentUUID m);
     sql.role := model.Role m;
     sql.content := nullStr (model.Content m);
     sql.raw_content := nullStr (model.RawContent m);
     sql.model_ := nullStr (model.Model m);
     sql.timestamp := model.Timestamp m |}.

(** The loop over the messages: the first error, if any. *)
Fixpoint insert_all (messages : list model.Message) (d : sql.DB)
    : option error * sql.DB :=
  match messages with
  | [] => (None, d)
  | m :: rest =>
      let '(ok, d) := sql.Exec (sql.insert_message (row_of m)) d in
      if ok then insert_all rest d
      else (Some (ErrInsert (model.UUID m)), d)
  end.

(** [SaveHarvestedMessages] up to its return, the deferred
    [tx.Rollback()] still to run. *)
Definition SaveHarvestedMessages_body (messages : list model.Message)
    (transcriptPath : string) (newOffset : Z) (d : sql.DB)
    : option error * sql.DB :=
  let '(ok, d) := sql.Prepare d in
  if negb ok then (Some ErrPrepare, d)
  else
    match insert_all messages d with
    | (Some e, d) => (Some e, d)
    | (None, d) =>
        let '(ok, d) := sql.Exec (sql.upsert_offset transcriptPath newOffset) d in
        if negb ok then (Some ErrUpdateOffset, d)
        else
          let '(ok, d) := sql.Commit d in
          if ok then (None, d) else (Some ErrCommit, d)
    end.

Definition SaveHarvestedMessages (messages : list model.Message)
    (transcriptPath : string) (newOffset : Z) (d : sql.DB)
    : option error * sql.DB :=
  let '(ok, d) := sql.Begin d in
  if negb ok then (Some ErrBegin, d)
  else
    let '(err, d) :=
      SaveHarvestedMessages_body messages transcriptPath newOffset d in
    (err, sql.Rollback d).

(** [GetOffset]: the offset and the error. *)
Definition GetOffset (path : string) (d : sql.DB)
    : (Z * option error) * sql.DB :=
  let '(r, d) := sql.QueryRow (sql.select_offset path) d in
  match r with
  | inr None => ((0%Z, None), d)
  | inr (Some offset) => ((offset, None), d)
  | inl _ => ((0%Z, Some ErrQuery), d)
  end.

(** *** The helpers of the queries *)

(** A value bound to a placeholder of a query. *)
Inductive arg : Type :=
| String_ (s : string)
| Int (n : Z)
| Time (t : time.Time).

(** The loop of [appendTimeClauses] over the clauses, [i] being the
    index of the first of them: the builder [sb] afterwards. *)
Fixpoint write_clauses (hasWhere : bool) (i : nat) (clauses : list string)
    (sb : string) : string :=
  match clauses with
  | [] => sb
  | c :: rest =>
      let sb := if Nat.eqb i 0 && negb hasWhere then sb ++ " WHERE "
                else sb ++ " AND " in
      write_clauses hasWhere (S i) rest (sb ++ c)
  end.

(** [appendTimeClauses(tf, tsCol, hasWhere, params)]; [None] is the
    [nil] filter. *)
Definition appendTimeClauses (tf : option model.TimeFilter) (tsCol : string)
    (hasWhere : bool) (params : list arg) : string * list arg :=
  match tf with
  | None => (EmptyString, params)
  | Some tf =>
      let clauses : list string := [] in
      let '(clauses, params) :=
        match model.Since tf with
        | Some t =>
            ((clauses ++ [(tsCol ++ " >= ?")%string])%list, (params ++ [Time t])%list)
        | None => (clauses, params)
        end in
      let '(clauses, params) :=
        match model.Until tf with
        | Some t =>
            ((clauses ++ [(tsCol ++ " <= ?")%string])%list, (params ++ [Time t])%list)
        | None => (clauses, params)
        end in
      if (Z.of_nat (length clauses) =? 0)%Z then (EmptyString, params)
      else (write_clauses hasWhere 0 clauses EmptyString, params)
  end.

(** [rawJSON]: [None] is the [nil] that becomes NULL. *)
Definition rawJSON (r : option json.RawMessage) : option string :=
  match r with
  | None => None
  | Some r => Some r
  end.

(** *** The operations of the hook

    Each returns [true] when its error is [nil]. *)

Definition InitCoreSchema (c : sql.Conn) : bool * sql.Conn :=
  sql.ExecSchema c.

(** The values bound to the INSERT statement for a session. *)
Definition session_row (session : model.Session.t) : sql.Sessions.Row :=
  {| sql.Sessions.cwd := model.Session.CWD session;
     sql.Sessions.transcript_path := nullStr (model.Session.TranscriptPath session);
     sql.Sessions.created_at := model.Session.CreatedAt session |}.

Definition UpsertSession (session : model.Session.t) (c : sql.Conn)
    : bool * sql.Conn :=
  sql.ExecLog
    (sql.upsert_session (model.Session.ID session) (session_row session)) c.

(** The values bound to the INSERT statement for an event. *)
Definition event_row (e : model.Event.t) : sql.Events.Row :=
  {| sql.Events.session_id := model.Event.SessionID e;
     sql.Events.event_type := model.Event.EventType e;
     sql.Events.timestamp := model.Event.Timestamp e;
     sql.Events.permission_mode := model.Event.PermissionMode e;
     sql.Events.source := model.Event.Source e;
     sql.Events.model_ := model.Event.Model e;
     sql.Events.agent_type := model.Event.AgentType e;
     sql.Events.prompt := model.Event.Prompt e;
     sql.Events.tool_name := model.Event.ToolName e;
     sql.Events.tool_input := rawJSON (model.Event.ToolInput e);
     sql.Events.tool_use_id := model.Event.ToolUseID e;
     sql.Events.tool_response := rawJSON (model.Event.ToolResponse e);
     sql.Events.permission_suggestions :=
       rawJSON (model.Event.PermissionSuggestions e);
     sql.Events.error := model.Event.Error e;
     sql.Events.is_interrupt := model.Event.IsInterrupt e;
     sql.Events.message := model.Event.Message e;
     sql.Events.title := model.Event.Title e;
     sql.Events.notification_type := model.Event.NotificationType e;
     sql.Events.agent_id := model.Event.AgentID e;
     sql.Events.agent_transcript_path := model.Event.AgentTranscriptPath e;
     sql.Events.stop_hook_active := model.Event.StopHookActive e;
     sql.Events.trigger_type := model.Event.TriggerType e;
     sql.Events.custom_instructions := model.Event.CustomInstructions e;
     sql.Events.reason := model.Event.Reason e |}.

Definition InsertEvent (e : model.Event.t) (c : sql.Conn) : bool * sql.Conn :=
  sql.ExecLog (sql.insert_event (event_row e)) c.

End store.

(* ================================================================= *)
(** ** package main *)

Module main.

Inductive error : Type :=
| StoreError (e : store.error)
| HarvestError (e : transcript.error).

(** [harvestMessages(st, sessionID, transcriptPath)] on the store [d],
    the files [fs] and the clock [clk]. *)
Definition harvestMessages (sessionID transcriptPath : string)
    (d : sql.DB) (fs : os.FS) (clk : time.Clock)
    : option error * sql.DB * time.Clock :=
  let '((offset, err), d) := store.GetOffset transcriptPath d in
  match err with
  | Some e => (Some (StoreError e), d, clk)
  | None =>
      let '((result, err), clk) :=
        transcript.Harvest sessionID transcriptPath offset fs clk in
      match err, result with
      | Some e, _ => (Some (HarvestError e), d, clk)
      | None, None => (None, d, clk)
      | None, Some result =>
          if (Z.of_nat (length (model.Messages result)) =? 0)%Z
          then (None, d, clk)
          else
            let '(err, d) :=
              store.SaveHarvestedMessages (model.Messages result)
                transcriptPath (model.NewOffset result) d in
            (StoreError <$> err, d, clk)
      end
  end.

(** [truncate(s, maxLen)]; [None] is the panic of a slice with a
    negative bound. *)
Definition truncate (s : string) (maxLen : Z) : option string :=
  if (len s <=? maxLen)%Z then Some s
  else if (maxLen <? 0)%Z then None
  else Some (stake (Z.to_nat maxLen) s ++ "...").

(** The [switch] of [formatToolInput]: the field that is shown for a
    tool, empty when there is none. *)
Definition tool_key (toolName : string) : string :=
  if String.eqb toolName "Bash" then "command"
  else if String.eqb toolName "Read" then "file_path"
  else if String.eqb toolName "Edit" then "file_path"
  else if String.eqb toolName "Write" then "file_path"
  else if String.eqb toolName "Glob" then "pattern"
  else if String.eqb toolName "Grep" then "pattern"
  else if String.eqb toolName "WebFetch" then "url"
  else if String.eqb toolName "WebSearch" then "query"
  else if String.eqb toolName "Task" then "prompt"
  else "".

(** [formatToolInput(toolName, rawInput)]; [None] would be a panic. *)
Definition formatToolInput (toolName rawInput : string) : option string :=
  if String.eqb rawInput "" then Some "(no input)"
  else
    match json.Unmarshal_map rawInput with
    | None => truncate rawInput 120
    | Some m =>
        let key := tool_key toolName in
        match
          (if negb (String.eqb key "") then
             match (v ← m; v !! key) with
             | Some v => json.Unmarshal_string v
             | None => None
             end
           else None)
        with
        | Some s => truncate s 120
        | None => truncate rawInput 120
        end
    end.

(** *** The hook *)

(** What a run of the hook meets: the standard input as [io.ReadAll]
    returns it ([None] when reading fails), the environment, the
    regular files, the clock, the paths at which [os.MkdirAll] and
    [store.Open] fail, and the database file behind every path. *)
Record World : Type := mkWorld {
  stdin : option string;
  env : os.Env;
  files : os.FS;
  clock : time.Clock;
  mkdir_fails : string -> bool;
  open_fails : string -> bool;
  databases : string -> sql.Conn
}.

Inductive hook_error : Type :=
| ErrReadStdin
| ErrParsePayload (e : payload.error)
| ErrCreateLogDir
| ErrOpen
| ErrInitCoreSchema
| ErrUpsertSession
| ErrInsertEvent.

(** How a call ends: it returns its error, or it panics. *)
Inductive outcome : Type :=
| Return (err : option hook_error)
| Panic.

(** [runHook] from [store.Open] on, on the database [st] that was
    opened: the error returned, the database and the clock afterwards.
    The error of [harvestMessages] is printed, not returned. *)
Definition runHook_store (parsed : payload.ParsedPayload) (st : sql.Conn)
    (fs : os.FS) (clk : time.Clock)
    : option hook_error * sql.Conn * time.Clock :=
  let '(ok, st) := store.InitCoreSchema st in
  if negb ok then (Some ErrInitCoreSchema, st, clk)
  else
    let '(ok, st) := store.UpsertSession (payload.Session parsed) st in
    if negb ok then (Some ErrUpsertSession, st, clk)
    else
      let '(ok, st) := store.InsertEvent (payload.Event parsed) st in
      if negb ok then (Some ErrInsertEvent, st, clk)
      else
        if String.eqb (model.Event.EventType (payload.Event parsed)) "Stop"
           && negb (String.eqb
                      (model.Session.TranscriptPath (payload.Session parsed)) "")
        then
          let '(_, d, clk) :=
            harvestMessages (model.Session.ID (payload.Session parsed))
              (model.Session.TranscriptPath (payload.Session parsed))
              (sql.db st) fs clk in
          (None, {| sql.db := d; sql.log := sql.log st |}, clk)
        else (None, st, clk).

(** [runHook()] in the world [w]. *)
Definition runHook (w : World) : outcome * World :=
  match stdin w with
  | None => (Return (Some ErrReadStdin), w)
  | Some data =>
      let '((parsed, err), clk) := payload.ParsePayload data (clock w) in
      let w := {| stdin := stdin w; env := env w; files := files w;
                  clock := clk; mkdir_fails := mkdir_fails w;
                  open_fails := open_fails w; databases := databases w |} in
      match err, parsed with
      | Some e, _ => (Return (Some (ErrParsePayload e)), w)
      | None, None => (Panic, w)
      | None, Some parsed =>
          let cfg := config.Default (env w) in
          let cwd := model.Session.CWD (payload.Session parsed) in
          let dbPath := config.DBPath cfg cwd in
          if mkdir_fails w (config.LogDir cfg cwd)
          then (Return (Some ErrCreateLogDir), w)
          else if open_fails w dbPath then (Return (Some ErrOpen), w)
          else
            let '(err, st, clk) :=
              runHook_store parsed (databases w dbPath) (files w) (clock w) in
            (Return err,
             {| stdin := stdin w; env := env w; files := files w;
                clock := clk; mkdir_fails := mkdir_fails w;
                open_fails := open_fails w;
                databases :=
                  fun p => if String.eqb p dbPath then st else databases w p |})
      end
  end.

End main.

(* ================================================================= *)
(** ** Vocabulary of the statements *)

(** *** The store *)

(** The committed tables once every message of the batch has been
    inserted and the offset of the file has been set. *)
Definition saved (messages : list model.Message) (path : string)
    (offset : Z) (t : sql.Tables) : sql.Tables :=
  sql.upsert_offset path offset
    (fold_left (fun t m => sql.insert_message (store.row_of m) t) messages t).

(** The rows of the messages table that carry the identifier [u]. *)
Definition rows_with (u : string) (t : sql.Tables) : list sql.Row :=
  List.filter (sql.has_uuid u) (sql.messages t).

(** The rows of the messages table whose identifier is NULL. *)
Definition rows_without_uuid (t : sql.Tables) : list sql.Row :=
  List.filter (fun r => bool_decide (sql.uuid r = None)) (sql.messages t).

(** The UNIQUE constraint on [uuid]: no identifier is carried by two
    rows. *)
Definition unique_uuids (t : sql.Tables) : Prop :=
  forall u, length (rows_with u t) <= 1.

(** From now on no call on the handle fails. *)
Definition fault_free (d : sql.DB) : Prop :=
  forall n, sql.ncalls d <= n -> sql.faults d n = false.

(** What every call on the handle preserves until a commit. *)
Definition same_base (d d' : sql.DB) : Prop :=
  sql.committed d' = sql.committed d /\ sql.faults d' = sql.faults d
  /\ sql.ncalls d <= sql.ncalls d'.

(** A batch: the arguments of one call of [SaveHarvestedMessages]. *)
Definition batch : Type := list model.Message * string * Z.

(** One call of [SaveHarvestedMessages] after the other; the results
    in the order of the calls. *)
Fixpoint commit_all (bs : list batch) (d : sql.DB)
    : list (option store.error) * sql.DB :=
  match bs with
  | [] => ([], d)
  | (ms, path, offset) :: bs' =>
      let '(e, d) := store.SaveHarvestedMessages ms path offset d in
      let '(es, d) := commit_all bs' d in
      (e :: es, d)
  end.

(** *** Lines *)

(** The lines of a text: what stands between its newlines, the part
    after the last newline included.  [cur] is the beginning of the
    first line. *)
Fixpoint split_lines (cur s : string) : list string :=
  match s with
  | EmptyString => [cur]
  | String c r =>
      if (code c =? 10)%N then cur :: split_lines EmptyString r
      else split_lines (cur ++ String c EmptyString) r
  end.

(** The lines of a text as a reader of lines sees them: as above, but
    nothing after the last newline is no line. *)
Fixpoint text_lines (cur s : string) : list string :=
  match s with
  | EmptyString =>
      match cur with
      | EmptyString => []
      | String _ _ => [cur]
      end
  | String c r =>
      if (code c =? 10)%N then cur :: text_lines EmptyString r
      else text_lines (cur ++ String c EmptyString) r
  end.

(** Some line of the text has [limit] bytes or more: with its newline,
    or with the end of input still to be seen, it does not fit a buffer
    of [limit] bytes. *)
Definition line_too_long (limit : Z) (s : string) : Prop :=
  Exists (fun l => (limit <= len l)%Z) (split_lines EmptyString s).

(** The bytes of the file [data] from the offset [off] on. *)
Definition from_offset (data : string) (off : Z) : string :=
  sdrop (Z.to_nat off) data.

(** The lines [Harvest] gets from its scanner. *)
Definition scanned_lines (data : string) (off : Z) : list string :=
  (bufio.scan transcript.maxLine EmptyString (from_offset data off)).1.1.

(** *** Turns *)

(** The instant [Harvest] reads from the clock. *)
Definition harvest_now (clk : time.Clock) : time.Time :=
  time.UTC (time.reading clk (time.calls clk)).

Definition tick (clk : time.Clock) : time.Clock := (time.Now clk).2.

Definition is_turn_role (role : string) : bool :=
  String.eqb role "user" || String.eqb role "assistant".

(** The turn built from a record and its payload. *)
Definition turn_of (sessionID : string) (now : time.Time)
    (tl : transcript.transcriptLine) (p : transcript.messagePayload)
    : model.Message :=
  {| model.SessionID := sessionID;
     model.UUID := transcript.UUID tl;
     model.ParentUUID := transcript.Parent tl;
     model.Role := transcript.Role p;
     model.Content := transcript.extractText (transcript.Content p);
     model.RawContent := transcript.Content p;
     model.Model := transcript.Model p;
     model.Timestamp := transcript.parseTimestamp (transcript.Timestamp tl) now |}.

(** The turn a line gives, if it gives one. *)
Definition harvest_line (sessionID : string) (now : time.Time) (line : string)
    : option model.Message :=
  tl ← transcript.Unmarshal_transcriptLine line;
  p ← transcript.Message tl;
  if is_turn_role (transcript.Role p) then Some (turn_of sessionID now tl p)
  else None.

(** The text of a content block, for the blocks that have one to show:
    those that decode, are of type "text" and whose text is not empty. *)
Definition block_text (blk : json.RawMessage) : option string :=
  obj ← transcript.Unmarshal_block blk;
  if String.eqb (transcript.blockType obj) "text"
     && negb (String.eqb (transcript.blockText obj) "")
  then Some (transcript.blockText obj) else None.

(** *** Readers of JSON *)

(** A reader that leaves less text than it was given. *)
Definition shrinks {A : Type} (g : N -> string -> option (A * string)) : Prop :=
  forall d s a r, g d s = Some (a, r) -> String.length r < String.length s.

(** Whatever [g] reads, [g'] reads the same. *)
Definition below {A : Type} (g g' : N -> string -> option A) : Prop :=
  forall d s r, g d s = Some r -> g' d s = Some r.

(** *** The other packages *)

(** The rows of the turns of some batches, in the order of the batches. *)
Definition batch_rows (bs : list batch) : list sql.Row :=
  store.row_of <$> concat ((fun b : batch => b.1.1) <$> bs).

(** The offset that the store holds for a file, zero when it holds none. *)
Definition stored_offset (path : string) (d : sql.DB) : Z :=
  default 0%Z (sql.transcript_offsets (sql.committed d) !! path).

(** The first turn of a batch that carries the identifier [u]. *)
Definition first_with (u : string) (ms : list model.Message) : option model.Message :=
  List.find (fun m => String.eqb (model.UUID m) u) ms.

(** The separator of paths. *)
Definition slash : ascii := chr 47.

(** The bytes of a string. *)
Definition bytes (s : string) : list ascii := list_ascii_of_string s.

(** An element that [Clean] keeps where it stands. *)
Definition plain (e : string) : Prop :=
  e <> EmptyString /\ e <> "." /\ e <> "..".

(** The seconds of the unit that a suffix stands for. *)
Definition unit_seconds (suffix : ascii) : option Z :=
  if (code suffix =? 109)%N then Some 60%Z
  else if (code suffix =? 104)%N then Some 3600%Z
  else if (code suffix =? 100)%N then Some 86400%Z
  else if (code suffix =? 119)%N then Some 604800%Z
  else None.

(** A decimal numeral: digits, at least one. *)
Definition numeral (ds : string) : Prop :=
  ds <> EmptyString /\ forallb is_digit (bytes ds) = true.

(** The number that a numeral writes. *)
Definition value (ds : string) : Z := time.digits_value 0 ds.

(** The instant that a clock shows at its next reading. *)
Definition next_reading (clk : time.Clock) : time.Time :=
  time.reading clk (time.calls clk).

(** Whether a value is a bound: a relative duration, or a timestamp in
    one of the layouts. *)
Definition is_time_arg (s : string) : bool :=
  (model.parseRelativeDuration s).2
  || bool_decide (is_Some (model.first_parse model.formats s)).

(** The number of placeholders of a query text. *)
Definition placeholders (s : string) : nat :=
  count_occ ascii_dec (bytes s) (chr 63).

(** The word before the first clause. *)
Definition keyword (hasWhere : bool) : string :=
  if hasWhere then " AND " else " WHERE ".

(** The lines of a conversation. *)
Definition prompt_lines (messages : list model.StoredMessage.t) : list string :=
  summary.prompt_line <$> messages.

(** The bytes of some lines, together. *)
Definition total_len (lines : list string) : Z :=
  fold_right (fun l n => (len l + n)%Z) 0%Z lines.

(** What [buildPrompt] writes where it stops. *)
Definition truncation_mark : string := "... (truncated)" ++ String LF EmptyString.

(** [n] slashes. *)
Definition slashes (n : nat) : string := string_of_list_ascii (repeat slash n).

(** The database file of the project of a payload, and its
    directory. *)
Definition hook_db (w : main.World) (parsed : payload.ParsedPayload) : string :=
  config.DBPath (config.Default (main.env w))
    (model.Session.CWD (payload.Session parsed)).

Definition hook_dir (w : main.World) (parsed : payload.ParsedPayload) : string :=
  config.LogDir (config.Default (main.env w))
    (model.Session.CWD (payload.Session parsed)).

(** The next three calls on the handle succeed. *)
Definition three_calls_succeed (d : sql.DB) : Prop :=
  sql.faults d (sql.ncalls d) = false
  /\ sql.faults d (S (sql.ncalls d)) = false
  /\ sql.faults d (S (S (sql.ncalls d))) = false.

(** The tables of the hook and of the harvest in the database file
    behind a path. *)
Definition log_at (w : main.World) (p : string) : sql.Log :=
  sql.log (main.databases w p).

Definition tables_at (w : main.World) (p : string) : sql.Tables :=
  sql.committed (sql.db (main.databases w p)).

(** A payload for which the hook goes on to harvest. *)
Definition is_stop (parsed : payload.ParsedPayload) : bool :=
  String.eqb (model.Event.EventType (payload.Event parsed)) "Stop"
  && negb (String.eqb (model.Session.TranscriptPath (payload.Session parsed)) "").

(* ================================================================= *)
(** ** Data of the examples *)

(** Apostrophes written for the double quotes of a JSON text. *)
Fixpoint dq (s : string) : string :=
  match s with
  | String c r => String (if (code c =? 39)%N then dquote else c) (dq r)
  | EmptyString => EmptyString
  end.

(** The file written by the test helper [writeTranscript]: every line
    followed by a newline. *)
Definition writeTranscript (lines : list string) : string :=
  String.concat "" (map (fun l => dq l ++ String LF EmptyString) lines).

(** A clock that shows second [1000 + n] at its [n]-th reading. *)
Definition test_clock : time.Clock :=
  {| time.reading := fun n => {| time.unixSec := 1000 + Z.of_nat n;
                                 time.nsec := 0; time.zoneOffset := 3600 |};
     time.calls := 0 |}.

(** A handle on the tables [t] with no transaction open, whose calls
    fail as [f] says. *)
Definition handle (t : sql.Tables) (f : nat -> bool) : sql.DB :=
  {| sql.committed := t; sql.tx := None; sql.faults := f; sql.ncalls := 0 |}.

Definition no_faults : nat -> bool := fun _ => false.

(** The [n]-th call fails, the others do not. *)
Definition fault_at (n : nat) : nat -> bool := fun k => Nat.eqb k n.

Definition empty_tables : sql.Tables :=
  {| sql.messages := []; sql.transcript_offsets := ∅ |}.

Definition msg_m1 : model.Message :=
  {| model.SessionID := "sess-1"; model.UUID := "m1"; model.ParentUUID := "";
     model.Role := "user"; model.Content := "hello"; model.RawContent := "";
     model.Model := ""; model.Timestamp := time.mkTime 1000 0 0 |}.

Definition msg_m2 : model.Message :=
  {| model.SessionID := "sess-1"; model.UUID := "m2"; model.ParentUUID := "";
     model.Role := "assistant"; model.Content := "hi"; model.RawContent := "";
     model.Model := ""; model.Timestamp := time.mkTime 1001 0 0 |}.

Definition msg_dup : model.Message :=
  {| model.SessionID := "sess-1"; model.UUID := "dup-1"; model.ParentUUID := "";
     model.Role := "user"; model.Content := "hello"; model.RawContent := "";
     model.Model := ""; model.Timestamp := time.mkTime 1000 0 0 |}.

(** The same identifier with other field values. *)
Definition msg_dup' : model.Message :=
  {| model.SessionID := "sess-2"; model.UUID := "dup-1"; model.ParentUUID := "p";
     model.Role := "assistant"; model.Content := "changed"; model.RawContent := "";
     model.Model := "x"; model.Timestamp := time.mkTime 2000 0 0 |}.

Definition store_with_dup : sql.DB :=
  handle {| sql.messages := [store.row_of msg_dup];
            sql.transcript_offsets := {[ "/path.jsonl" := 50%Z ]} |} no_faults.

Definition msg_anon : model.Message :=
  {| model.SessionID := "sess-1"; model.UUID := ""; model.ParentUUID := "";
     model.Role := "user"; model.Content := "hello"; model.RawContent := "";
     model.Model := ""; model.Timestamp := time.mkTime 1000 0 0 |}.

Definition turn_u1 : model.Message :=
  {| model.SessionID := "sess-1"; model.UUID := "u1"; model.ParentUUID := "";
     model.Role := "user"; model.Content := "hello";
     model.RawContent := dq "'hello'"; model.Model := "";
     model.Timestamp := time.mkTime 1000 0 0 |}.

(** The file of [TestHarvest_WhenGivenUserMessage_ShouldExtractIt]. *)
Definition fs_u1 : os.FS :=
  {[ "/t.jsonl" :=
       writeTranscript
         ["{'type':'message','uuid':'u1','message':{'role':'user','content':'hello'}}"] ]}.

(** A file with a turn without timestamp, one with a timestamp that
    parses, and one with a timestamp that does not. *)
Definition fs_times : os.FS :=
  {[ "/t.jsonl" :=
       writeTranscript
         ["{'type':'message','uuid':'u1','message':{'role':'user','content':'a'}}";
          "{'type':'message','uuid':'u2','timestamp':'2024-06-15T14:30:00Z','message':{'role':'user','content':'b'}}";
          "{'type':'message','uuid':'u3','timestamp':'yesterday','message':{'role':'assistant','content':'c'}}"] ]}.

Definition res_times : model.HarvestResult :=
  Eval vm_compute in
    default {| model.Messages := []; model.NewOffset := 0 |}
      (transcript.Harvest "sess-1" "/t.jsonl" 0 fs_times test_clock).1.1.

(** A file of one blank line, never harvested before. *)
Definition fs_blank : os.FS := {[ "/t.jsonl" := String LF EmptyString ]}.

(** A line of [n] letters. *)
Definition line_of (n : Z) : string :=
  string_of_list_ascii (repeat (chr 97) (Z.to_nat n)).

(** A record of kind "user": its kind is not "message", and it is
    kept. *)
Definition line_kind_user : string :=
  dq "{'type':'user','uuid':'u1','message':{'role':'user','content':'hi'}}".

Definition tl_kind_user : transcript.transcriptLine :=
  {| transcript.Type_ := "user"; transcript.UUID := "u1";
     transcript.Parent := ""; transcript.Timestamp := "";
     transcript.Message :=
       Some {| transcript.Role := "user"; transcript.Content := dq "'hi'";
               transcript.Model := "" |} |}.

(** [Harvest] on the file that [writeTranscript] makes of the lines:
    the texts of the turns and the new offset, or nothing on an error. *)
Definition harvested (lines : list string) (off : Z)
    : option (list string * Z) :=
  match (transcript.Harvest "sess-1" "/t.jsonl" off
           {[ "/t.jsonl" := writeTranscript lines ]} test_clock).1 with
  | (Some r, None) => Some (model.Content <$> model.Messages r, model.NewOffset r)
  | _ => None
  end.

(** The record of [fs_u1] and the file it makes. *)
Definition line_u1 : string :=
  "{'type':'message','uuid':'u1','message':{'role':'user','content':'hello'}}".

Definition data_u1 : string := writeTranscript [line_u1].

(** The same file while a second record is being written: its last
    line is not complete and has no newline yet. *)
Definition data_partial : string := data_u1 ++ dq "{'type':'message','uuid':'u2'".

Definition fs_partial : os.FS := {[ "/t.jsonl" := data_partial ]}.

(** The same file once the second record has been written. *)
Definition line_u2 : string :=
  "{'type':'message','uuid':'u2','message':{'role':'assistant','content':'hi'}}".

Definition fs_u2 : os.FS :=
  {[ "/t.jsonl" := data_u1 ++ dq line_u2 ++ String LF EmptyString ]}.

Definition turn_u2 : model.Message :=
  {| model.SessionID := "sess-1"; model.UUID := "u2"; model.ParentUUID := "";
     model.Role := "assistant"; model.Content := "hi";
     model.RawContent := dq "'hi'"; model.Model := "";
     model.Timestamp := time.mkTime 1000 0 0 |}.

(** A configuration as the tests of the package have it. *)
Definition test_config : config.Config := {| config.LogBase := "/tmp/logs" |}.

(** A filter with its two bounds, as in the tests of the clauses. *)
Definition filter_2024 : model.TimeFilter :=
  {| model.Since := Some (time.Date 2024 1 1 0 0 0 0);
     model.Until := Some (time.Date 2024 12 31 0 0 0 0) |}.

(** A database file that has never been written, none of whose calls
    fails. *)
Definition fresh_database : sql.Conn :=
  {| sql.db := handle empty_tables no_faults;
     sql.log := {| sql.sessions := ∅; sql.events := [] |} |}.

(** The payload of a Stop event of the session of [fs_u1]. *)
Definition payload_stop : string :=
  dq "{'session_id':'sess-1','cwd':'/home/u/project','hook_event_name':'Stop','transcript_path':'/t.jsonl'}".

(** Another event of that session, without transcript path. *)
Definition payload_prompt : string :=
  dq "{'session_id':'sess-1','cwd':'/home/u/project','hook_event_name':'UserPromptSubmit','prompt':'hi'}".

(** A database file in which that session is stored. *)
Definition known_database : sql.Conn :=
  {| sql.db := handle empty_tables no_faults;
     sql.log :=
       {| sql.sessions :=
            {[ "sess-1" :=
                 {| sql.Sessions.cwd := "/home/u/project";
                    sql.Sessions.transcript_path := Some "/t.jsonl";
                    sql.Sessions.created_at := time.mkTime 5 0 0 |} ]};
          sql.events := [] |} |}.

(** A run of the hook on [data]: the file of [fs_u1], the database [c]
    behind every path, and nothing that fails. *)
Definition world_of (data : string) (c : sql.Conn) : main.World :=
  {| main.stdin := Some data;
     main.env := {[ "HOME" := "/home/u" ]};
     main.files := fs_u1;
     main.clock := test_clock;
     main.mkdir_fails := fun _ => false;
     main.open_fails := fun _ => false;
     main.databases := fun _ => c |}.

(** What [ParsePayload] makes of [payload_prompt] on [test_clock]. *)
Definition parsed_prompt : payload.ParsedPayload :=
  {| payload.Session :=
       {| model.Session.ID := "sess-1";
          model.Session.CWD := "/home/u/project";
          model.Session.TranscriptPath := "";
          model.Session.CreatedAt := time.mkTime 1000 0 0 |};
     payload.Event :=
       model.Event.mk "sess-1" "UserPromptSubmit" (time.mkTime 1000 0 0)
         None None None None (Some "hi") None None None None None None None
         None None None None None None None None None |}.

(* ================================================================= *)
(** ** The JSON reader and its fuel *)

Lemma skip_space_len s : String.length (json.skip_space s) <= String.length s.
Proof.
  induction s as [|c s IH]; simpl; [lia|].
  destruct (json.is_space c); simpl; lia.
Qed.

Lemma scan_digits_len s : String.length (json.scan_digits s) <= String.length s.
Proof.
  induction s as [|c s IH]; simpl; [lia|].
  destruct (is_digit c); simpl; lia.
Qed.

Lemma scan_digits1_len s r :
  json.scan_digits1 s = Some r -> String.length r < String.length s.
Proof.
  destruct s as [|c s]; simpl; [discriminate|].
  destruct (is_digit c); [|discriminate]. intros [= <-].
  pose proof (scan_digits_len s). lia.
Qed.

Lemma scan_number_len s r :
  json.scan_number s = Some r -> String.length r < String.length s.
Proof.
  unfold json.scan_number.
  set (s1 := match s with
             | String c r0 => if json.isc c 45 then r0 else s
             | EmptyString => s
             end).
  assert (L1 : String.length s1 <= String.length s).
  { subst s1. destruct s as [|c r0]; simpl; [lia|].
    destruct (json.isc c 45); simpl; lia. }
  destruct (json.scan_int s1) as [r1|] eqn:E1; simpl; [|discriminate].
  assert (L2 : String.length r1 < String.length s1).
  { unfold json.scan_int in E1. destruct s1 as [|c r0]; [discriminate|].
    destruct (json.isc c 48).
    - injection E1 as <-. simpl; lia.
    - destruct (between 49 57 c); [|discriminate]. injection E1 as <-.
      pose proof (scan_digits_len r0). simpl; lia. }
  destruct (json.scan_frac r1) as [r2|] eqn:E2; simpl; [|discriminate].
  assert (L3 : String.length r2 <= String.length r1).
  { unfold json.scan_frac in E2. destruct r1 as [|c r0]; [by injection E2 as <-|].
    destruct (json.isc c 46).
    - apply scan_digits1_len in E2. simpl; lia.
    - by injection E2 as <-. }
  intros E3.
  assert (L4 : String.length r <= String.length r2).
  { unfold json.scan_exp in E3. destruct r2 as [|c r0]; [by injection E3 as <-|].
    destruct (json.isc c 101 || json.isc c 69).
    - destruct r0 as [|sg r3]; [discriminate|].
      destruct (json.isc sg 43 || json.isc sg 45);
        apply scan_digits1_len in E3; simpl in *; lia.
    - by injection E3 as <-. }
  lia.
Qed.

Lemma strip_prefix_len p : forall s r,
  json.strip_prefix p s = Some r ->
  String.length r + String.length p = String.length s.
Proof.
  induction p as [|a p IH]; intros s r; simpl.
  - intros [= <-]. lia.
  - destruct s as [|b s]; [discriminate|].
    destruct (Ascii.eqb a b); [|discriminate].
    intros H. apply IH in H. simpl. lia.
Qed.

Lemma scan_string_len_upto n : forall s inner rest,
  String.length s <= n ->
  json.scan_string s = Some (inner, rest) ->
  String.length rest < String.length s.
Proof.
  induction n as [|n IH]; intros s inner rest Hn.
  - destruct s; [discriminate | simpl in Hn; lia].
  - destruct s as [|c r]; [discriminate|]. simpl in Hn. simpl.
    destruct (json.isc c 34); [intros [= _ <-]; lia|].
    destruct (json.isc c 92).
    + destruct r as [|e r1]; [discriminate|]. simpl in Hn.
      destruct (json.simple_escape_ok e).
      * destruct (json.scan_string r1) as [[i1 rest1]|] eqn:E; [|discriminate].
        simpl. intros [= _ <-]. apply IH in E; lia.
      * destruct (json.isc e 117); [|discriminate].
        destruct r1 as [|h1 [|h2 [|h3 [|h4 r5]]]]; try discriminate.
        simpl in Hn.
        destruct (is_hex h1 && is_hex h2 && is_hex h3 && is_hex h4);
          [|discriminate].
        destruct (json.scan_string r5) as [[i1 rest1]|] eqn:E; [|discriminate].
        simpl. intros [= _ <-]. apply IH in E; simpl; lia.
    + destruct (code c <? 32)%N; [discriminate|].
      destruct (json.scan_string r) as [[i1 rest1]|] eqn:E; [|discriminate].
      simpl. intros [= _ <-]. apply IH in E; lia.
Qed.

Lemma scan_string_len s inner rest :
  json.scan_string s = Some (inner, rest) ->
  String.length rest < String.length s.
Proof. apply (scan_string_len_upto (String.length s)). lia. Qed.

(** The readers leave less text than they were given. *)
Lemma value_body_shrinks members elems :
  shrinks members -> shrinks elems -> shrinks (json.value_body members elems).
Proof.
  intros Hm He d s a r. unfold json.value_body.
  destruct s as [|c r0]; [discriminate|].
  pose proof (skip_space_len r0) as Ls.
  destruct (json.isc c 123).
  { destruct (json.maxNestingDepth <? d + 1)%N; [discriminate|].
    destruct (json.skip_space r0) as [|c1 r1]; [discriminate|].
    destruct (json.isc c1 125); [intros [= _ <-]; simpl in *; lia|].
    destruct (members _ _) as [[ms rest]|] eqn:E; [|discriminate].
    intros [= _ <-]. apply Hm in E. simpl in *; lia. }
  destruct (json.isc c 91).
  { destruct (json.maxNestingDepth <? d + 1)%N; [discriminate|].
    destruct (json.skip_space r0) as [|c1 r1]; [discriminate|].
    destruct (json.isc c1 93); [intros [= _ <-]; simpl in *; lia|].
    destruct (elems _ _) as [[vs rest]|] eqn:E; [|discriminate].
    intros [= _ <-]. apply He in E. simpl in *; lia. }
  destruct (json.isc c 34).
  { destruct (json.scan_string r0) as [[inner rest]|] eqn:E; [|discriminate].
    simpl. destruct (json.unquote inner); [|discriminate].
    intros [= _ <-]. apply scan_string_len in E. simpl; lia. }
  destruct (json.isc c 45 || is_digit c).
  { destruct (json.scan_number (String c r0)) as [rest|] eqn:E; [|discriminate].
    intros [= _ <-]. by apply scan_number_len in E. }
  destruct (json.isc c 116).
  { destruct (json.strip_prefix "true" (String c r0)) as [rest|] eqn:E;
      [|discriminate].
    intros [= _ <-]. apply strip_prefix_len in E. simpl in *; lia. }
  destruct (json.isc c 102).
  { destruct (json.strip_prefix "false" (String c r0)) as [rest|] eqn:E;
      [|discriminate].
    intros [= _ <-]. apply strip_prefix_len in E. simpl in *; lia. }
  destruct (json.isc c 110); [|discriminate].
  destruct (json.strip_prefix "null" (String c r0)) as [rest|] eqn:E;
    [|discriminate].
  intros [= _ <-]. apply strip_prefix_len in E. simpl in *; lia.
Qed.

Lemma elems_body_shrinks value elems :
  shrinks value -> shrinks elems -> shrinks (json.elems_body value elems).
Proof.
  intros Hv He d s a r. unfold json.elems_body.
  destruct (value d s) as [[v r0]|] eqn:E; [|discriminate]. simpl.
  apply Hv in E. pose proof (skip_space_len r0) as Ls.
  destruct (json.skip_space r0) as [|c r1]; [discriminate|].
  destruct (json.isc c 44).
  - destruct (elems d (json.skip_space r1)) as [[vs rest]|] eqn:E2; [|discriminate].
    intros [= _ <-]. apply He in E2. pose proof (skip_space_len r1).
    simpl in *; lia.
  - destruct (json.isc c 93); [|discriminate].
    intros [= _ <-]. simpl in *; lia.
Qed.

Lemma members_body_shrinks value members :
  shrinks value -> shrinks members -> shrinks (json.members_body value members).
Proof.
  intros Hv Hm d s a r. unfold json.members_body.
  destruct s as [|q r0]; [discriminate|].
  destruct (json.isc q 34); [|discriminate].
  destruct (json.scan_string r0) as [[inner r1]|] eqn:E; [|discriminate]. simpl.
  apply scan_string_len in E.
  destruct (json.unquote inner) as [k|]; [|discriminate]. simpl.
  pose proof (skip_space_len r1) as L1.
  destruct (json.skip_space r1) as [|c r2]; [discriminate|].
  destruct (json.isc c 58); [|discriminate].
  pose proof (skip_space_len r2) as L2.
  destruct (value d (json.skip_space r2)) as [[v r3]|] eqn:E3; [|discriminate].
  simpl. apply Hv in E3. pose proof (skip_space_len r3) as L3.
  destruct (json.skip_space r3) as [|c2 r4]; [discriminate|].
  destruct (json.isc c2 44).
  - destruct (members d (json.skip_space r4)) as [[ms rest]|] eqn:E4; [|discriminate].
    intros [= _ <-]. apply Hm in E4. pose proof (skip_space_len r4).
    simpl in *; lia.
  - destruct (json.isc c2 125); [|discriminate].
    intros [= _ <-]. simpl in *; lia.
Qed.

Lemma parse_shrinks fuel :
  shrinks (json.parse_value fuel) /\ shrinks (json.parse_elems fuel)
  /\ shrinks (json.parse_members fuel).
Proof.
  induction fuel as [|f (Hv & He & Hm)]; simpl.
  - repeat split; intros d s a r; discriminate.
  - split; [|split].
    + by apply value_body_shrinks.
    + by apply elems_body_shrinks.
    + by apply members_body_shrinks.
Qed.

(** More fuel reads the same and more. *)
Lemma value_body_below members members' elems elems' :
  below members members' -> below elems elems' ->
  below (json.value_body members elems) (json.value_body members' elems').
Proof.
  intros Hm He d s res. unfold json.value_body.
  destruct s as [|c r0]; [discriminate|].
  destruct (json.isc c 123).
  { destruct (json.maxNestingDepth <? d + 1)%N; [discriminate|].
    destruct (json.skip_space r0) as [|c1 r1]; [discriminate|].
    destruct (json.isc c1 125); [auto|].
    destruct (members _ _) as [[ms rest]|] eqn:E; [|discriminate].
    apply Hm in E. rewrite E. auto. }
  destruct (json.isc c 91); [|auto].
  destruct (json.maxNestingDepth <? d + 1)%N; [discriminate|].
  destruct (json.skip_space r0) as [|c1 r1]; [discriminate|].
  destruct (json.isc c1 93); [auto|].
  destruct (elems _ _) as [[vs rest]|] eqn:E; [|discriminate].
  apply He in E. rewrite E. auto.
Qed.

Lemma elems_body_below value value' elems elems' :
  below value value' -> below elems elems' ->
  below (json.elems_body value elems) (json.elems_body value' elems').
Proof.
  intros Hv He d s res. unfold json.elems_body.
  destruct (value d s) as [[v r0]|] eqn:E; [|discriminate].
  apply Hv in E. rewrite E. simpl.
  destruct (json.skip_space r0) as [|c r1]; [discriminate|].
  destruct (json.isc c 44); [|auto].
  destruct (elems d (json.skip_space r1)) as [[vs rest]|] eqn:E2; [|discriminate].
  apply He in E2. rewrite E2. auto.
Qed.

Lemma members_body_below value value' members members' :
  below value value' -> below members members' ->
  below (json.members_body value members) (json.members_body value' members').
Proof.
  intros Hv Hm d s res. unfold json.members_body.
  destruct s as [|q r0]; [discriminate|].
  destruct (json.isc q 34); [|discriminate].
  destruct (json.scan_string r0) as [[inner r1]|]; [|discriminate]. simpl.
  destruct (json.unquote inner) as [k|]; [|discriminate]. simpl.
  destruct (json.skip_space r1) as [|c r2]; [discriminate|].
  destruct (json.isc c 58); [|discriminate].
  destruct (value d (json.skip_space r2)) as [[v r3]|] eqn:E3; [|discriminate].
  apply Hv in E3. rewrite E3. simpl.
  destruct (json.skip_space r3) as [|c2 r4]; [discriminate|].
  destruct (json.isc c2 44); [|auto].
  destruct (members d (json.skip_space r4)) as [[ms rest]|] eqn:E4; [|discriminate].
  apply Hm in E4. rewrite E4. auto.
Qed.

Lemma parse_below f : forall f', f <= f' ->
  below (json.parse_value f) (json.parse_value f')
  /\ below (json.parse_elems f) (json.parse_elems f')
  /\ below (json.parse_members f) (json.parse_members f').
Proof.
  induction f as [|f IH]; intros f' Hle.
  - repeat split; intros d s r; discriminate.
  - destruct f' as [|f']; [lia|].
    destruct (IH f' ltac:(lia)) as (Hv & He & Hm). simpl.
    split; [|split].
    + by apply value_body_below.
    + by apply elems_body_below.
    + by apply members_body_below.
Qed.

(** Readers that agree on the shorter texts give bodies that agree. *)
Lemma value_body_agree members members' elems elems' d s :
  (forall d' s', String.length s' < String.length s ->
                 members d' s' = members' d' s') ->
  (forall d' s', String.length s' < String.length s ->
                 elems d' s' = elems' d' s') ->
  json.value_body members elems d s = json.value_body members' elems' d s.
Proof.
  intros Hm He. unfold json.value_body.
  destruct s as [|c r0]; [reflexivity|].
  pose proof (skip_space_len r0) as Ls.
  destruct (json.isc c 123).
  { destruct (json.maxNestingDepth <? d + 1)%N; [reflexivity|].
    destruct (json.skip_space r0) as [|c1 r1]; [reflexivity|].
    destruct (json.isc c1 125); [reflexivity|].
    rewrite Hm by (simpl in *; lia). reflexivity. }
  destruct (json.isc c 91); [|reflexivity].
  destruct (json.maxNestingDepth <? d + 1)%N; [reflexivity|].
  destruct (json.skip_space r0) as [|c1 r1]; [reflexivity|].
  destruct (json.isc c1 93); [reflexivity|].
  rewrite He by (simpl in *; lia). reflexivity.
Qed.

Lemma elems_body_agree value value' elems elems' d s :
  shrinks value ->
  (forall d', value d' s = value' d' s) ->
  (forall d' s', String.length s' < String.length s ->
                 elems d' s' = elems' d' s') ->
  json.elems_body value elems d s = json.elems_body value' elems' d s.
Proof.
  intros Hs Hv He. unfold json.elems_body. rewrite <- Hv.
  destruct (value d s) as [[v r0]|] eqn:E; [|reflexivity]. simpl.
  apply Hs in E. pose proof (skip_space_len r0) as Ls.
  destruct (json.skip_space r0) as [|c r1]; [reflexivity|].
  destruct (json.isc c 44); [|reflexivity].
  pose proof (skip_space_len r1).
  rewrite He by (simpl in *; lia). reflexivity.
Qed.

Lemma members_body_agree value value' members members' d s :
  shrinks value ->
  (forall d' s', String.length s' < String.length s ->
                 value d' s' = value' d' s') ->
  (forall d' s', String.length s' < String.length s ->
                 members d' s' = members' d' s') ->
  json.members_body value members d s = json.members_body value' members' d s.
Proof.
  intros Hs Hv Hm. unfold json.members_body.
  destruct s as [|q r0]; [reflexivity|].
  destruct (json.isc q 34); [|reflexivity].
  destruct (json.scan_string r0) as [[inner r1]|] eqn:E; [|reflexivity]. simpl.
  apply scan_string_len in E.
  destruct (json.unquote inner) as [k|]; [|reflexivity]. simpl.
  pose proof (skip_space_len r1) as L1.
  destruct (json.skip_space r1) as [|c r2]; [reflexivity|].
  destruct (json.isc c 58); [|reflexivity].
  pose proof (skip_space_len r2) as L2.
  rewrite <- Hv by (simpl in *; lia).
  destruct (value d (json.skip_space r2)) as [[v r3]|] eqn:E3; [|reflexivity].
  simpl. apply Hs in E3. pose proof (skip_space_len r3) as L3.
  destruct (json.skip_space r3) as [|c2 r4]; [reflexivity|].
  destruct (json.isc c2 44); [|reflexivity].
  pose proof (skip_space_len r4).
  rewrite Hm by (simpl in *; lia). reflexivity.
Qed.

(** Beyond two units of fuel for every byte of the text, and one or two
    more, fuel makes no difference. *)
Lemma parse_agree n :
  (forall s f f' d, String.length s <= n ->
     2 * String.length s + 1 <= f -> 2 * String.length s + 1 <= f' ->
     json.parse_value f d s = json.parse_value f' d s)
  /\ (forall s f f' d, String.length s <= n ->
     2 * String.length s + 2 <= f -> 2 * String.length s + 2 <= f' ->
     json.parse_elems f d s = json.parse_elems f' d s)
  /\ (forall s f f' d, String.length s <= n ->
     2 * String.length s + 2 <= f -> 2 * String.length s + 2 <= f' ->
     json.parse_members f d s = json.parse_members f' d s).
Proof.
  induction n as [n IH] using lt_wf_ind.
  assert (V : forall s f f' d, String.length s <= n ->
     2 * String.length s + 1 <= f -> 2 * String.length s + 1 <= f' ->
     json.parse_value f d s = json.parse_value f' d s).
  { intros s f f' d Hn Hf Hf'.
    destruct f as [|f]; [lia|]. destruct f' as [|f']; [lia|]. simpl.
    apply value_body_agree; intros d' s' Hs'.
    - destruct (IH (String.length s') ltac:(lia)) as (_ & _ & Hm).
      apply Hm; lia.
    - destruct (IH (String.length s') ltac:(lia)) as (_ & He & _).
      apply He; lia. }
  split; [exact V|]. split.
  - intros s f f' d Hn Hf Hf'.
    destruct f as [|f]; [lia|]. destruct f' as [|f']; [lia|]. simpl.
    apply elems_body_agree.
    + apply parse_shrinks.
    + intros d'. apply V; lia.
    + intros d' s' Hs'.
      destruct (IH (String.length s') ltac:(lia)) as (_ & He & _).
      apply He; lia.
  - intros s f f' d Hn Hf Hf'.
    destruct f as [|f]; [lia|]. destruct f' as [|f']; [lia|]. simpl.
    apply members_body_agree.
    + apply parse_shrinks.
    + intros d' s' Hs'. apply V; lia.
    + intros d' s' Hs'.
      destruct (IH (String.length s') ltac:(lia)) as (_ & _ & Hm).
      apply Hm; lia.
Qed.

(** The fuel of [json.parse] is enough: a value that any amount of fuel
    reads off a text is read with [fuel_for]. *)
Lemma parse_value_fuel f d s res :
  json.parse_value f d s = Some res ->
  json.parse_value (json.fuel_for s) d s = Some res.
Proof.
  intros H.
  destruct (parse_below f (Nat.max f (json.fuel_for s)) ltac:(lia)) as (Hv & _).
  apply Hv in H. rewrite <- H.
  destruct (parse_agree (String.length s)) as (V & _).
  apply V; unfold json.fuel_for; lia.
Qed.

(* ================================================================= *)
(** ** The store: transactions *)

Lemma same_base_refl d : same_base d d.
Proof. unfold same_base; auto. Qed.

Lemma same_base_trans d1 d2 d3 :
  same_base d1 d2 -> same_base d2 d3 -> same_base d1 d3.
Proof.
  unfold same_base; intros (?&?&?) (?&?&?); repeat split; try congruence; lia.
Qed.

Lemma fault_free_base d d' : same_base d d' -> fault_free d -> fault_free d'.
Proof.
  intros (_ & Hf & Hn) H n Hle. rewrite Hf. apply H. lia.
Qed.

Lemma Exec_base stmt d : same_base d (sql.Exec stmt d).2.
Proof.
  unfold sql.Exec, sql.call; simpl.
  destruct (sql.faults d (sql.ncalls d)); simpl; unfold same_base; simpl; auto.
Qed.

Lemma Exec_ok stmt d d' :
  sql.Exec stmt d = (true, d') -> sql.tx d' = stmt <$> sql.tx d.
Proof.
  unfold sql.Exec, sql.call; simpl.
  destruct (sql.faults d (sql.ncalls d)); simpl; intros [= <-]; reflexivity.
Qed.

Lemma Exec_fault_free stmt d : fault_free d -> (sql.Exec stmt d).1 = true.
Proof.
  intros H. unfold sql.Exec, sql.call; simpl.
  rewrite (H (sql.ncalls d)); auto.
Qed.

Lemma insert_all_base ms : forall d, same_base d (store.insert_all ms d).2.
Proof.
  induction ms as [|m ms IH]; intros d; simpl.
  - apply same_base_refl.
  - pose proof (Exec_base (sql.insert_message (store.row_of m)) d) as Hb.
    destruct (sql.Exec _ d) as [[] d1]; simpl in *; auto.
    eapply same_base_trans; [exact Hb | apply IH].
Qed.

Lemma insert_all_ok ms : forall d d',
  store.insert_all ms d = (None, d') ->
  sql.tx d' =
    fold_left (fun t m => sql.insert_message (store.row_of m) t) ms <$> sql.tx d.
Proof.
  induction ms as [|m ms IH]; intros d d'; simpl.
  - intros [= <-]. destruct (sql.tx d); reflexivity.
  - destruct (sql.Exec _ d) as [[] d1] eqn:E; [|discriminate].
    intros H. apply IH in H. rewrite H, (Exec_ok _ _ _ E).
    destruct (sql.tx d); reflexivity.
Qed.

Lemma insert_all_fault_free ms : forall d,
  fault_free d -> (store.insert_all ms d).1 = None.
Proof.
  induction ms as [|m ms IH]; intros d H; simpl; [reflexivity|].
  pose proof (Exec_fault_free (sql.insert_message (store.row_of m)) d H) as Ht.
  pose proof (Exec_base (sql.insert_message (store.row_of m)) d) as Hb.
  destruct (sql.Exec _ d) as [ok d1]; simpl in *; subst ok.
  apply IH. eapply fault_free_base; eauto.
Qed.

Lemma Begin_spec d :
  sql.Begin d =
    if sql.faults d (sql.ncalls d) then (false, (sql.call d).2)
    else (true, sql.set_tx (sql.call d).2 (Some (sql.committed d))).
Proof. unfold sql.Begin, sql.call; simpl. destruct (sql.faults d _); reflexivity. Qed.

Lemma Commit_spec d :
  sql.Commit d =
    if sql.faults d (sql.ncalls d) then (false, sql.set_tx (sql.call d).2 None)
    else (true, {| sql.committed := default (sql.committed d) (sql.tx d);
                   sql.tx := None; sql.faults := sql.faults d;
                   sql.ncalls := S (sql.ncalls d) |}).
Proof. unfold sql.Commit, sql.call; simpl. destruct (sql.faults d _); reflexivity. Qed.

(** The body of [SaveHarvestedMessages], run inside a transaction whose
    working copy is [w]: on success the working copy with the whole
    batch applied has been committed; on an error nothing has. *)
Lemma body_outcome ms path offset d w e d' :
  sql.tx d = Some w ->
  store.SaveHarvestedMessages_body ms path offset d = (e, d') ->
  sql.faults d' = sql.faults d /\ sql.ncalls d <= sql.ncalls d' /\
  (e = None /\ sql.committed d' = saved ms path offset w /\ sql.tx d' = None
   \/ e <> None /\ sql.committed d' = sql.committed d).
Proof.
  intros Hw. unfold store.SaveHarvestedMessages_body, sql.Prepare.
  set (d1 := (sql.call d).2).
  assert (B1 : same_base d d1) by (unfold same_base, d1; simpl; auto).
  assert (T1 : sql.tx d1 = Some w) by exact Hw.
  replace (sql.call d) with (sql.faults d (sql.ncalls d), d1) by reflexivity.
  destruct (sql.faults d (sql.ncalls d)); simpl.
  { intros [= <- <-]. destruct B1 as (?&?&?). repeat split; auto; try (right; split; [discriminate | auto]). }
  pose proof (insert_all_base ms d1) as B2.
  destruct (store.insert_all ms d1) as [[e1|] d2] eqn:E2; simpl in B2.
  { intros [= <- <-]. destruct (same_base_trans _ _ _ B1 B2) as (?&?&?).
    repeat split; auto; try (right; split; [discriminate | auto]). }
  apply insert_all_ok in E2. rewrite T1 in E2; simpl in E2.
  pose proof (Exec_base (sql.upsert_offset path offset) d2) as B3.
  destruct (sql.Exec (sql.upsert_offset path offset) d2) as [[] d3] eqn:E3;
    simpl in B3; simpl.
  2:{ intros [= <- <-].
      destruct (same_base_trans _ _ _ B1 (same_base_trans _ _ _ B2 B3)) as (?&?&?).
      repeat split; auto; try (right; split; [discriminate | auto]). }
  apply Exec_ok in E3. rewrite E2 in E3; simpl in E3.
  destruct (same_base_trans _ _ _ B1 (same_base_trans _ _ _ B2 B3)) as (Hc&Hf&Hn).
  rewrite Commit_spec. destruct (sql.faults d3 (sql.ncalls d3)); simpl.
  - intros [= <- <-]. simpl. repeat split; auto; try lia; try (right; split; [discriminate | auto]).
  - intros [= <- <-]. simpl. repeat split; auto; try lia.
    try (left; rewrite E3; simpl; auto).
Qed.

Lemma body_fault_free ms path offset d :
  fault_free d -> (store.SaveHarvestedMessages_body ms path offset d).1 = None.
Proof.
  intros H. unfold store.SaveHarvestedMessages_body, sql.Prepare.
  set (d1 := (sql.call d).2).
  assert (B1 : same_base d d1) by (unfold same_base, d1; simpl; auto).
  replace (sql.call d) with (sql.faults d (sql.ncalls d), d1) by reflexivity.
  rewrite (H (sql.ncalls d)) by lia. simpl.
  pose proof (fault_free_base _ _ B1 H) as H1.
  pose proof (insert_all_fault_free ms d1 H1) as E.
  pose proof (insert_all_base ms d1) as B2.
  destruct (store.insert_all ms d1) as [e d2]; simpl in *; subst e.
  pose proof (fault_free_base _ _ B2 H1) as H2.
  pose proof (Exec_fault_free (sql.upsert_offset path offset) d2 H2) as E3.
  pose proof (Exec_base (sql.upsert_offset path offset) d2) as B3.
  destruct (sql.Exec _ d2) as [ok d3]; simpl in *; subst ok; simpl.
  pose proof (fault_free_base _ _ B3 H2) as H3.
  rewrite Commit_spec, (H3 (sql.ncalls d3)) by lia. reflexivity.
Qed.

(** The outcome of one call of [SaveHarvestedMessages]. *)
Lemma Save_outcome ms path offset d e d' :
  store.SaveHarvestedMessages ms path offset d = (e, d') ->
  sql.faults d' = sql.faults d /\ sql.ncalls d <= sql.ncalls d' /\
  (sql.tx d = None -> sql.tx d' = None) /\
  (e = None /\ sql.committed d' = saved ms path offset (sql.committed d)
   \/ e <> None /\ sql.committed d' = sql.committed d).
Proof.
  unfold store.SaveHarvestedMessages. rewrite Begin_spec.
  set (d1 := sql.set_tx (sql.call d).2 (Some (sql.committed d))).
  destruct (sql.faults d (sql.ncalls d)) eqn:F.
  { simpl. intros [= <- <-]. simpl. repeat split; auto;
      try (right; split; [discriminate | reflexivity]). }
  pose proof (body_outcome ms path offset d1 (sql.committed d)) as H.
  cbn [negb].
  destruct (store.SaveHarvestedMessages_body ms path offset d1) as [e1 d2].
  specialize (H _ _ eq_refl eq_refl). destruct H as (Hf & Hn & H).
  intros E; injection E as <- <-. simpl in *.
  repeat split; auto; try lia.
  destruct H as [(-> & Hc & _) | (He & Hc)]; [left | right]; auto.
Qed.

Lemma Save_fault_free ms path offset d :
  fault_free d -> (store.SaveHarvestedMessages ms path offset d).1 = None.
Proof.
  intros H. unfold store.SaveHarvestedMessages. rewrite Begin_spec.
  set (d1 := sql.set_tx (sql.call d).2 (Some (sql.committed d))).
  rewrite (H (sql.ncalls d)) by lia. cbn [negb].
  assert (H1 : fault_free d1).
  { intros n Hn. apply H. simpl in Hn. lia. }
  pose proof (body_fault_free ms path offset d1 H1) as E.
  destruct (store.SaveHarvestedMessages_body ms path offset d1) as [e1 d2].
  simpl in *. exact E.
Qed.

Lemma Save_fault_free_after ms path offset d :
  fault_free d -> fault_free (store.SaveHarvestedMessages ms path offset d).2.
Proof.
  intros H.
  destruct (store.SaveHarvestedMessages ms path offset d) as [e d'] eqn:E.
  apply Save_outcome in E as (Hf & Hn & _). simpl.
  intros n Hle. rewrite Hf. apply H. lia.
Qed.

(** What [saved] does to each of the two tables. *)
Lemma fold_insert_offsets ms : forall t,
  sql.transcript_offsets
    (fold_left (fun t m => sql.insert_message (store.row_of m) t) ms t)
  = sql.transcript_offsets t.
Proof.
  induction ms as [|m ms IH]; intros t; simpl; [reflexivity|].
  rewrite IH. unfold sql.insert_message.
  destruct (sql.uuid (store.row_of m)); [destruct (existsb _ _)|]; reflexivity.
Qed.

Lemma saved_offsets ms path offset t :
  sql.transcript_offsets (saved ms path offset t)
  = <[path := offset]> (sql.transcript_offsets t).
Proof. unfold saved; simpl. by rewrite fold_insert_offsets. Qed.

Lemma saved_messages ms path offset t :
  sql.messages (saved ms path offset t)
  = sql.messages
      (fold_left (fun t m => sql.insert_message (store.row_of m) t) ms t).
Proof. reflexivity. Qed.

Lemma saved_nil path offset t :
  saved [] path offset t = sql.upsert_offset path offset t.
Proof. reflexivity. Qed.

(** *** Rows that carry an identifier *)

Lemma rows_with_nonempty_exists u t :
  rows_with u t <> [] -> existsb (sql.has_uuid u) (sql.messages t) = true.
Proof.
  unfold rows_with. induction (sql.messages t) as [|r l IH]; simpl.
  - congruence.
  - destruct (sql.has_uuid u r); simpl; auto.
Qed.

Lemma has_uuid_inv u r : sql.has_uuid u r = true -> sql.uuid r = Some u.
Proof.
  unfold sql.has_uuid. destruct (sql.uuid r) as [v|]; [|discriminate].
  intros H. apply String.eqb_eq in H. by subst.
Qed.

Lemma has_uuid_refl u r : sql.uuid r = Some u -> sql.has_uuid u r = true.
Proof. unfold sql.has_uuid. intros ->. apply String.eqb_refl. Qed.

(** ON CONFLICT DO NOTHING: an identifier that is stored keeps its rows
    whatever is inserted. *)
Lemma insert_keeps_rows u r t :
  rows_with u t <> [] ->
  rows_with u (sql.insert_message r t) = rows_with u t.
Proof.
  intros Hu. unfold sql.insert_message.
  destruct (sql.uuid r) as [v|] eqn:Ev.
  - destruct (existsb (sql.has_uuid v) (sql.messages t)) eqn:Ex; [reflexivity|].
    unfold rows_with; simpl. rewrite List.filter_app; simpl.
    destruct (sql.has_uuid u r) eqn:Hr.
    + apply has_uuid_inv in Hr. rewrite Hr in Ev. injection Ev as <-.
      apply rows_with_nonempty_exists in Hu. congruence.
    + apply app_nil_r.
  - unfold rows_with; simpl. rewrite List.filter_app; simpl.
    unfold sql.has_uuid at 2. rewrite Ev. apply app_nil_r.
Qed.

Lemma fold_insert_keeps_rows u ms : forall t,
  rows_with u t <> [] ->
  rows_with u (fold_left (fun t m => sql.insert_message (store.row_of m) t) ms t)
  = rows_with u t.
Proof.
  induction ms as [|m ms IH]; intros t Hu; simpl; [reflexivity|].
  rewrite IH; rewrite insert_keeps_rows; auto.
Qed.

Lemma saved_keeps_rows u ms path offset t :
  rows_with u t <> [] -> rows_with u (saved ms path offset t) = rows_with u t.
Proof. intros Hu. unfold saved, rows_with; simpl. by apply fold_insert_keeps_rows. Qed.

(** A turn whose non-empty identifier is stored: its insertion changes
    nothing. *)
Lemma insert_conflict m t :
  model.UUID m <> "" -> rows_with (model.UUID m) t <> [] ->
  sql.insert_message (store.row_of m) t = t.
Proof.
  intros Hne Hu. unfold sql.insert_message, store.row_of, store.nullStr; simpl.
  destruct (String.eqb (model.UUID m) "") eqn:E.
  - apply String.eqb_eq in E. contradiction.
  - by rewrite rows_with_nonempty_exists.
Qed.

Lemma fold_insert_conflict u ms : forall t,
  u <> "" -> rows_with u t <> [] ->
  Forall (fun m => model.UUID m = u) ms ->
  fold_left (fun t m => sql.insert_message (store.row_of m) t) ms t = t.
Proof.
  induction ms as [|m ms IH]; intros t Hne Hu Hall; simpl; [reflexivity|].
  inversion Hall as [|? ? Hm Hms]; subst.
  rewrite insert_conflict; auto.
Qed.

Lemma Save_keeps_rows u ms path offset d :
  rows_with u (sql.committed d) <> [] ->
  rows_with u (sql.committed (store.SaveHarvestedMessages ms path offset d).2)
  = rows_with u (sql.committed d).
Proof.
  intros Hu.
  destruct (store.SaveHarvestedMessages ms path offset d) as [e d'] eqn:E.
  simpl. apply Save_outcome in E as (_ & _ & _ & [(_ & ->) | (_ & ->)]); simpl.
  - by apply saved_keeps_rows.
  - reflexivity.
Qed.

Lemma Save_conflict_messages u ms path offset d :
  u <> "" -> rows_with u (sql.committed d) <> [] ->
  Forall (fun m => model.UUID m = u) ms ->
  sql.messages (sql.committed (store.SaveHarvestedMessages ms path offset d).2)
  = sql.messages (sql.committed d).
Proof.
  intros Hne Hu Hall.
  destruct (store.SaveHarvestedMessages ms path offset d) as [e d'] eqn:E.
  simpl. apply Save_outcome in E as (_ & _ & _ & [(_ & ->) | (_ & ->)]); simpl.
  - rewrite (fold_insert_conflict u); auto.
  - reflexivity.
Qed.

Lemma commit_all_cons ms path offset bs d :
  commit_all ((ms, path, offset) :: bs) d =
    ((store.SaveHarvestedMessages ms path offset d).1
       :: (commit_all bs (store.SaveHarvestedMessages ms path offset d).2).1,
     (commit_all bs (store.SaveHarvestedMessages ms path offset d).2).2).
Proof.
  simpl. destruct (store.SaveHarvestedMessages ms path offset d) as [e d1].
  simpl. destruct (commit_all bs d1); reflexivity.
Qed.

Lemma commit_all_app bs1 : forall bs2 d,
  commit_all (bs1 ++ bs2)%list d =
    (((commit_all bs1 d).1 ++ (commit_all bs2 (commit_all bs1 d).2).1)%list,
     (commit_all bs2 (commit_all bs1 d).2).2).
Proof.
  induction bs1 as [|[[ms path] offset] bs1 IH]; intros bs2 d.
  - simpl. destruct (commit_all bs2 d); reflexivity.
  - rewrite <- app_comm_cons, !commit_all_cons, IH. reflexivity.
Qed.

Lemma commit_all_fault_free bs : forall d,
  fault_free d -> Forall (fun e => e = None) (commit_all bs d).1.
Proof.
  induction bs as [|[[ms path] offset] bs IH]; intros d H.
  - constructor.
  - rewrite commit_all_cons; simpl. constructor.
    + by apply Save_fault_free.
    + apply IH. by apply Save_fault_free_after.
Qed.

Lemma commit_all_keeps_rows u bs : forall d,
  rows_with u (sql.committed d) <> [] ->
  rows_with u (sql.committed (commit_all bs d).2) = rows_with u (sql.committed d).
Proof.
  induction bs as [|[[ms path] offset] bs IH]; intros d Hu; [reflexivity|].
  rewrite commit_all_cons; simpl.
  pose proof (Save_keeps_rows u ms path offset d Hu) as E.
  rewrite IH; [exact E | by rewrite E].
Qed.

Lemma commit_all_conflict_messages u bs : forall d,
  u <> "" -> rows_with u (sql.committed d) <> [] ->
  Forall (fun b : batch => Forall (fun m => model.UUID m = u) b.1.1) bs ->
  sql.messages (sql.committed (commit_all bs d).2) = sql.messages (sql.committed d).
Proof.
  induction bs as [|[[ms path] offset] bs IH]; intros d Hne Hu Hall; [reflexivity|].
  inversion Hall as [|? ? Hb Hbs]; subst. simpl in Hb.
  rewrite commit_all_cons; simpl.
  pose proof (Save_conflict_messages u ms path offset d Hne Hu Hb) as E.
  pose proof (Save_keeps_rows u ms path offset d Hu) as E'.
  rewrite IH; auto. by rewrite E'.
Qed.

(** *** The identifiers stay unique *)

Lemma rows_with_not_exists u t :
  existsb (sql.has_uuid u) (sql.messages t) = false -> rows_with u t = [].
Proof.
  unfold rows_with. induction (sql.messages t) as [|r l IH]; simpl; [reflexivity|].
  destruct (sql.has_uuid u r); simpl; [discriminate | exact IH].
Qed.

Lemma insert_unique r t :
  unique_uuids t -> unique_uuids (sql.insert_message r t).
Proof.
  intros H u. unfold sql.insert_message.
  destruct (sql.uuid r) as [v|] eqn:Ev.
  - destruct (existsb (sql.has_uuid v) (sql.messages t)) eqn:Ex; [apply H|].
    unfold rows_with; simpl. rewrite List.filter_app, length_app; simpl.
    destruct (sql.has_uuid u r) eqn:Hr; simpl.
    + apply has_uuid_inv in Hr. rewrite Hr in Ev. injection Ev as <-.
      apply rows_with_not_exists in Ex. unfold rows_with in Ex. rewrite Ex.
      simpl. lia.
    + specialize (H u). unfold rows_with in H. lia.
  - unfold rows_with; simpl. rewrite List.filter_app, length_app; simpl.
    unfold sql.has_uuid at 2. rewrite Ev. simpl.
    specialize (H u). unfold rows_with in H. lia.
Qed.

Lemma saved_unique ms path offset t :
  unique_uuids t -> unique_uuids (saved ms path offset t).
Proof.
  intros H. unfold saved.
  assert (U : unique_uuids
    (fold_left (fun t m => sql.insert_message (store.row_of m) t) ms t)).
  { revert t H. induction ms as [|m ms IH]; intros t H; simpl; [exact H|].
    apply IH. by apply insert_unique. }
  intros u. exact (U u).
Qed.

(** Whatever is committed, and whether the commits succeed or not, a
    store that starts without rows never holds an identifier twice. *)
Lemma commit_all_unique bs : forall d,
  unique_uuids (sql.committed d) ->
  unique_uuids (sql.committed (commit_all bs d).2).
Proof.
  induction bs as [|[[ms path] offset] bs IH]; intros d H; [exact H|].
  rewrite commit_all_cons; simpl. apply IH.
  destruct (store.SaveHarvestedMessages ms path offset d) as [e d'] eqn:E.
  simpl. apply Save_outcome in E as (_ & _ & _ & [(_ & ->) | (_ & ->)]);
    [by apply saved_unique | exact H].
Qed.

Lemma empty_tables_unique : unique_uuids empty_tables.
Proof. intros u. simpl. lia. Qed.

(* ----------------------------------------------------------------- *)
(** *** Atomic commit *)

(** C1. [SaveHarvestedMessages(turns, filePath, newOffset)] is atomic:
    for every batch of turns, every path and offset, every state of the
    store and every pattern of failures of the database, either the call
    returns no error and the committed tables are the old ones with
    every turn inserted and the offset of the file set, or it returns
    an error and the committed tables, messages and offsets alike, are
    the ones from before the call. *)
Theorem SaveHarvestedMessages_atomic
    (messages : list model.Message) (transcriptPath : string) (newOffset : Z)
    (d : sql.DB) :
  let r := store.SaveHarvestedMessages messages transcriptPath newOffset d in
  (r.1 = None /\
   sql.committed r.2 = saved messages transcriptPath newOffset (sql.committed d))
  \/ (r.1 <> None /\ sql.committed r.2 = sql.committed d).
Proof.
  intros r. subst r.
  destruct (store.SaveHarvestedMessages messages transcriptPath newOffset d)
    as [e d'] eqn:E.
  apply Save_outcome in E as (_ & _ & _ & H). exact H.
Qed.

(** Both outcomes occur.  With no failure the two turns and the offset
    are committed together. *)
Example save_commits_all :
  let r := store.SaveHarvestedMessages [msg_m1; msg_m2] "/path.jsonl" 100
             (handle empty_tables no_faults) in
  r.1 = None
  /\ sql.messages (sql.committed r.2) = [store.row_of msg_m1; store.row_of msg_m2]
  /\ sql.transcript_offsets (sql.committed r.2) !! "/path.jsonl" = Some 100%Z.
Proof. vm_compute. auto. Qed.

(** A failure of the last statement, after both insertions were done,
    leaves neither the turns nor the offset behind. *)
Example save_rolls_back :
  let r := store.SaveHarvestedMessages [msg_m1; msg_m2] "/path.jsonl" 100
             (handle empty_tables (fault_at 4)) in
  r.1 = Some store.ErrUpdateOffset /\ sql.committed r.2 = empty_tables.
Proof. vm_compute. auto. Qed.

(** So does a failure of the commit itself. *)
Example save_commit_fails :
  let r := store.SaveHarvestedMessages [msg_m1; msg_m2] "/path.jsonl" 100
             (handle empty_tables (fault_at 5)) in
  r.1 = Some store.ErrCommit /\ sql.committed r.2 = empty_tables.
Proof. vm_compute. auto. Qed.

(* ----------------------------------------------------------------- *)
(** *** Duplicate identifiers *)

(** C3. Insertion is a no-op on identifier conflict, never an update.
    Let the turn [m] have a non-empty identifier of which the store
    holds exactly the row [r].  Then inserting [m] changes nothing; after
    any sequence of commits, whatever their batches, [r] is still the
    one row of that identifier; when every turn of every batch carries
    that identifier the messages table as a whole is as before; and
    when the database does not fail no commit returns an error. *)
Theorem duplicate_identifier_is_ignored
    (m : model.Message) (r : sql.Row) (bs : list batch) (d : sql.DB) :
  model.UUID m <> "" ->
  rows_with (model.UUID m) (sql.committed d) = [r] ->
  sql.insert_message (store.row_of m) (sql.committed d) = sql.committed d
  /\ rows_with (model.UUID m) (sql.committed (commit_all bs d).2) = [r]
  /\ (Forall (fun b : batch =>
                Forall (fun m' => model.UUID m' = model.UUID m) b.1.1) bs ->
      sql.messages (sql.committed (commit_all bs d).2)
      = sql.messages (sql.committed d))
  /\ (fault_free d -> Forall (fun e => e = None) (commit_all bs d).1).
Proof.
  intros Hne Hr.
  assert (Hu : rows_with (model.UUID m) (sql.committed d) <> [])
    by (rewrite Hr; discriminate).
  repeat split.
  - by apply insert_conflict.
  - rewrite commit_all_keeps_rows; auto.
  - intros Hall. by apply (commit_all_conflict_messages (model.UUID m)).
  - apply commit_all_fault_free.
Qed.

Lemma duplicate_identifier_is_ignored_witness :
  let bs : list batch :=
    [([msg_dup], "/path.jsonl", 100%Z); ([msg_dup'; msg_dup], "/path.jsonl", 150%Z)] in
  model.UUID msg_dup <> ""
  /\ rows_with (model.UUID msg_dup) (sql.committed store_with_dup)
     = [store.row_of msg_dup]
  /\ sql.insert_message (store.row_of msg_dup) (sql.committed store_with_dup)
     = sql.committed store_with_dup
  /\ rows_with (model.UUID msg_dup) (sql.committed (commit_all bs store_with_dup).2)
     = [store.row_of msg_dup]
  /\ sql.messages (sql.committed (commit_all bs store_with_dup).2)
     = [store.row_of msg_dup]
  /\ Forall (fun e => e = None) (commit_all bs store_with_dup).1.
Proof.
  intros bs.
  assert (H1 : model.UUID msg_dup <> "") by discriminate.
  assert (H2 : rows_with (model.UUID msg_dup) (sql.committed store_with_dup)
               = [store.row_of msg_dup]) by reflexivity.
  destruct (duplicate_identifier_is_ignored msg_dup (store.row_of msg_dup) bs
              store_with_dup H1 H2) as (Ha & Hb & Hc & Hd).
  split; [exact H1|]. split; [exact H2|]. split; [exact Ha|].
  split; [exact Hb|]. split.
  - apply Hc. repeat constructor.
  - apply Hd. intros n _. reflexivity.
Defined.

(* ----------------------------------------------------------------- *)
(** *** Turns without identifier *)

Lemma Save_ok_committed ms path offset d :
  (store.SaveHarvestedMessages ms path offset d).1 = None ->
  sql.committed (store.SaveHarvestedMessages ms path offset d).2
  = saved ms path offset (sql.committed d).
Proof.
  destruct (store.SaveHarvestedMessages ms path offset d) as [e d'] eqn:E.
  simpl. intros ->.
  apply Save_outcome in E as (_ & _ & _ & [(_ & ->) | (Hne & _)]);
    [reflexivity | congruence].
Qed.

Lemma row_of_empty_uuid m : model.UUID m = "" -> sql.uuid (store.row_of m) = None.
Proof. intros H. simpl. rewrite H. reflexivity. Qed.

Lemma insert_without_uuid r t :
  sql.uuid r = None ->
  sql.messages (sql.insert_message r t) = (sql.messages t ++ [r])%list.
Proof. intros H. unfold sql.insert_message. rewrite H. reflexivity. Qed.

(** C10. Duplicate suppression does not reach turns whose identifier is
    empty: [SaveHarvestedMessages] stores the empty identifier as NULL,
    NULL never conflicts, and committing such a turn twice, the database
    not failing, leaves two more rows in the messages table. *)
Theorem empty_identifier_is_stored_twice
    (m : model.Message) (path : string) (o1 o2 : Z) (d : sql.DB) :
  model.UUID m = "" ->
  fault_free d ->
  let r1 := store.SaveHarvestedMessages [m] path o1 d in
  let r2 := store.SaveHarvestedMessages [m] path o2 r1.2 in
  sql.uuid (store.row_of m) = None
  /\ r1.1 = None /\ r2.1 = None
  /\ sql.messages (sql.committed r2.2)
     = (sql.messages (sql.committed d) ++ [store.row_of m; store.row_of m])%list
  /\ length (rows_without_uuid (sql.committed r2.2))
     = 2 + length (rows_without_uuid (sql.committed d)).
Proof.
  intros Hm Hd r1 r2.
  pose proof (row_of_empty_uuid m Hm) as Hu.
  pose proof (Save_fault_free [m] path o1 d Hd) as E1.
  pose proof (Save_fault_free_after [m] path o1 d Hd) as Hd1.
  pose proof (Save_fault_free [m] path o2 r1.2 Hd1) as E2.
  assert (M2 : sql.messages (sql.committed r2.2)
     = (sql.messages (sql.committed d) ++ [store.row_of m; store.row_of m])%list).
  { subst r2. rewrite (Save_ok_committed _ _ _ _ E2).
    subst r1. rewrite (Save_ok_committed _ _ _ _ E1).
    rewrite saved_messages. simpl.
    rewrite insert_without_uuid by exact Hu.
    rewrite saved_messages. simpl.
    rewrite insert_without_uuid by exact Hu.
    rewrite <- app_assoc. reflexivity. }
  repeat split; auto.
  unfold rows_without_uuid. rewrite M2, List.filter_app, length_app.
  cbn [List.filter]. rewrite Hu. simpl. lia.
Qed.

Lemma empty_identifier_is_stored_twice_witness :
  let d := handle empty_tables no_faults in
  let r1 := store.SaveHarvestedMessages [msg_anon] "/path.jsonl" 50 d in
  let r2 := store.SaveHarvestedMessages [msg_anon] "/path.jsonl" 100 r1.2 in
  model.UUID msg_anon = "" /\ fault_free d
  /\ sql.messages (sql.committed r2.2)
     = [store.row_of msg_anon; store.row_of msg_anon].
Proof.
  intros d r1 r2.
  assert (H1 : model.UUID msg_anon = "") by reflexivity.
  assert (H2 : fault_free d) by (intros n _; reflexivity).
  split; [exact H1|]. split; [exact H2|].
  exact (proj1 (proj2 (proj2 (proj2
    (empty_identifier_is_stored_twice msg_anon "/path.jsonl" 50 100 d H1 H2))))).
Defined.

(* ----------------------------------------------------------------- *)
(** *** The offset store *)

Lemma GetOffset_result path d :
  sql.faults d (sql.ncalls d) = false ->
  (store.GetOffset path d).1
  = (default 0%Z (sql.transcript_offsets (sql.committed d) !! path), None).
Proof.
  intros H. unfold store.GetOffset, sql.QueryRow, sql.call. simpl.
  rewrite H. unfold sql.select_offset; simpl.
  destruct (sql.transcript_offsets (sql.committed d) !! path); reflexivity.
Qed.

Lemma GetOffset_committed path d :
  sql.committed (store.GetOffset path d).2 = sql.committed d.
Proof.
  unfold store.GetOffset, sql.QueryRow, sql.call. simpl.
  destruct (sql.faults d (sql.ncalls d)); simpl; [reflexivity|].
  destruct (sql.select_offset path (sql.committed d)); reflexivity.
Qed.

(** C8. The contract of the offset store.  [GetOffset] answers [0] and
    no error for a path that has no record; and after any sequence of
    commits that all succeeded, the last of them for [path], it answers
    the offset given to that last commit, also when an earlier commit
    had stored a larger one.  (The query itself is taken not to fail.) *)
Theorem offset_store_contract
    (path : string) (d : sql.DB) (bs : list batch)
    (ms : list model.Message) (offset : Z) :
  (sql.transcript_offsets (sql.committed d) !! path = None ->
   sql.faults d (sql.ncalls d) = false ->
   (store.GetOffset path d).1 = (0%Z, None))
  /\ (let r := commit_all (bs ++ [(ms, path, offset)])%list d in
      Forall (fun e => e = None) r.1 ->
      sql.faults r.2 (sql.ncalls r.2) = false ->
      (store.GetOffset path r.2).1 = (offset, None)).
Proof.
  split.
  - intros Hnone Hq. rewrite GetOffset_result by exact Hq. by rewrite Hnone.
  - intros r Hall Hq. rewrite GetOffset_result by exact Hq.
    subst r. rewrite commit_all_app in Hall |- *. simpl in Hall |- *.
    apply Forall_app in Hall as [_ Hlast].
    set (d1 := (commit_all bs d).2) in *.
    destruct (store.SaveHarvestedMessages ms path offset d1) as [e d2] eqn:E.
    simpl in Hlast |- *. inversion Hlast as [|? ? He _]; subst.
    apply Save_outcome in E as (_ & _ & _ & [(_ & ->) | (Hne & _)]);
      [|congruence].
    rewrite saved_offsets, lookup_insert_eq. reflexivity.
Qed.

(** The test [TestGetOffset_WhenPathNotFound_ShouldReturnZero], and an
    offset that goes down from 200 to 100. *)
Lemma offset_store_contract_witness :
  let d := handle empty_tables no_faults in
  let bs : list batch := [([msg_m1], "/path.jsonl", 200%Z)] in
  let r := commit_all (bs ++ [([msg_m2], "/path.jsonl", 100%Z)])%list d in
  sql.transcript_offsets (sql.committed d) !! "/nonexistent.jsonl" = None
  /\ (store.GetOffset "/nonexistent.jsonl" d).1 = (0%Z, None)
  /\ Forall (fun e => e = None) r.1
  /\ (store.GetOffset "/path.jsonl" r.2).1 = (100%Z, None).
Proof.
  intros d bs r.
  assert (H1 : sql.transcript_offsets (sql.committed d) !! "/nonexistent.jsonl"
               = None) by reflexivity.
  assert (H2 : Forall (fun e => e = None) r.1) by (repeat constructor).
  split; [exact H1|]. split; [|split; [exact H2|]].
  - exact (proj1 (offset_store_contract "/nonexistent.jsonl" d bs [msg_m2] 100)
             H1 eq_refl).
  - exact (proj2 (offset_store_contract "/path.jsonl" d bs [msg_m2] 100)
             H2 eq_refl).
Defined.

(* ================================================================= *)
(** ** The scanner *)

Lemma len_nonneg s : (0 <= len s)%Z.
Proof. unfold len. lia. Qed.

Lemma len_app s t : len (s ++ t) = (len s + len t)%Z.
Proof.
  unfold len. rewrite <- Nat2Z.inj_add. f_equal.
  induction s as [|c s IH]; simpl; [reflexivity | by rewrite IH].
Qed.

Lemma len_snoc s c : len (s ++ String c EmptyString) = (len s + 1)%Z.
Proof. rewrite len_app. reflexivity. Qed.

Lemma len_zero s : len s = 0%Z -> s = EmptyString.
Proof. destruct s; [reflexivity | unfold len; simpl; lia]. Qed.

Lemma sdrop_length n : forall s,
  String.length (sdrop n s) = String.length s - n.
Proof.
  induction n as [|n IH]; intros [|c s]; simpl; auto; lia.
Qed.

Lemma sdrop_all n s : String.length s <= n -> sdrop n s = EmptyString.
Proof.
  intros H. pose proof (sdrop_length n s) as L.
  destruct (sdrop n s); [reflexivity | simpl in L; lia].
Qed.

Lemma len_from_offset data off :
  len (from_offset data off) = Z.max 0 (len data - Z.max 0 off).
Proof.
  unfold from_offset, len. rewrite sdrop_length. lia.
Qed.

Section Scanner.

Variable limit : Z.
Hypothesis limit_pos : (0 < limit)%Z.

(** A scan that ends without error has read everything. *)
Lemma scan_ok_rest : forall s cur toks rest,
  bufio.scan limit cur s = (toks, None, rest) -> rest = EmptyString.
Proof.
  induction s as [|c r IH]; intros cur toks rest; simpl.
  - intros [= _ <-]. reflexivity.
  - destruct (code c =? 10)%N.
    + destruct (bufio.scan limit EmptyString r) as [[toks' e'] rest'] eqn:E.
      intros [= _ -> <-]. eapply IH; eauto.
    + destruct (limit <=? len cur + 1)%Z; [discriminate|]. apply IH.
Qed.

Lemma scan_rest_le : forall s cur,
  (len (bufio.scan limit cur s).2 <= len s)%Z.
Proof.
  induction s as [|c r IH]; intros cur; simpl.
  - unfold len; simpl; lia.
  - assert (L : len (String c r) = (len r + 1)%Z) by (unfold len; simpl; lia).
    destruct (code c =? 10)%N.
    + specialize (IH EmptyString).
      destruct (bufio.scan limit EmptyString r) as [[toks' e'] rest']; simpl in *. lia.
    + destruct (limit <=? len cur + 1)%Z; simpl; [lia|].
      specialize (IH (cur ++ String c EmptyString)). lia.
Qed.

(** It has delivered every line of the text, in order, without the
    carriage return a line may end in. *)
Lemma scan_ok_tokens : forall s cur,
  (bufio.scan limit cur s).1.2 = None ->
  (bufio.scan limit cur s).1.1 = bufio.dropCR <$> text_lines cur s.
Proof.
  induction s as [|c r IH]; intros cur; simpl.
  - destruct cur; reflexivity.
  - destruct (code c =? 10)%N.
    + specialize (IH EmptyString).
      destruct (bufio.scan limit EmptyString r) as [[toks' e'] rest']; simpl in *.
      intros He. by rewrite IH.
    + destruct (limit <=? len cur + 1)%Z; simpl; [discriminate|]. apply IH.
Qed.

Lemma split_lines_head cur s :
  exists l ls, split_lines cur s = l :: ls /\ (len cur <= len l)%Z.
Proof.
  revert cur. induction s as [|c r IH]; intros cur; simpl.
  - exists cur, []. split; [reflexivity | lia].
  - destruct (code c =? 10)%N.
    + exists cur, (split_lines EmptyString r). split; [reflexivity | lia].
    + destruct (IH (cur ++ String c EmptyString)) as (l & ls & E & L).
      exists l, ls. split; [exact E|]. rewrite len_snoc in L. lia.
Qed.

(** The scan stops with [ErrTooLong] exactly when a line is too long. *)
Lemma scan_error_iff : forall s cur,
  (len cur < limit)%Z ->
  ((bufio.scan limit cur s).1.2 = Some bufio.ErrTooLong
   <-> Exists (fun l => (limit <= len l)%Z) (split_lines cur s)).
Proof.
  induction s as [|c r IH]; intros cur Hcur; simpl.
  - split; [discriminate|].
    intros H. apply Exists_cons in H as [H|H]; [lia | by apply Exists_nil in H].
  - destruct (code c =? 10)%N.
    + specialize (IH EmptyString).
      destruct (bufio.scan limit EmptyString r) as [[toks' e'] rest']; simpl in *.
      rewrite Exists_cons. rewrite IH by (unfold len; simpl; lia).
      split; [auto | intros [H|H]; [lia | exact H]].
    + destruct (limit <=? len cur + 1)%Z eqn:E; simpl.
      * apply Z.leb_le in E. split; [intros _ | reflexivity].
        destruct (split_lines_head (cur ++ String c EmptyString) r) as (l & ls & -> & L).
        apply Exists_cons_hd. rewrite len_snoc in L. lia.
      * apply Z.leb_gt in E. apply IH. rewrite len_snoc. lia.
Qed.

End Scanner.

Lemma maxLine_value : transcript.maxLine = 10485760%Z.
Proof. reflexivity. Qed.

(* ================================================================= *)
(** ** Harvest *)

(** [Harvest] on a file that is not there. *)
Lemma Harvest_missing s path off fs clk :
  fs !! path = None ->
  transcript.Harvest s path off fs clk
  = ((None, Some (transcript.ErrOpen path)), clk).
Proof. intros H. unfold transcript.Harvest, os.Open. rewrite H. reflexivity. Qed.

(** [Harvest] on a file that is there: the scan of the bytes from the
    offset on decides between an error and a result, whose offset is the
    position the reader has reached. *)
Lemma Harvest_present s path off fs clk data :
  fs !! path = Some data ->
  transcript.Harvest s path off fs clk =
    match bufio.scan transcript.maxLine EmptyString (from_offset data off) with
    | (lines, Some e, _) => ((None, Some (transcript.ErrScan e)), tick clk)
    | (lines, None, _) =>
        ((Some {| model.Messages :=
                    fold_left (transcript.Harvest_step s (harvest_now clk)) lines [];
                  model.NewOffset := Z.max 0 off + len (from_offset data off) |},
          None), tick clk)
    end.
Proof.
  intros H. unfold transcript.Harvest, os.Open. rewrite H. simpl.
  assert (U : os.unread
                (if (0 <? off)%Z then {| os.data := data; os.pos := off |}
                 else {| os.data := data; os.pos := 0 |})
              = from_offset data off).
  { unfold os.unread, from_offset. destruct (0 <? off)%Z eqn:E; simpl; [reflexivity|].
    apply Z.ltb_ge in E. replace (Z.to_nat off) with 0 by lia. reflexivity. }
  destruct (0 <? off)%Z eqn:E.
  - unfold os.Seek. simpl.
    assert (N : (off <? 0)%Z = false) by (apply Z.ltb_lt in E; lia).
    rewrite N. simpl. unfold bufio.ScanAll. rewrite U.
    destruct (bufio.scan transcript.maxLine EmptyString (from_offset data off))
      as [[lines [e|]] rest] eqn:Sc; [reflexivity|].
    apply scan_ok_rest in Sc. subst rest. simpl.
    apply Z.ltb_lt in E. pose proof (len_nonneg (from_offset data off)).
    unfold os.Seek; simpl. change (len EmptyString) with 0%Z.
    replace (off + (len (from_offset data off) - 0) + 0)%Z
      with (Z.max 0 off + len (from_offset data off))%Z by lia.
    replace (Z.max 0 off + len (from_offset data off) <? 0)%Z
      with false by (symmetry; apply Z.ltb_ge; lia).
    reflexivity.
  - unfold bufio.ScanAll. rewrite U.
    destruct (bufio.scan transcript.maxLine EmptyString (from_offset data off))
      as [[lines [e|]] rest] eqn:Sc; [reflexivity|].
    apply scan_ok_rest in Sc. subst rest. simpl.
    apply Z.ltb_ge in E. pose proof (len_nonneg (from_offset data off)).
    unfold os.Seek; simpl. change (len EmptyString) with 0%Z.
    replace (0 + (len (from_offset data off) - 0) + 0)%Z
      with (Z.max 0 off + len (from_offset data off))%Z by lia.
    replace (Z.max 0 off + len (from_offset data off) <? 0)%Z
      with false by (symmetry; apply Z.ltb_ge; lia).
    reflexivity.
Qed.

(** [Harvest] returns a result or an error, never both and never
    neither. *)
Lemma Harvest_result_xor_error s path off fs clk :
  let r := (transcript.Harvest s path off fs clk).1 in
  (is_Some r.1 /\ r.2 = None) \/ (r.1 = None /\ is_Some r.2).
Proof.
  intros r. subst r. destruct (fs !! path) as [data|] eqn:F.
  - rewrite (Harvest_present _ _ _ _ _ _ F).
    destruct (bufio.scan _ _ _) as [[lines [e|]] rest]; simpl; eauto.
  - rewrite (Harvest_missing _ _ _ _ _ F). simpl. eauto.
Qed.

(** The scan from the offset a successful harvest returned finds
    nothing left. *)
Lemma from_new_offset_empty data off :
  from_offset data (Z.max 0 off + len (from_offset data off)) = EmptyString.
Proof.
  unfold from_offset at 1. apply sdrop_all.
  rewrite len_from_offset. unfold len. lia.
Qed.

(** C2. [Harvest] is idempotent through the offset it returns: when
    [Harvest(s, f, o)] succeeds and returns [newOffset], and the file is
    not touched, [Harvest(s, f, newOffset)] succeeds as well, whatever
    the time, and returns zero turns (and the same offset again). *)
Theorem Harvest_idempotent
    (s f : string) (o : Z) (fs : os.FS) (clk clk' : time.Clock)
    (r : model.HarvestResult) :
  (transcript.Harvest s f o fs clk).1 = (Some r, None) ->
  (transcript.Harvest s f (model.NewOffset r) fs clk').1
  = (Some {| model.Messages := []; model.NewOffset := model.NewOffset r |}, None).
Proof.
  destruct (fs !! f) as [data|] eqn:F.
  2:{ rewrite (Harvest_missing _ _ _ _ _ F). discriminate. }
  rewrite !(Harvest_present _ _ _ _ _ _ F).
  destruct (bufio.scan _ _ (from_offset data o)) as [[lines [e|]] rest];
    simpl; [discriminate|].
  intros [= <-]. simpl.
  rewrite from_new_offset_empty. simpl.
  pose proof (len_nonneg (from_offset data o)).
  change (len EmptyString) with 0%Z.
  replace (Z.max 0 (Z.max 0 o + len (from_offset data o)) + 0)%Z
    with (Z.max 0 o + len (from_offset data o))%Z by lia.
  reflexivity.
Qed.

(** The test [TestHarvest_WhenResumedFromOffset_ShouldOnlyReadNewLines]
    on one line: 75 bytes are read, and nothing is found after them. *)
Lemma Harvest_idempotent_witness :
  let r := {| model.Messages := [turn_u1]; model.NewOffset := 75 |} in
  (transcript.Harvest "sess-1" "/t.jsonl" 0 fs_u1 test_clock).1 = (Some r, None)
  /\ (transcript.Harvest "sess-1" "/t.jsonl" 75 fs_u1 (tick test_clock)).1
     = (Some {| model.Messages := []; model.NewOffset := 75 |}, None).
Proof.
  intros r.
  assert (H : (transcript.Harvest "sess-1" "/t.jsonl" 0 fs_u1 test_clock).1
              = (Some r, None)) by (vm_compute; reflexivity).
  split; [exact H|].
  exact (Harvest_idempotent "sess-1" "/t.jsonl" 0 fs_u1 test_clock
           (tick test_clock) r H).
Defined.

(* ----------------------------------------------------------------- *)
(** *** Errors *)

Lemma Seek_start_positive f off :
  (0 < off)%Z -> is_Some (os.Seek f off io.SeekStart).
Proof.
  intros H. unfold os.Seek.
  replace (off <? 0)%Z with false by (symmetry; apply Z.ltb_ge; lia). eauto.
Qed.

Lemma scan_maxLine_error_iff data off :
  is_Some (bufio.scan transcript.maxLine EmptyString (from_offset data off)).1.2
  <-> line_too_long transcript.maxLine (from_offset data off).
Proof.
  unfold line_too_long.
  rewrite <- (scan_error_iff transcript.maxLine) with (cur := EmptyString)
    by (rewrite maxLine_value; unfold len; simpl; lia).
  split.
  - intros [e He]. rewrite He. by destruct e.
  - intros ->. eauto.
Qed.

(** On a file that is there, the one error is that of the scanner. *)
Lemma Harvest_present_error s path off fs clk data :
  fs !! path = Some data ->
  let r := (transcript.Harvest s path off fs clk).1 in
  (is_Some r.2 <-> line_too_long transcript.maxLine (from_offset data off))
  /\ (is_Some r.2 -> r.1 = None)
  /\ (r.2 = None -> is_Some r.1).
Proof.
  intros F r. subst r. rewrite (Harvest_present _ _ _ _ _ _ F).
  pose proof (scan_maxLine_error_iff data off) as I.
  destruct (bufio.scan transcript.maxLine EmptyString (from_offset data off))
    as [[lines [e|]] rest]; simpl in *.
  - split; [|split; [reflexivity | discriminate]].
    split; [intros _; apply I; eauto | eauto].
  - split; [|split; [intros [? [=]] | eauto]].
    split; [intros [? [=]] | intros Hl; apply I in Hl; destruct Hl as [? [=]]].
Qed.

(** C6. [Harvest] returns an error if and only if the file cannot be
    opened, or the seek fails, or one line is too long for the buffer
    of the scanner (a line of [maxLine] bytes or more: with its newline,
    or with the end of the file still to be read, it exceeds the cap).
    Nothing else makes it fail: whatever the lines contain (text that
    does not parse, records without payload or with another role, empty
    lines, timestamps that do not parse), a file that is there and has
    no such line yields a result.  And with an error comes no result,
    so no partial list of turns. *)
Theorem Harvest_error_iff
    (s path : string) (off : Z) (fs : os.FS) (clk : time.Clock) :
  let r := (transcript.Harvest s path off fs clk).1 in
  (is_Some r.2 <->
     os.Open fs path = None
     \/ (exists f, os.Open fs path = Some f /\ (0 < off)%Z
                   /\ os.Seek f off io.SeekStart = None)
     \/ (exists data, fs !! path = Some data
                      /\ line_too_long transcript.maxLine (from_offset data off)))
  /\ (is_Some r.2 -> r.1 = None)
  /\ (r.2 = None -> is_Some r.1).
Proof.
  intros r. subst r. destruct (fs !! path) as [data|] eqn:F.
  - destruct (Harvest_present_error s path off fs clk data F) as (I & N & R).
    cbv zeta in I, N, R. split; [|split; assumption].
    rewrite I. split.
    + intros Hl. right; right. eauto.
    + intros [H | [(f & Hf & Hpos & Hs) | (data' & [= <-] & Hl)]].
      * unfold os.Open in H. rewrite F in H. discriminate.
      * destruct (Seek_start_positive f off Hpos) as [x Hx]. congruence.
      * exact Hl.
  - rewrite (Harvest_missing _ _ _ _ _ F). simpl.
    split; [|split; [reflexivity | discriminate]].
    split; [intros _ | eauto].
    left. unfold os.Open. rewrite F. reflexivity.
Qed.

Lemma sapp_nil_r (s : string) : s ++ EmptyString = s.
Proof.
  induction s as [|c s IH]; [reflexivity|].
  change (String c (s ++ EmptyString) = String c s). by rewrite IH.
Qed.

Lemma sapp_snoc (s : string) c t : (s ++ String c EmptyString) ++ t = s ++ String c t.
Proof.
  induction s as [|a s IH]; [reflexivity|].
  change (String a ((s ++ String c EmptyString) ++ t) = String a (s ++ String c t)).
  by rewrite IH.
Qed.

Lemma split_lines_repeat n : forall cur,
  split_lines cur (string_of_list_ascii (repeat (chr 97) n))
  = [cur ++ string_of_list_ascii (repeat (chr 97) n)].
Proof.
  induction n as [|n IH]; intros cur; cbn [repeat string_of_list_ascii split_lines].
  - by rewrite sapp_nil_r.
  - change (code (chr 97) =? 10)%N with false. cbv iota.
    by rewrite IH, sapp_snoc.
Qed.

Lemma length_repeat_string c k :
  String.length (string_of_list_ascii (repeat c k)) = k.
Proof. induction k as [|k IH]; simpl; [reflexivity | by rewrite IH]. Qed.

Lemma len_line_of n : (0 <= n)%Z -> len (line_of n) = n.
Proof. intros H. unfold line_of, len. rewrite length_repeat_string. lia. Qed.

Lemma line_of_too_long n :
  (0 <= n)%Z ->
  line_too_long transcript.maxLine (line_of n) <-> (transcript.maxLine <= n)%Z.
Proof.
  intros H. unfold line_too_long, line_of. rewrite split_lines_repeat.
  change (EmptyString ++ ?s) with s. fold (line_of n).
  rewrite Exists_cons, Exists_nil, len_line_of by exact H. tauto.
Qed.

Lemma Harvest_line_of n clk :
  (0 <= n)%Z ->
  is_Some (transcript.Harvest "s" "/t" 0 {[ "/t" := line_of n ]} clk).1.2
  <-> (transcript.maxLine <= n)%Z.
Proof.
  intros H. rewrite <- (line_of_too_long n H).
  exact (proj1 (Harvest_present_error "s" "/t" 0 {[ "/t" := line_of n ]} clk
                  (line_of n) (lookup_singleton_eq _ _))).
Qed.

(** The cap sits between these two files: a single line of
    [maxLine - 1] bytes is read, one of [maxLine] bytes is not. *)
Example Harvest_line_at_cap clk :
  is_Some (transcript.Harvest "s" "/t" 0
             {[ "/t" := line_of transcript.maxLine ]} clk).1.2
  /\ ~ is_Some (transcript.Harvest "s" "/t" 0
                  {[ "/t" := line_of (transcript.maxLine - 1) ]} clk).1.2.
Proof.
  assert (P : (0 <= transcript.maxLine - 1)%Z) by (rewrite maxLine_value; lia).
  split.
  - apply (Harvest_line_of transcript.maxLine clk); lia.
  - intros H. apply (Harvest_line_of (transcript.maxLine - 1) clk P) in H. lia.
Qed.

(* ----------------------------------------------------------------- *)
(** *** Lines and turns *)

Lemma Unmarshal_empty : transcript.Unmarshal_transcriptLine EmptyString = None.
Proof. reflexivity. Qed.

Lemma Parse_empty : time.Parse EmptyString = None.
Proof. reflexivity. Qed.

Lemma parseTimestamp_default raw fallback :
  transcript.parseTimestamp raw fallback = default fallback (time.Parse raw).
Proof.
  unfold transcript.parseTimestamp.
  destruct (String.eqb raw "") eqn:E.
  - apply String.eqb_eq in E. subst. reflexivity.
  - destruct (time.Parse raw); reflexivity.
Qed.

(** One turn of the loop adds the turn of the line, or nothing. *)
Lemma Harvest_step_line s now ms line :
  transcript.Harvest_step s now ms line
  = (ms ++ option_list (harvest_line s now line))%list.
Proof.
  unfold transcript.Harvest_step, harvest_line.
  destruct (len line =? 0)%Z eqn:E.
  - apply Z.eqb_eq in E. apply len_zero in E. subst.
    rewrite Unmarshal_empty. simpl. by rewrite app_nil_r.
  - destruct (transcript.Unmarshal_transcriptLine line) as [tl|]; simpl;
      [|by rewrite app_nil_r].
    destruct (transcript.Message tl) as [p|]; simpl; [|by rewrite app_nil_r].
    unfold is_turn_role.
    destruct (String.eqb (transcript.Role p) "user"),
             (String.eqb (transcript.Role p) "assistant"); simpl;
      try reflexivity; by rewrite app_nil_r.
Qed.

(** The loop keeps the turns in the order of the lines. *)
Lemma Harvest_loop s now lines : forall ms,
  fold_left (transcript.Harvest_step s now) lines ms
  = (ms ++ omap (harvest_line s now) lines)%list.
Proof.
  induction lines as [|l lines IH]; intros ms; simpl.
  - by rewrite app_nil_r.
  - rewrite IH, Harvest_step_line, <- app_assoc.
    destruct (harvest_line s now l); reflexivity.
Qed.

Lemma Harvest_messages s path off fs clk data res :
  fs !! path = Some data ->
  (transcript.Harvest s path off fs clk).1.1 = Some res ->
  model.Messages res
  = omap (harvest_line s (harvest_now clk)) (scanned_lines data off).
Proof.
  intros F. rewrite (Harvest_present _ _ _ _ _ _ F). unfold scanned_lines.
  destruct (bufio.scan _ _ _) as [[lines [e|]] rest]; simpl; [discriminate|].
  intros [= <-]. simpl. by rewrite Harvest_loop.
Qed.

(** [Harvest] as a function of the file: on a file that is there and
    has no line too long, the turns are those of the lines of the text
    after the offset, in their order, and the new offset is the end of
    what was read. *)
Lemma Harvest_ok_spec s path off fs clk data :
  fs !! path = Some data ->
  ~ line_too_long transcript.maxLine (from_offset data off) ->
  transcript.Harvest s path off fs clk
  = ((Some {| model.Messages :=
                omap (harvest_line s (harvest_now clk))
                     (bufio.dropCR <$> text_lines EmptyString (from_offset data off));
              model.NewOffset := Z.max 0 off + len (from_offset data off) |},
      None), tick clk).
Proof.
  intros F Hl. rewrite (Harvest_present _ _ _ _ _ _ F).
  pose proof (scan_maxLine_error_iff data off) as I.
  pose proof (scan_ok_tokens transcript.maxLine (from_offset data off) EmptyString) as T.
  destruct (bufio.scan transcript.maxLine EmptyString (from_offset data off))
    as [[lines [e|]] rest]; simpl in *.
  - exfalso. apply Hl, I. eauto.
  - rewrite Harvest_loop, T by reflexivity. reflexivity.
Qed.

(** C9. The timestamps of a harvest batch.  [Harvest] reads the clock
    once; the instant it got, in UTC, is the fallback of every turn of
    the batch.  Every turn comes from a line of the file whose record
    it carries: when the timestamp text of the record parses in the
    RFC3339Nano layout the turn has exactly the parsed instant, and
    when it is missing or does not parse the turn has the shared
    fallback, whatever the clock shows by then. *)
Theorem Harvest_timestamps
    (s path : string) (off : Z) (fs : os.FS) (clk : time.Clock)
    (res : model.HarvestResult) :
  (transcript.Harvest s path off fs clk).1.1 = Some res ->
  time.calls (transcript.Harvest s path off fs clk).2 = S (time.calls clk)
  /\ Forall (fun m =>
       exists data line tl,
         fs !! path = Some data /\ In line (scanned_lines data off)
         /\ transcript.Unmarshal_transcriptLine line = Some tl
         /\ model.UUID m = transcript.UUID tl
         /\ model.Timestamp m =
              match time.Parse (transcript.Timestamp tl) with
              | Some t => t
              | None => harvest_now clk
              end)
       (model.Messages res).
Proof.
  intros H. destruct (fs !! path) as [data|] eqn:F.
  2:{ rewrite (Harvest_missing _ _ _ _ _ F) in H. discriminate. }
  split.
  - rewrite (Harvest_present _ _ _ _ _ _ F) in H |- *.
    destruct (bufio.scan _ _ _) as [[lines [e|]] rest]; simpl in *;
      [discriminate | reflexivity].
  - rewrite (Harvest_messages _ _ _ _ _ _ _ F H).
    apply Forall_forall. intros m Hm.
    apply list_elem_of_omap in Hm as (line & Hl & Hm).
    rewrite list_elem_of_In in Hl.
    unfold harvest_line in Hm.
    destruct (transcript.Unmarshal_transcriptLine line) as [tl|] eqn:U;
      [|discriminate]. simpl in Hm.
    destruct (transcript.Message tl) as [p|]; [|discriminate]. simpl in Hm.
    destruct (is_turn_role (transcript.Role p)); [|discriminate].
    injection Hm as <-.
    exists data, line, tl. repeat split; auto.
    simpl. rewrite parseTimestamp_default.
    destruct (time.Parse (transcript.Timestamp tl)); reflexivity.
Qed.

Lemma Harvest_timestamps_witness :
  (transcript.Harvest "sess-1" "/t.jsonl" 0 fs_times test_clock).1.1
  = Some res_times
  /\ (model.Timestamp <$> model.Messages res_times)
     = [time.mkTime 1000 0 0; time.mkTime 1718461800 0 0; time.mkTime 1000 0 0]
  /\ time.calls (transcript.Harvest "sess-1" "/t.jsonl" 0 fs_times test_clock).2
     = 1.
Proof.
  assert (H : (transcript.Harvest "sess-1" "/t.jsonl" 0 fs_times test_clock).1.1
              = Some res_times) by (vm_compute; reflexivity).
  split; [exact H|]. split; [reflexivity|].
  exact (proj1 (Harvest_timestamps "sess-1" "/t.jsonl" 0 fs_times test_clock
                  res_times H)).
Defined.

(* ----------------------------------------------------------------- *)
(** *** The filter *)

Lemma is_turn_role_iff role :
  is_turn_role role = true <-> role = "user" \/ role = "assistant".
Proof.
  unfold is_turn_role. rewrite orb_true_iff, !String.eqb_eq. reflexivity.
Qed.

(** C5, as the code has it.  For every line that parses, [Harvest]
    keeps the record, as one turn appended to the turns found so far,
    if and only if the record has a payload whose role is "user" or
    "assistant"; the kind of the record plays no part.  Every other
    record leaves the turns found so far as they are; no error arises
    from it. *)
Theorem Harvest_keeps_iff
    (s : string) (now : time.Time) (ms : list model.Message)
    (line : string) (tl : transcript.transcriptLine) :
  transcript.Unmarshal_transcriptLine line = Some tl ->
  ((exists m, transcript.Harvest_step s now ms line = (ms ++ [m])%list)
   <-> (exists p, transcript.Message tl = Some p
                  /\ (transcript.Role p = "user" \/ transcript.Role p = "assistant")))
  /\ (transcript.Harvest_step s now ms line = ms
      \/ exists p, transcript.Message tl = Some p
                   /\ transcript.Harvest_step s now ms line
                      = (ms ++ [turn_of s now tl p])%list).
Proof.
  intros U. rewrite Harvest_step_line. unfold harvest_line. rewrite U. simpl.
  destruct (transcript.Message tl) as [p|]; simpl.
  - destruct (is_turn_role (transcript.Role p)) eqn:R; simpl.
    + apply is_turn_role_iff in R. split; [split|]; eauto.
    + rewrite app_nil_r. split; [|by left].
      split.
      * intros [m Hm]. apply (f_equal length) in Hm.
        rewrite length_app in Hm. simpl in Hm. lia.
      * intros (p' & [= <-] & Hr). apply is_turn_role_iff in Hr. congruence.
  - rewrite app_nil_r. split; [|by left].
    split.
    + intros [m Hm]. apply (f_equal length) in Hm.
      rewrite length_app in Hm. simpl in Hm. lia.
    + intros (p' & [=] & _).
Qed.

Lemma Harvest_keeps_iff_witness :
  transcript.Unmarshal_transcriptLine line_kind_user = Some tl_kind_user
  /\ transcript.Harvest_step "sess-1" (time.mkTime 1000 0 0) [] line_kind_user
     = [turn_of "sess-1" (time.mkTime 1000 0 0) tl_kind_user
          {| transcript.Role := "user"; transcript.Content := dq "'hi'";
             transcript.Model := "" |}].
Proof.
  assert (U : transcript.Unmarshal_transcriptLine line_kind_user
              = Some tl_kind_user) by (vm_compute; reflexivity).
  split; [exact U|].
  destruct (proj2 (Harvest_keeps_iff "sess-1" (time.mkTime 1000 0 0) []
                     line_kind_user tl_kind_user U)) as [H | (p & Hp & H)].
  - vm_compute in H. discriminate H.
  - injection Hp as <-. exact H.
Defined.

(** The claim as the spec states it, that a record is kept only if its
    kind is "message", fails on that line: [Harvest] returns its turn. *)
Lemma kind_is_not_checked :
  transcript.Unmarshal_transcriptLine line_kind_user = Some tl_kind_user
  /\ transcript.Type_ tl_kind_user <> "message"
  /\ exists m,
       (transcript.Harvest "sess-1" "/t.jsonl" 0
          {[ "/t.jsonl" := line_kind_user ++ String LF EmptyString ]}
          test_clock).1
       = (Some {| model.Messages := [m]; model.NewOffset := 69 |}, None)
       /\ model.UUID m = "u1" /\ model.Content m = "hi".
Proof.
  split; [vm_compute; reflexivity|]. split; [discriminate|].
  eexists. split; [vm_compute; reflexivity|]. split; reflexivity.
Qed.

(* ----------------------------------------------------------------- *)
(** *** extractText *)

Lemma extractText_loop blocks : forall parts,
  fold_left transcript.extractText_step blocks parts
  = (parts ++ omap block_text blocks)%list.
Proof.
  induction blocks as [|b blocks IH]; intros parts; simpl.
  - by rewrite app_nil_r.
  - rewrite IH. unfold transcript.extractText_step, block_text.
    destruct (transcript.Unmarshal_block b) as [obj|]; simpl; [|reflexivity].
    destruct (String.eqb (transcript.blockType obj) "text"
              && negb (String.eqb (transcript.blockText obj) "")); simpl;
      [by rewrite <- app_assoc | reflexivity].
Qed.

Lemma Unmarshal_string_empty : json.Unmarshal_string EmptyString = None.
Proof. reflexivity. Qed.

Lemma Unmarshal_RawMessages_empty : json.Unmarshal_RawMessages EmptyString = None.
Proof. reflexivity. Qed.

Lemma len_eqb_zero raw : (len raw =? 0)%Z = true <-> raw = EmptyString.
Proof.
  rewrite Z.eqb_eq. split; [apply len_zero | intros ->; reflexivity].
Qed.

(** C7. The contract of [extractText], a total function.  (1) Content
    that decodes as a JSON string gives that string.  (2) Otherwise,
    content that decodes as an array of blocks gives the texts of the
    blocks of type "text" with a non-empty text, in their order, joined
    by one newline; the other blocks are ignored.  (3) Otherwise the
    content is returned as it is.  (4) Missing or empty content gives
    the empty string. *)
Theorem extractText_contract (raw : json.RawMessage) :
  (forall s, json.Unmarshal_string raw = Some s -> transcript.extractText raw = s)
  /\ (forall blocks,
        json.Unmarshal_string raw = None ->
        json.Unmarshal_RawMessages raw = Some blocks ->
        transcript.extractText raw
        = String.concat (String LF EmptyString) (omap block_text blocks))
  /\ (json.Unmarshal_string raw = None ->
      json.Unmarshal_RawMessages raw = None ->
      transcript.extractText raw = raw)
  /\ (raw = EmptyString -> transcript.extractText raw = EmptyString).
Proof.
  unfold transcript.extractText.
  destruct (len raw =? 0)%Z eqn:E.
  - apply len_eqb_zero in E. subst raw.
    rewrite Unmarshal_string_empty, Unmarshal_RawMessages_empty.
    split; [discriminate|]. split; [discriminate|]. split; reflexivity.
  - assert (Hne : raw <> EmptyString).
    { intros ->. discriminate E. }
    split; [|split; [|split]].
    + intros s ->. reflexivity.
    + intros blocks -> ->. unfold strings.Join.
      rewrite extractText_loop. reflexivity.
    + intros -> ->. reflexivity.
    + intros ->. contradiction.
Qed.

(** The cases of the tests: a plain string, blocks with a tool call and
    an empty text among them, text that is no JSON, and no content. *)
Lemma extractText_contract_witness :
  let blocks :=
    dq "[{'type':'text','text':'a'},{'type':'tool_use','id':'x'},{'type':'text','text':''},{'type':'text','text':'b'}]" in
  json.Unmarshal_string (dq "'hello world'") = Some "hello world"
  /\ transcript.extractText (dq "'hello world'") = "hello world"
  /\ json.Unmarshal_string blocks = None
  /\ transcript.extractText blocks
     = "a" ++ String LF EmptyString ++ "b"
  /\ json.Unmarshal_RawMessages "not valid json" = None
  /\ transcript.extractText "not valid json" = "not valid json"
  /\ transcript.extractText EmptyString = EmptyString.
Proof.
  intros blocks.
  assert (H1 : json.Unmarshal_string (dq "'hello world'") = Some "hello world")
    by (vm_compute; reflexivity).
  assert (H2 : json.Unmarshal_string blocks = None) by (vm_compute; reflexivity).
  assert (H3 : json.Unmarshal_RawMessages blocks
               = Some [dq "{'type':'text','text':'a'}";
                       dq "{'type':'tool_use','id':'x'}";
                       dq "{'type':'text','text':''}";
                       dq "{'type':'text','text':'b'}"])
    by (vm_compute; reflexivity).
  assert (H4 : json.Unmarshal_string "not valid json" = None)
    by (vm_compute; reflexivity).
  assert (H5 : json.Unmarshal_RawMessages "not valid json" = None)
    by (vm_compute; reflexivity).
  split; [exact H1|].
  split; [exact (proj1 (extractText_contract _) _ H1)|].
  split; [exact H2|].
  split; [exact (proj1 (proj2 (extractText_contract blocks)) _ H2 H3)|].
  split; [exact H5|].
  split; [exact (proj1 (proj2 (proj2 (extractText_contract _))) H4 H5)|].
  exact (proj2 (proj2 (proj2 (extractText_contract EmptyString))) eq_refl).
Defined.

(** Content that is the JSON [null] decodes into a string without
    error and without changing it: the text is empty. *)
Example extractText_null : transcript.extractText "null" = EmptyString.
Proof. reflexivity. Qed.

(* ================================================================= *)
(** ** The orchestrator *)

Lemma GetOffset_ok path d :
  sql.faults d (sql.ncalls d) = false ->
  store.GetOffset path d
  = ((default 0%Z (sql.transcript_offsets (sql.committed d) !! path), None),
     (sql.call d).2).
Proof.
  intros H. unfold store.GetOffset, sql.QueryRow, sql.call. simpl.
  rewrite H. unfold sql.select_offset; simpl.
  destruct (sql.transcript_offsets (sql.committed d) !! path); reflexivity.
Qed.

(** C4, as the code has it.  When [Harvest] returns zero turns,
    [harvestMessages] skips the commit: it returns no error and leaves
    the store as it was, the stored offset included.  A call of
    [SaveHarvestedMessages] with the empty sequence would leave the
    same messages but set the stored offset to the new offset. *)
Theorem harvestMessages_skips_empty
    (s path : string) (d : sql.DB) (fs : os.FS) (clk : time.Clock)
    (res : model.HarvestResult) :
  sql.faults d (sql.ncalls d) = false ->
  (transcript.Harvest s path
     (default 0%Z (sql.transcript_offsets (sql.committed d) !! path)) fs clk).1
  = (Some res, None) ->
  model.Messages res = [] ->
  let r := main.harvestMessages s path d fs clk in
  let c := store.SaveHarvestedMessages [] path (model.NewOffset res) d in
  r.1.1 = None
  /\ sql.committed r.1.2 = sql.committed d
  /\ (fault_free d ->
      c.1 = None
      /\ sql.messages (sql.committed c.2) = sql.messages (sql.committed r.1.2)
      /\ sql.transcript_offsets (sql.committed c.2)
         = <[path := model.NewOffset res]>
             (sql.transcript_offsets (sql.committed r.1.2))).
Proof.
  intros Hq Hh Hm r c.
  assert (R : r = (None, (sql.call d).2, (transcript.Harvest s path
       (default 0%Z (sql.transcript_offsets (sql.committed d) !! path)) fs clk).2)).
  { subst r. unfold main.harvestMessages. rewrite (GetOffset_ok _ _ Hq).
    destruct (transcript.Harvest s path _ fs clk) as [[result err] clk'].
    simpl in Hh. injection Hh as -> ->. rewrite Hm. reflexivity. }
  rewrite R. simpl. split; [reflexivity|]. split; [reflexivity|].
  intros Hd. subst c.
  pose proof (Save_fault_free [] path (model.NewOffset res) d Hd) as E.
  split; [exact E|].
  rewrite (Save_ok_committed _ _ _ _ E). split; reflexivity.
Qed.

Lemma harvestMessages_skips_empty_witness :
  let d := handle empty_tables no_faults in
  let res := {| model.Messages := []; model.NewOffset := 1 |} in
  let r := main.harvestMessages "sess-1" "/t.jsonl" d fs_blank test_clock in
  sql.faults d (sql.ncalls d) = false
  /\ (transcript.Harvest "sess-1" "/t.jsonl" 0 fs_blank test_clock).1
     = (Some res, None)
  /\ r.1.1 = None
  /\ sql.committed r.1.2 = sql.committed d.
Proof.
  intros d res r.
  assert (H1 : sql.faults d (sql.ncalls d) = false) by reflexivity.
  assert (H2 : (transcript.Harvest "sess-1" "/t.jsonl"
                  (default 0%Z (sql.transcript_offsets (sql.committed d)
                                  !! "/t.jsonl")) fs_blank test_clock).1
               = (Some res, None)) by (vm_compute; reflexivity).
  destruct (harvestMessages_skips_empty "sess-1" "/t.jsonl" d fs_blank
              test_clock res H1 H2 eq_refl) as (Ha & Hb & _).
  split; [exact H1|]. split; [exact H2|]. split; [exact Ha | exact Hb].
Defined.

(** The claim as the spec states it fails on that file: [Harvest]
    returns zero turns and the new offset 1, above the stored 0; after
    [harvestMessages] the stored offset is still 0, where the commit of
    the empty sequence stores 1. *)
Lemma skipped_commit_keeps_old_offset :
  let d := handle empty_tables no_faults in
  let r := main.harvestMessages "sess-1" "/t.jsonl" d fs_blank test_clock in
  let c := store.SaveHarvestedMessages [] "/t.jsonl" 1 d in
  (transcript.Harvest "sess-1" "/t.jsonl" 0 fs_blank test_clock).1
  = (Some {| model.Messages := []; model.NewOffset := 1 |}, None)
  /\ (store.GetOffset "/t.jsonl" d).1 = (0%Z, None)
  /\ r.1.1 = None
  /\ (store.GetOffset "/t.jsonl" r.1.2).1 = (0%Z, None)
  /\ c.1 = None
  /\ (store.GetOffset "/t.jsonl" c.2).1 = (1%Z, None).
Proof. vm_compute. repeat split; reflexivity. Qed.

(* ----------------------------------------------------------------- *)
(** *** Offsets *)

Lemma Harvest_from_end s path off fs clk data :
  fs !! path = Some data -> (len data <= off)%Z ->
  transcript.Harvest s path off fs clk
  = ((Some {| model.Messages := []; model.NewOffset := off |}, None), tick clk).
Proof.
  intros F Hle. rewrite (Harvest_present _ _ _ _ _ _ F).
  assert (E : from_offset data off = EmptyString).
  { unfold from_offset. apply sdrop_all. unfold len in Hle. lia. }
  rewrite E. simpl. pose proof (len_nonneg data).
  change (len EmptyString) with 0%Z.
  replace (Z.max 0 off + 0)%Z with off by lia. reflexivity.
Qed.

(** X1. The offset that [Harvest] returns.  When [Harvest] succeeds,
    the new offset is the size of the file, or the offset it was given
    when that is beyond the end of the file.  Everything up to the end
    of the file counts as read, a last line without its newline
    included. *)
Theorem Harvest_new_offset
    (s path : string) (off : Z) (fs : os.FS) (clk : time.Clock)
    (data : string) (res : model.HarvestResult) :
  fs !! path = Some data ->
  (transcript.Harvest s path off fs clk).1.1 = Some res ->
  model.NewOffset res = Z.max (len data) off.
Proof.
  intros F. rewrite (Harvest_present _ _ _ _ _ _ F).
  destruct (bufio.scan _ _ _) as [[lines [e|]] rest]; simpl; [discriminate|].
  intros [= <-]. simpl. rewrite len_from_offset.
  pose proof (len_nonneg data). lia.
Qed.

(** A file whose last record is not complete: its bytes are read, and
    passed over, with the rest. *)
Lemma Harvest_new_offset_witness :
  fs_partial !! "/t.jsonl" = Some data_partial
  /\ (transcript.Harvest "sess-1" "/t.jsonl" 0 fs_partial test_clock).1.1
     = Some {| model.Messages := [turn_u1]; model.NewOffset := 104 |}
  /\ model.NewOffset {| model.Messages := [turn_u1]; model.NewOffset := 104 |}
     = Z.max (len data_partial) 0.
Proof.
  assert (F : fs_partial !! "/t.jsonl" = Some data_partial)
    by (vm_compute; reflexivity).
  assert (H : (transcript.Harvest "sess-1" "/t.jsonl" 0 fs_partial test_clock).1.1
              = Some {| model.Messages := [turn_u1]; model.NewOffset := 104 |})
    by (vm_compute; reflexivity).
  split; [exact F|]. split; [exact H|].
  exact (Harvest_new_offset "sess-1" "/t.jsonl" 0 fs_partial test_clock
           data_partial _ F H).
Defined.

(** X2. [Harvest] from an offset at or beyond the end of the file.  It
    returns no error, zero turns, and the offset it was given: a file
    that has become shorter than the stored offset is never read
    again from its start. *)
Theorem Harvest_past_end
    (s path : string) (off : Z) (fs : os.FS) (clk : time.Clock) (data : string) :
  fs !! path = Some data -> (len data <= off)%Z ->
  (transcript.Harvest s path off fs clk).1
  = (Some {| model.Messages := []; model.NewOffset := off |}, None).
Proof. intros F H. by rewrite (Harvest_from_end _ _ _ _ _ _ F H). Qed.

Lemma Harvest_past_end_witness :
  fs_u1 !! "/t.jsonl" = Some data_u1 /\ (len data_u1 <= 100)%Z
  /\ (transcript.Harvest "sess-1" "/t.jsonl" 100 fs_u1 test_clock).1
     = (Some {| model.Messages := []; model.NewOffset := 100 |}, None).
Proof.
  assert (F : fs_u1 !! "/t.jsonl" = Some data_u1) by (vm_compute; reflexivity).
  assert (L : (len data_u1 <= 100)%Z) by (vm_compute; discriminate).
  split; [exact F|]. split; [exact L|].
  exact (Harvest_past_end "sess-1" "/t.jsonl" 100 fs_u1 test_clock data_u1 F L).
Defined.

(* ----------------------------------------------------------------- *)
(** *** Harvesting in steps *)

Lemma sdrop_app n : forall d d',
  n <= String.length d -> sdrop n (d ++ d') = sdrop n d ++ d'.
Proof.
  induction n as [|n IH]; intros d d' H; [reflexivity|].
  destruct d as [|c d]; simpl in *; [lia|].
  change (String c d ++ d') with (String c (d ++ d')). simpl.
  apply IH. lia.
Qed.

Lemma from_offset_app d d' off :
  (off <= len d)%Z -> from_offset (d ++ d') off = from_offset d off ++ d'.
Proof.
  intros H. unfold from_offset. apply sdrop_app. unfold len in H. lia.
Qed.

Lemma sdrop_length_app d : forall d', sdrop (String.length d) (d ++ d') = d'.
Proof.
  induction d as [|c d IH]; intros d'; [reflexivity|].
  change (String c d ++ d') with (String c (d ++ d')). simpl. apply IH.
Qed.

Lemma from_offset_end d d' : from_offset (d ++ d') (len d) = d'.
Proof.
  unfold from_offset, len. rewrite Nat2Z.id. apply sdrop_length_app.
Qed.

Lemma text_lines_app a : forall b cur,
  text_lines cur (a ++ String LF b)
  = (text_lines cur (a ++ String LF EmptyString) ++ text_lines EmptyString b)%list.
Proof.
  induction a as [|c a IH]; intros b cur.
  - reflexivity.
  - change (String c a ++ String LF b) with (String c (a ++ String LF b)).
    change (String c a ++ String LF EmptyString)
      with (String c (a ++ String LF EmptyString)).
    simpl. destruct (code c =? 10)%N.
    + simpl. f_equal. apply IH.
    + apply IH.
Qed.

Lemma split_lines_app a : forall b cur,
  split_lines cur (a ++ String LF b)
  = (text_lines cur (a ++ String LF EmptyString) ++ split_lines EmptyString b)%list.
Proof.
  induction a as [|c a IH]; intros b cur.
  - reflexivity.
  - change (String c a ++ String LF b) with (String c (a ++ String LF b)).
    change (String c a ++ String LF EmptyString)
      with (String c (a ++ String LF EmptyString)).
    simpl. destruct (code c =? 10)%N.
    + simpl. f_equal. apply IH.
    + apply IH.
Qed.

Lemma sapp_assoc (a b c : string) : (a ++ b) ++ c = a ++ (b ++ c).
Proof.
  induction a as [|x a IH]; [reflexivity|].
  change ((String x a ++ b) ++ c) with (String x ((a ++ b) ++ c)).
  change (String x a ++ (b ++ c)) with (String x (a ++ (b ++ c))).
  by rewrite IH.
Qed.

(** The lines before a line boundary are lines of the longer text. *)
Lemma too_long_prefix limit a b :
  (0 < limit)%Z ->
  line_too_long limit (a ++ String LF EmptyString) ->
  line_too_long limit (a ++ String LF b).
Proof.
  unfold line_too_long. intros Hl.
  rewrite (split_lines_app a b), (split_lines_app a EmptyString).
  rewrite !Exists_app. intros [H|H]; [by left|].
  simpl in H. apply Exists_cons in H as [H|H].
  - change (len EmptyString) with 0%Z in H. lia.
  - by apply Exists_nil in H.
Qed.

Lemma too_long_suffix limit a b :
  line_too_long limit b -> line_too_long limit (a ++ String LF b).
Proof.
  unfold line_too_long. rewrite (split_lines_app a b), Exists_app. by right.
Qed.

(** X3. Harvesting in two steps.  Let a file end with a newline, and
    let more bytes be appended to it.  A harvest of the longer file
    that succeeds gives, in their order, the turns that a harvest of
    the shorter file gives, followed by the turns of a harvest of the
    longer file from the offset that the first one returned; and it
    ends on the same offset.  (The three harvests read the same
    instant from the clock.) *)
Theorem Harvest_in_steps
    (s path : string) (off : Z) (fs fs' : os.FS) (clk : time.Clock)
    (old more : string) (res : model.HarvestResult) :
  fs !! path = Some (old ++ String LF EmptyString) ->
  fs' !! path = Some ((old ++ String LF EmptyString) ++ more) ->
  (off <= len (old ++ String LF EmptyString))%Z ->
  (transcript.Harvest s path off fs' clk).1.1 = Some res ->
  exists r1 r2,
    (transcript.Harvest s path off fs clk).1 = (Some r1, None)
    /\ (transcript.Harvest s path (model.NewOffset r1) fs' clk).1 = (Some r2, None)
    /\ model.Messages res = (model.Messages r1 ++ model.Messages r2)%list
    /\ model.NewOffset res = model.NewOffset r2.
Proof.
  intros F F' Hoff Hres.
  set (d := old ++ String LF EmptyString) in *.
  assert (Ld : String.length d = String.length old + 1).
  { unfold d. clear. induction old; simpl; [reflexivity|]. by rewrite IHold. }
  destruct (decide (off = len d)) as [->|Hne].
  { (* nothing of the old text is left to read *)
    destruct (Harvest_result_xor_error s path (len d) fs' clk) as [[_ N]|[N _]];
      [|congruence].
    exists {| model.Messages := []; model.NewOffset := len d |}, res.
    rewrite (Harvest_from_end _ _ _ _ _ _ F) by lia. simpl.
    split; [reflexivity|]. split; [|done].
    destruct (transcript.Harvest s path (len d) fs' clk) as [[r e] c].
    simpl in *. congruence. }
  pose proof (Harvest_present_error s path off fs' clk _ F') as (E' & _ & _).
  assert (Hok' : ~ line_too_long transcript.maxLine (from_offset (d ++ more) off)).
  { intros L. apply E' in L. destruct L as [e L].
    destruct (Harvest_result_xor_error s path off fs' clk) as [[_ N]|[N _]];
      simpl in N; congruence. }
  assert (Hd : from_offset d off
               = sdrop (Z.to_nat off) old ++ String LF EmptyString).
  { unfold from_offset, d. apply sdrop_app. unfold len in *. lia. }
  set (a := sdrop (Z.to_nat off) old) in *.
  assert (A : from_offset (d ++ more) off = a ++ String LF more).
  { rewrite from_offset_app by exact Hoff. rewrite Hd, sapp_assoc. reflexivity. }
  assert (Hok1 : ~ line_too_long transcript.maxLine (from_offset d off)).
  { rewrite Hd. intros L. apply Hok'. rewrite A. apply too_long_prefix; [|exact L].
    rewrite maxLine_value. lia. }
  assert (Hok2 : ~ line_too_long transcript.maxLine (from_offset (d ++ more) (len d))).
  { rewrite from_offset_end. intros L. apply Hok'. rewrite A.
    by apply too_long_suffix. }
  pose proof (Harvest_ok_spec s path off fs clk _ F Hok1) as H1.
  pose proof (Harvest_ok_spec s path off fs' clk _ F' Hok') as H0.
  pose proof (Harvest_ok_spec s path (len d) fs' clk _ F' Hok2) as H2.
  rewrite H0 in Hres. simpl in Hres. injection Hres as <-.
  assert (N1 : (Z.max 0 off + len (from_offset d off) = len d)%Z).
  { rewrite len_from_offset. pose proof (len_nonneg d). lia. }
  rewrite H1. simpl. rewrite N1.
  eexists _, _. split; [reflexivity|]. simpl. rewrite H2. simpl.
  split; [reflexivity|]. split.
  - rewrite A, Hd, from_offset_end.
    rewrite text_lines_app, fmap_app, omap_app. reflexivity.
  - cbn [model.NewOffset]. rewrite !len_from_offset, !len_app.
    pose proof (len_nonneg d). pose proof (len_nonneg more). lia.
Qed.

Lemma Harvest_in_steps_witness :
  fs_u1 !! "/t.jsonl" = Some (dq line_u1 ++ String LF EmptyString)
  /\ fs_u2 !! "/t.jsonl"
     = Some ((dq line_u1 ++ String LF EmptyString)
             ++ (dq line_u2 ++ String LF EmptyString))
  /\ (transcript.Harvest "sess-1" "/t.jsonl" 0 fs_u2 test_clock).1.1
     = Some {| model.Messages := [turn_u1; turn_u2]; model.NewOffset := 152 |}
  /\ exists r1 r2,
       (transcript.Harvest "sess-1" "/t.jsonl" 0 fs_u1 test_clock).1 = (Some r1, None)
       /\ (transcript.Harvest "sess-1" "/t.jsonl" (model.NewOffset r1) fs_u2
             test_clock).1 = (Some r2, None)
       /\ [turn_u1; turn_u2] = (model.Messages r1 ++ model.Messages r2)%list
       /\ 152%Z = model.NewOffset r2.
Proof.
  assert (F : fs_u1 !! "/t.jsonl" = Some (dq line_u1 ++ String LF EmptyString))
    by (vm_compute; reflexivity).
  assert (F' : fs_u2 !! "/t.jsonl"
               = Some ((dq line_u1 ++ String LF EmptyString)
                       ++ (dq line_u2 ++ String LF EmptyString)))
    by (vm_compute; reflexivity).
  assert (L : (0 <= len (dq line_u1 ++ String LF EmptyString))%Z)
    by (vm_compute; discriminate).
  assert (H : (transcript.Harvest "sess-1" "/t.jsonl" 0 fs_u2 test_clock).1.1
              = Some {| model.Messages := [turn_u1; turn_u2];
                        model.NewOffset := 152 |})
    by (vm_compute; reflexivity).
  split; [exact F|]. split; [exact F'|]. split; [exact H|].
  exact (Harvest_in_steps "sess-1" "/t.jsonl" 0 fs_u1 fs_u2 test_clock
           (dq line_u1) (dq line_u2 ++ String LF EmptyString) _ F F' L H).
Defined.

(* ----------------------------------------------------------------- *)
(** *** The turns of a batch *)

(** X4. The turns of a batch.  Every turn that [Harvest] returns
    carries the session identifier that was passed to it, has the role
    "user" or "assistant", and has for text what [extractText] makes
    of its own raw content. *)
Theorem Harvest_turns
    (s path : string) (off : Z) (fs : os.FS) (clk : time.Clock)
    (res : model.HarvestResult) :
  (transcript.Harvest s path off fs clk).1.1 = Some res ->
  Forall (fun m =>
            model.SessionID m = s
            /\ (model.Role m = "user" \/ model.Role m = "assistant")
            /\ model.Content m = transcript.extractText (model.RawContent m))
         (model.Messages res).
Proof.
  destruct (fs !! path) as [data|] eqn:F.
  2:{ rewrite (Harvest_missing _ _ _ _ _ F). discriminate. }
  intros H. rewrite (Harvest_messages _ _ _ _ _ _ _ F H).
  apply Forall_forall. intros m Hm.
  apply list_elem_of_omap in Hm as (line & _ & Hl).
  unfold harvest_line in Hl.
  destruct (transcript.Unmarshal_transcriptLine line) as [tl|]; [|discriminate].
  simpl in Hl. destruct (transcript.Message tl) as [p|]; [|discriminate].
  simpl in Hl. destruct (is_turn_role (transcript.Role p)) eqn:R; [|discriminate].
  injection Hl as <-. simpl. apply is_turn_role_iff in R. auto.
Qed.

Lemma Harvest_turns_witness :
  (transcript.Harvest "sess-1" "/t.jsonl" 0 fs_u2 test_clock).1.1
  = Some {| model.Messages := [turn_u1; turn_u2]; model.NewOffset := 152 |}
  /\ Forall (fun m =>
               model.SessionID m = "sess-1"
               /\ (model.Role m = "user" \/ model.Role m = "assistant")
               /\ model.Content m = transcript.extractText (model.RawContent m))
            [turn_u1; turn_u2].
Proof.
  assert (H : (transcript.Harvest "sess-1" "/t.jsonl" 0 fs_u2 test_clock).1.1
              = Some {| model.Messages := [turn_u1; turn_u2];
                        model.NewOffset := 152 |})
    by (vm_compute; reflexivity).
  split; [exact H|].
  exact (Harvest_turns "sess-1" "/t.jsonl" 0 fs_u2 test_clock _ H).
Defined.

(* ----------------------------------------------------------------- *)
(** *** What a save leaves alone *)

Lemma fold_insert_appends ms : forall t,
  exists new,
    sql.messages (fold_left (fun t m => sql.insert_message (store.row_of m) t) ms t)
    = (sql.messages t ++ new)%list
    /\ sublist new (store.row_of <$> ms).
Proof.
  induction ms as [|m ms IH]; intros t; simpl.
  - exists []. by rewrite app_nil_r.
  - destruct (IH (sql.insert_message (store.row_of m) t)) as (new & E & S).
    rewrite E. unfold sql.insert_message.
    destruct (sql.uuid (store.row_of m)) as [u|].
    + destruct (existsb (sql.has_uuid u) (sql.messages t)).
      * exists new. split; [reflexivity|]. by apply sublist_cons.
      * exists (store.row_of m :: new). simpl. rewrite <- app_assoc.
        split; [reflexivity|]. by apply sublist_skip.
    + exists (store.row_of m :: new). simpl. rewrite <- app_assoc.
      split; [reflexivity|]. by apply sublist_skip.
Qed.

Lemma Save_appends_rows ms path offset d :
  exists new,
    sql.messages (sql.committed (store.SaveHarvestedMessages ms path offset d).2)
    = (sql.messages (sql.committed d) ++ new)%list
    /\ sublist new (store.row_of <$> ms).
Proof.
  destruct (store.SaveHarvestedMessages ms path offset d) as [e d'] eqn:E.
  apply Save_outcome in E as (_ & _ & _ & [[_ H]|[_ H]]); simpl; rewrite H.
  - rewrite saved_messages. apply fold_insert_appends.
  - exists []. rewrite app_nil_r. split; [reflexivity|]. apply sublist_nil_l.
Qed.

(** X5. The messages table only grows, and at its end.  Whatever the
    batches that are saved one after the other, and whichever calls of
    the database fail, the rows that were committed before are still
    there, in their order, at the head of the table; the rows after
    them are rows of the batches, in the order of the batches. *)
Theorem messages_table_only_grows (bs : list batch) (d : sql.DB) :
  exists new,
    sql.messages (sql.committed (commit_all bs d).2)
    = (sql.messages (sql.committed d) ++ new)%list
    /\ sublist new (batch_rows bs).
Proof.
  revert d. induction bs as [|[[ms path] offset] bs IH]; intros d.
  - exists []. simpl. by rewrite app_nil_r.
  - rewrite commit_all_cons. simpl.
    destruct (Save_appends_rows ms path offset d) as (n1 & E1 & S1).
    destruct (IH (store.SaveHarvestedMessages ms path offset d).2) as (n2 & E2 & S2).
    exists (n1 ++ n2)%list. rewrite E2, E1, <- app_assoc. split; [reflexivity|].
    unfold batch_rows. simpl. rewrite fmap_app. by apply sublist_app.
Qed.

Lemma Save_other_offsets ms path offset d path' :
  path <> path' ->
  sql.transcript_offsets
    (sql.committed (store.SaveHarvestedMessages ms path offset d).2) !! path'
  = sql.transcript_offsets (sql.committed d) !! path'.
Proof.
  intros Hne.
  destruct (store.SaveHarvestedMessages ms path offset d) as [e d'] eqn:E.
  apply Save_outcome in E as (_ & _ & _ & [[_ H]|[_ H]]); simpl; rewrite H.
  - rewrite saved_offsets. by apply lookup_insert_ne.
  - reflexivity.
Qed.

(** X6. The offsets of the other files.  Saving batches for some
    transcript files leaves the stored offset of every other file as
    it was, whether the saves succeed or fail. *)
Theorem offsets_of_other_files
    (bs : list batch) (path : string) (d : sql.DB) :
  Forall (fun b : batch => b.1.2 <> path) bs ->
  sql.transcript_offsets (sql.committed (commit_all bs d).2) !! path
  = sql.transcript_offsets (sql.committed d) !! path.
Proof.
  revert d. induction bs as [|[[ms p] offset] bs IH]; intros d Hall.
  - reflexivity.
  - rewrite commit_all_cons. simpl. apply Forall_cons in Hall as [Hp Hall].
    rewrite IH by exact Hall. apply Save_other_offsets. exact Hp.
Qed.

Lemma offsets_of_other_files_witness :
  let bs : list batch :=
    [([msg_m1], "/a.jsonl", 10%Z); ([msg_m2], "/b.jsonl", 20%Z)] in
  Forall (fun b : batch => b.1.2 <> "/path.jsonl") bs
  /\ sql.transcript_offsets (sql.committed (commit_all bs store_with_dup).2)
       !! "/path.jsonl"
     = sql.transcript_offsets (sql.committed store_with_dup) !! "/path.jsonl".
Proof.
  intros bs.
  assert (H : Forall (fun b : batch => b.1.2 <> "/path.jsonl") bs)
    by (repeat constructor; discriminate).
  split; [exact H|].
  exact (offsets_of_other_files bs "/path.jsonl" store_with_dup H).
Defined.

(** X7. The identifiers stay unique.  When no identifier is carried by
    two rows of the messages table, none is after any sequence of
    saves, whatever the batches hold (the same identifier twice in a
    batch, or one that is stored already) and whichever calls of the
    database fail. *)
Theorem identifiers_stay_unique (bs : list batch) (d : sql.DB) :
  unique_uuids (sql.committed d) ->
  unique_uuids (sql.committed (commit_all bs d).2).
Proof.
  revert d. induction bs as [|[[ms path] offset] bs IH]; intros d U.
  - exact U.
  - rewrite commit_all_cons. simpl. apply IH.
    destruct (store.SaveHarvestedMessages ms path offset d) as [e d'] eqn:E.
    apply Save_outcome in E as (_ & _ & _ & [[_ H]|[_ H]]); simpl; rewrite H.
    + by apply saved_unique.
    + exact U.
Qed.

Lemma identifiers_stay_unique_witness :
  let bs : list batch :=
    [([msg_dup; msg_dup'], "/path.jsonl", 100%Z); ([msg_dup; msg_m1], "/path.jsonl", 150%Z)] in
  unique_uuids (sql.committed (handle empty_tables no_faults))
  /\ unique_uuids (sql.committed (commit_all bs (handle empty_tables no_faults)).2).
Proof.
  intros bs.
  assert (H : unique_uuids (sql.committed (handle empty_tables no_faults)))
    by (intros u; simpl; lia).
  split; [exact H|].
  exact (identifiers_stay_unique bs (handle empty_tables no_faults) H).
Defined.

(* ----------------------------------------------------------------- *)
(** *** The orchestrator, continued *)

Lemma call_fault_free d : fault_free d -> fault_free (sql.call d).2.
Proof. intros H n Hn. apply H. simpl in Hn. lia. Qed.

Lemma GetOffset_outcome path d :
  let r := store.GetOffset path d in
  r.2 = (sql.call d).2
  /\ (r.1 = (stored_offset path d, None) \/ r.1 = (0%Z, Some store.ErrQuery)).
Proof.
  unfold store.GetOffset, sql.QueryRow, stored_offset, sql.select_offset.
  simpl. destruct (sql.faults d (sql.ncalls d)); simpl; [auto|].
  destruct (sql.transcript_offsets (sql.committed d) !! path); simpl; auto.
Qed.

Lemma harvestMessages_outcome s path d fs clk :
  let r := main.harvestMessages s path d fs clk in
  (sql.committed r.1.2 = sql.committed d)
  \/ (r.1.1 = None /\
      exists res,
        (transcript.Harvest s path (stored_offset path d) fs clk).1 = (Some res, None)
        /\ model.Messages res <> []
        /\ sql.committed r.1.2
           = saved (model.Messages res) path (model.NewOffset res) (sql.committed d)).
Proof.
  unfold main.harvestMessages.
  pose proof (GetOffset_outcome path d) as (E2 & E1).
  destruct (store.GetOffset path d) as [[off err] d1].
  cbn [fst snd] in E1, E2. subst d1.
  assert (C1 : sql.committed (sql.call d).2 = sql.committed d) by reflexivity.
  set (d1 := (sql.call d).2) in *.
  destruct E1 as [[= -> ->]|[= -> ->]]; [|by left].
  destruct (transcript.Harvest s path (stored_offset path d) fs clk)
    as [[res [e|]] clk']; [by left|].
  destruct res as [res|]; [|by left].
  destruct (Z.of_nat (length (model.Messages res)) =? 0)%Z eqn:L; [by left|].
  destruct (store.SaveHarvestedMessages (model.Messages res) path
              (model.NewOffset res) d1) as [e d'] eqn:S.
  apply Save_outcome in S as (_ & _ & _ & [[-> H]|[_ H]]);
    cbn [fst snd]; rewrite C1 in H.
  - right. split; [reflexivity|]. exists res. split; [reflexivity|]. split.
    + intros N. rewrite N in L. discriminate.
    + exact H.
  - left. exact H.
Qed.

(** X8. An error of [harvestMessages] leaves the store as it was.
    Whenever [harvestMessages] returns an error -- the query for the
    offset failed, the file could not be harvested, or the save
    failed at any of its steps -- the committed tables, messages and
    offsets alike, are those from before the call. *)
Theorem harvestMessages_error_keeps_store
    (s path : string) (d : sql.DB) (fs : os.FS) (clk : time.Clock) :
  let r := main.harvestMessages s path d fs clk in
  is_Some r.1.1 -> sql.committed r.1.2 = sql.committed d.
Proof.
  intros r [e He]. subst r.
  destruct (harvestMessages_outcome s path d fs clk) as [H|[H _]]; [exact H|].
  congruence.
Qed.

(** The commit of the save fails: the turn that was read is not
    stored. *)
Lemma harvestMessages_error_keeps_store_witness :
  let d := handle empty_tables (fault_at 5) in
  let r := main.harvestMessages "sess-1" "/t.jsonl" d fs_u1 test_clock in
  r.1.1 = Some (main.StoreError store.ErrCommit)
  /\ sql.committed r.1.2 = sql.committed d.
Proof.
  intros d r.
  assert (H : r.1.1 = Some (main.StoreError store.ErrCommit))
    by (vm_compute; reflexivity).
  split; [exact H|].
  apply (harvestMessages_error_keeps_store "sess-1" "/t.jsonl" d fs_u1 test_clock).
  fold r. rewrite H. eauto.
Defined.

(** Whether a line gives a turn does not depend on the time. *)
Lemma harvest_line_is_Some s now now' line :
  is_Some (harvest_line s now line) -> is_Some (harvest_line s now' line).
Proof.
  unfold harvest_line.
  destruct (transcript.Unmarshal_transcriptLine line) as [tl|]; simpl; [|done].
  destruct (transcript.Message tl) as [p|]; simpl; [|done].
  destruct (is_turn_role (transcript.Role p)); eauto.
Qed.

Lemma omap_harvest_line_nil s now now' lines :
  omap (harvest_line s now) lines = [] -> omap (harvest_line s now') lines = [].
Proof.
  induction lines as [|l lines IH]; simpl; [done|].
  destruct (harvest_line s now l) eqn:E; [discriminate|].
  intros H. destruct (harvest_line s now' l) eqn:E'; [|by apply IH].
  assert (is_Some (harvest_line s now l)) as [? ?]; [|congruence].
  apply (harvest_line_is_Some s now' now). rewrite E'. eauto.
Qed.

Lemma Z_length_zero {A} (l : list A) :
  (Z.of_nat (length l) =? 0)%Z = true <-> l = [].
Proof.
  rewrite Z.eqb_eq. destruct l; simpl; split; intros; try done; lia.
Qed.

Lemma harvestMessages_missing s path d fs clk :
  sql.faults d (sql.ncalls d) = false -> fs !! path = None ->
  main.harvestMessages s path d fs clk
  = (Some (main.HarvestError (transcript.ErrOpen path)), (sql.call d).2, clk).
Proof.
  intros Hf F. unfold main.harvestMessages.
  rewrite (GetOffset_ok path d Hf), (Harvest_missing _ _ _ _ _ F). reflexivity.
Qed.

(** [harvestMessages] on a file that is there, when the query for the
    offset does not fail. *)
Lemma harvestMessages_present s path d fs clk data :
  sql.faults d (sql.ncalls d) = false -> fs !! path = Some data ->
  main.harvestMessages s path d fs clk =
    match bufio.scan transcript.maxLine EmptyString
            (from_offset data (stored_offset path d)) with
    | (_, Some e, _) =>
        (Some (main.HarvestError (transcript.ErrScan e)), (sql.call d).2, tick clk)
    | (lines, None, _) =>
        match omap (harvest_line s (harvest_now clk)) lines with
        | [] => (None, (sql.call d).2, tick clk)
        | ms =>
            let r := store.SaveHarvestedMessages ms path
                       (Z.max (len data) (stored_offset path d)) (sql.call d).2 in
            (main.StoreError <$> r.1, r.2, tick clk)
        end
    end.
Proof.
  intros Hf F. unfold main.harvestMessages.
  rewrite (GetOffset_ok path d Hf), (Harvest_present _ _ _ _ _ _ F).
  fold (stored_offset path d).
  destruct (bufio.scan _ _ _) as [[lines [e|]] rest]; [reflexivity|].
  cbn [model.Messages model.NewOffset]. rewrite Harvest_loop. cbn [app].
  assert (N : (Z.max 0 (stored_offset path d)
               + len (from_offset data (stored_offset path d)))%Z
              = Z.max (len data) (stored_offset path d)).
  { rewrite len_from_offset. pose proof (len_nonneg data). lia. }
  rewrite N.
  destruct (omap (harvest_line s (harvest_now clk)) lines) as [|m ms] eqn:O;
    [reflexivity|].
  cbn [length]. rewrite Nat2Z.inj_succ.
  replace (Z.succ (Z.of_nat (length ms)) =? 0)%Z with false
    by (symmetry; apply Z.eqb_neq; lia).
  destruct (store.SaveHarvestedMessages _ _ _ _); reflexivity.
Qed.

(** X9. [harvestMessages] twice is [harvestMessages] once.  When no
    call of the database fails and the file is not touched, a second
    run of [harvestMessages], at any later time, returns what the
    first run returned and leaves the committed tables as the first
    run left them. *)
Theorem harvestMessages_twice
    (s path : string) (d : sql.DB) (fs : os.FS) (clk : time.Clock) :
  fault_free d ->
  let r1 := main.harvestMessages s path d fs clk in
  let r2 := main.harvestMessages s path r1.1.2 fs r1.2 in
  r2.1.1 = r1.1.1 /\ sql.committed r2.1.2 = sql.committed r1.1.2.
Proof.
  intros FF r1 r2. subst r2.
  assert (Hf : sql.faults d (sql.ncalls d) = false) by (apply FF; lia).
  pose proof (call_fault_free d FF) as FF1.
  assert (Hf1 : sql.faults (sql.call d).2 (sql.ncalls (sql.call d).2) = false)
    by (apply FF1; lia).
  assert (C1 : stored_offset path (sql.call d).2 = stored_offset path d)
    by reflexivity.
  destruct (fs !! path) as [data|] eqn:F.
  2:{ subst r1. rewrite (harvestMessages_missing _ _ _ _ _ Hf F).
      cbn [fst snd]. by rewrite (harvestMessages_missing _ _ _ _ _ Hf1 F). }
  pose proof (harvestMessages_present s path d fs clk data Hf F) as R1.
  fold r1 in R1.
  destruct (bufio.scan transcript.maxLine EmptyString
              (from_offset data (stored_offset path d)))
    as [[lines [e|]] rest] eqn:Sc.
  { (* a line too long: the same error again *)
    rewrite R1. cbn [fst snd].
    rewrite (harvestMessages_present _ _ _ _ _ _ Hf1 F), C1, Sc. done. }
  destruct (omap (harvest_line s (harvest_now clk)) lines) as [|m ms] eqn:O.
  { (* no turn: nothing is stored, and the same lines are read again *)
    rewrite R1. cbn [fst snd].
    rewrite (harvestMessages_present _ _ _ _ _ _ Hf1 F), C1, Sc.
    by rewrite (omap_harvest_line_nil _ _ (harvest_now (tick clk)) _ O). }
  (* turns: they are stored with the offset, and nothing is left to read *)
  set (n := Z.max (len data) (stored_offset path d)) in *.
  pose proof (Save_fault_free (m :: ms) path n _ FF1) as Ok.
  pose proof (Save_ok_committed (m :: ms) path n _ Ok) as Cm.
  pose proof (Save_fault_free_after (m :: ms) path n _ FF1) as FF2.
  destruct (store.SaveHarvestedMessages (m :: ms) path n (sql.call d).2) as [e d2].
  cbn [fst snd] in *. subst e. rewrite R1. cbn [fst snd fmap option_fmap option_map].
  assert (Hf2 : sql.faults d2 (sql.ncalls d2) = false) by (apply FF2; lia).
  assert (S2 : stored_offset path d2 = n).
  { unfold stored_offset. by rewrite Cm, saved_offsets, lookup_insert_eq. }
  rewrite (harvestMessages_present _ _ _ _ _ _ Hf2 F), S2.
  assert (E : from_offset data n = EmptyString).
  { unfold from_offset. apply sdrop_all. unfold n, len. lia. }
  rewrite E. done.
Qed.

Lemma harvestMessages_twice_witness :
  let d := handle empty_tables no_faults in
  let r1 := main.harvestMessages "sess-1" "/t.jsonl" d fs_u2 test_clock in
  let r2 := main.harvestMessages "sess-1" "/t.jsonl" r1.1.2 fs_u2 r1.2 in
  fault_free d
  /\ sql.messages (sql.committed r1.1.2) = [store.row_of turn_u1; store.row_of turn_u2]
  /\ r2.1.1 = r1.1.1 /\ sql.committed r2.1.2 = sql.committed r1.1.2.
Proof.
  intros d r1 r2.
  assert (H : fault_free d) by (intros n _; reflexivity).
  split; [exact H|]. split; [vm_compute; reflexivity|].
  exact (harvestMessages_twice "sess-1" "/t.jsonl" d fs_u2 test_clock H).
Defined.

(* ----------------------------------------------------------------- *)
(** *** The first turn with an identifier *)

Lemma has_uuid_row_of u m :
  u <> "" -> sql.has_uuid u (store.row_of m) = String.eqb (model.UUID m) u.
Proof.
  intros Hu. unfold sql.has_uuid, store.row_of, store.nullStr. simpl.
  destruct (String.eqb (model.UUID m) "") eqn:E; [|reflexivity].
  apply String.eqb_eq in E. rewrite E. symmetry. apply String.eqb_neq. congruence.
Qed.

Lemma rows_with_insert_other u m t :
  u <> "" -> String.eqb (model.UUID m) u = false ->
  rows_with u (sql.insert_message (store.row_of m) t) = rows_with u t.
Proof.
  intros Hu Hm. pose proof (has_uuid_row_of u m Hu) as R. rewrite Hm in R.
  unfold sql.insert_message.
  destruct (sql.uuid (store.row_of m)) as [v|];
    [destruct (existsb (sql.has_uuid v) (sql.messages t)); [reflexivity|]|];
    unfold rows_with; cbn [sql.messages]; rewrite List.filter_app;
    cbn [List.filter]; rewrite R; apply app_nil_r.
Qed.

Lemma rows_with_insert_new u m t :
  u <> "" -> String.eqb (model.UUID m) u = true -> rows_with u t = [] ->
  rows_with u (sql.insert_message (store.row_of m) t) = [store.row_of m].
Proof.
  intros Hu Hm Hnone. apply String.eqb_eq in Hm.
  unfold sql.insert_message.
  assert (U : sql.uuid (store.row_of m) = Some u).
  { unfold store.row_of, store.nullStr. simpl. rewrite Hm.
    replace (String.eqb u "") with false; [reflexivity|].
    symmetry. by apply String.eqb_neq. }
  rewrite U.
  destruct (existsb (sql.has_uuid u) (sql.messages t)) eqn:E.
  - exfalso. apply existsb_exists in E as (r & Hin & Hr).
    assert (In r (rows_with u t)) as I by (apply filter_In; auto).
    rewrite Hnone in I. destruct I.
  - unfold rows_with in *. cbn [sql.messages]. rewrite List.filter_app, Hnone.
    cbn [List.filter]. rewrite (has_uuid_refl u _ U). reflexivity.
Qed.

Lemma fold_insert_first u ms : forall t,
  u <> "" -> rows_with u t = [] ->
  rows_with u (fold_left (fun t m => sql.insert_message (store.row_of m) t) ms t)
  = option_list (store.row_of <$> first_with u ms).
Proof.
  induction ms as [|m ms IH]; intros t Hu Hnone; simpl.
  - exact Hnone.
  - destruct (String.eqb (model.UUID m) u) eqn:E.
    + simpl. rewrite fold_insert_keeps_rows;
        rewrite (rows_with_insert_new u m t Hu E Hnone); [reflexivity|discriminate].
    + apply IH; [exact Hu|]. by rewrite rows_with_insert_other.
Qed.

(** X25. Of the turns with one identifier the first is stored.  When
    a save succeeds, the rows that carry a non-empty identifier that
    was not stored before are exactly one row, that of the first turn
    of the batch with that identifier -- later turns of the batch with
    the same identifier are dropped, whatever their other fields --
    and no row when the batch has no such turn. *)
Theorem first_turn_is_stored
    (u : string) (ms : list model.Message) (path : string) (offset : Z)
    (d : sql.DB) :
  u <> "" ->
  rows_with u (sql.committed d) = [] ->
  (store.SaveHarvestedMessages ms path offset d).1 = None ->
  rows_with u (sql.committed (store.SaveHarvestedMessages ms path offset d).2)
  = option_list (store.row_of <$> first_with u ms).
Proof.
  intros Hu Hnone Ok. rewrite (Save_ok_committed _ _ _ _ Ok).
  unfold rows_with at 1. rewrite saved_messages.
  by apply fold_insert_first.
Qed.

(** Two turns with the identifier "dup-1" in one batch: the row of the
    first is the one that is stored. *)
Lemma first_turn_is_stored_witness :
  let d := handle empty_tables no_faults in
  let r := store.SaveHarvestedMessages [msg_dup; msg_dup'] "/path.jsonl" 100 d in
  "dup-1" <> ""
  /\ rows_with "dup-1" (sql.committed d) = []
  /\ r.1 = None
  /\ rows_with "dup-1" (sql.committed r.2) = [store.row_of msg_dup].
Proof.
  intros d r.
  assert (U : "dup-1" <> "") by discriminate.
  assert (N : rows_with "dup-1" (sql.committed d) = []) by reflexivity.
  assert (O : r.1 = None) by (vm_compute; reflexivity).
  split; [exact U|]. split; [exact N|]. split; [exact O|].
  exact (first_turn_is_stored "dup-1" [msg_dup; msg_dup'] "/path.jsonl" 100 d U N O).
Defined.

(* ----------------------------------------------------------------- *)
(** *** The stored offset *)

(** X26. The stored offset never moves back.  Whatever the file holds
    and whichever calls fail, the offset stored for the transcript
    after [harvestMessages] is at least the offset stored before (zero
    when none was stored): a file that became shorter does not make
    the store forget how far it had read. *)
Theorem stored_offset_never_decreases
    (s path : string) (d : sql.DB) (fs : os.FS) (clk : time.Clock) :
  let r := main.harvestMessages s path d fs clk in
  (stored_offset path d <= stored_offset path r.1.2)%Z.
Proof.
  intros r. subst r.
  destruct (harvestMessages_outcome s path d fs clk) as [H|(_ & res & Hh & _ & H)].
  - unfold stored_offset. rewrite H. lia.
  - unfold stored_offset at 2. rewrite H, saved_offsets, lookup_insert_eq. simpl.
    destruct (fs !! path) as [data|] eqn:F.
    2:{ rewrite (Harvest_missing _ _ _ _ _ F) in Hh. discriminate. }
    rewrite (Harvest_present _ _ _ _ _ _ F) in Hh.
    destruct (bufio.scan _ _ _) as [[lines [e|]] rest]; [discriminate|].
    injection Hh as <-. simpl. pose proof (len_nonneg (from_offset data (stored_offset path d))).
    lia.
Qed.

(* ================================================================= *)
(** ** package config *)

Lemma bytes_app s t : bytes (s ++ t) = (bytes s ++ bytes t)%list.
Proof.
  unfold bytes. induction s as [|c s IH]; [reflexivity|].
  change (String c s ++ t) with (String c (s ++ t)). simpl. by rewrite IH.
Qed.

Lemma HasPrefix_slash c s :
  strings.HasPrefix (String c s) "/" = (code c =? 47)%N.
Proof.
  unfold strings.HasPrefix. simpl.
  destruct c as [[] [] [] [] [] [] [] []]; reflexivity.
Qed.

(** Replacing the slashes, written on the bytes. *)
Lemma replace_slash_cons c s :
  strings.replace_go "/" "__" 0 (String c s)
  = (if (code c =? 47)%N then "__" else String c EmptyString)
    ++ strings.replace_go "/" "__" 0 s.
Proof.
  cbn [strings.replace_go]. rewrite HasPrefix_slash.
  destruct (code c =? 47)%N; reflexivity.
Qed.

Lemma ReplaceAll_slash s :
  strings.ReplaceAll s "/" "__" = strings.replace_go "/" "__" 0 s.
Proof. reflexivity. Qed.

Lemma replace_slash_app s : forall t,
  strings.replace_go "/" "__" 0 (s ++ t)
  = strings.replace_go "/" "__" 0 s ++ strings.replace_go "/" "__" 0 t.
Proof.
  induction s as [|c s IH]; intros t; [reflexivity|].
  change (String c s ++ t) with (String c (s ++ t)).
  rewrite !replace_slash_cons, IH, sapp_assoc. reflexivity.
Qed.

Lemma code_slash c : (code c =? 47)%N = true <-> c = slash.
Proof.
  split.
  - destruct c as [[] [] [] [] [] [] [] []]; vm_compute; congruence.
  - intros ->. reflexivity.
Qed.

Lemma replace_slash_none s :
  Forall (fun c => c <> slash) (bytes (strings.replace_go "/" "__" 0 s)).
Proof.
  induction s as [|c s IH]; [constructor|].
  rewrite replace_slash_cons, bytes_app. apply Forall_app. split; [|exact IH].
  destruct (code c =? 47)%N eqn:E.
  - repeat constructor; discriminate.
  - repeat constructor. intros ->. discriminate.
Qed.

(** X10. [ProjectSlug] returns one path element.  Whatever the working
    directory, the slug has no slash in it, so that it names a single
    directory below the log base. *)
Theorem ProjectSlug_has_no_slash (c : config.Config) (cwd : string) :
  Forall (fun b => b <> slash) (bytes (config.ProjectSlug c cwd)).
Proof. unfold config.ProjectSlug. rewrite ReplaceAll_slash. apply replace_slash_none. Qed.

Lemma TrimPrefix_slash_cons c s t :
  strings.TrimPrefix (String c s ++ t) "/"
  = strings.TrimPrefix (String c s) "/" ++ t.
Proof.
  unfold strings.TrimPrefix.
  change (String c s ++ t) with (String c (s ++ t)).
  cbn [strings.CutPrefix]. destruct (Ascii.eqb "/" c); reflexivity.
Qed.

Lemma ProjectSlug_collision c a b :
  a <> EmptyString ->
  config.ProjectSlug c (a ++ "/" ++ b) = config.ProjectSlug c (a ++ "__" ++ b).
Proof.
  intros Ha. destruct a as [|x a]; [done|].
  unfold config.ProjectSlug. rewrite !ReplaceAll_slash, !TrimPrefix_slash_cons.
  rewrite !replace_slash_app. reflexivity.
Qed.

(** X11. [ProjectSlug] does not tell all directories apart.  A slash
    and two underscores in the same place of a working directory give
    the same slug, so that the two projects share one log directory
    and one database file. *)
Theorem DBPath_collision (c : config.Config) (a b : string) :
  a <> EmptyString ->
  config.DBPath c (a ++ "/" ++ b) = config.DBPath c (a ++ "__" ++ b).
Proof.
  intros Ha. unfold config.DBPath, config.LogDir.
  by rewrite (ProjectSlug_collision c a b Ha).
Qed.

Lemma DBPath_collision_witness :
  "/home/u/a" <> ""
  /\ config.DBPath test_config ("/home/u/a" ++ "/" ++ "b")
     = config.DBPath test_config ("/home/u/a" ++ "__" ++ "b")
  /\ config.DBPath test_config "/home/u/a/b" = "/tmp/logs/home__u__a__b/events.duckdb".
Proof.
  assert (H : "/home/u/a" <> "") by discriminate.
  split; [exact H|]. split; [|vm_compute; reflexivity].
  exact (DBPath_collision test_config "/home/u/a" "b" H).
Defined.

(** *** The name of the database file *)

Lemma elements_app x : forall cur y,
  filepath.elements cur (x ++ String slash y)
  = (filepath.elements cur x ++ filepath.elements EmptyString y)%list.
Proof.
  induction x as [|c x IH]; intros cur y.
  - reflexivity.
  - change (String c x ++ String slash y) with (String c (x ++ String slash y)).
    simpl. destruct (code c =? 47)%N.
    + simpl. f_equal. apply IH.
    + apply IH.
Qed.

Lemma clean_go_snoc rooted e : plain e -> forall elems out,
  filepath.clean_go rooted out (elems ++ [e])
  = e :: filepath.clean_go rooted out elems.
Proof.
  intros (H1 & H2 & H3).
  assert (E1 : String.eqb e "" = false) by by apply String.eqb_neq.
  assert (E2 : String.eqb e "." = false) by by apply String.eqb_neq.
  assert (E3 : String.eqb e ".." = false) by by apply String.eqb_neq.
  induction elems as [|x elems IH]; intros out.
  - simpl. by rewrite E1, E2, E3.
  - simpl. destruct (String.eqb x "" || String.eqb x "."); [apply IH|].
    destruct (String.eqb x "..").
    + destruct out as [|top out']; [apply IH|].
      destruct (String.eqb top ".."); apply IH.
    + apply IH.
Qed.

Lemma Join_snoc l e :
  strings.Join (l ++ [e]) "/"
  = match l with
    | [] => e
    | _ :: _ => strings.Join l "/" ++ "/" ++ e
    end.
Proof.
  unfold strings.Join. induction l as [|x l IH]; [reflexivity|].
  destruct l as [|y l]; [reflexivity|].
  change ((x :: y :: l) ++ [e])%list with (x :: ((y :: l) ++ [e]))%list.
  change (String.concat "/" (x :: (y :: l) ++ [e]))
    with (x ++ "/" ++ String.concat "/" ((y :: l) ++ [e])).
  rewrite IH.
  change (String.concat "/" (x :: y :: l))
    with (x ++ "/" ++ String.concat "/" (y :: l)).
  by rewrite !sapp_assoc.
Qed.

(** [Clean] keeps a last element that is a name. *)
Lemma Clean_last p e :
  p <> EmptyString -> plain e -> filepath.elements EmptyString e = [e] ->
  filepath.Clean (p ++ String slash e) = e
  \/ exists dir, filepath.Clean (p ++ String slash e) = dir ++ String slash e.
Proof.
  intros Hp He Ee. destruct p as [|c p]; [done|].
  change (String c p ++ String slash e) with (String c (p ++ String slash e)).
  unfold filepath.Clean.
  change (String c (p ++ String slash e)) with (String c p ++ String slash e).
  rewrite elements_app, Ee.
  rewrite (clean_go_snoc _ e He).
  generalize (filepath.clean_go (code c =? 47)%N []
                (filepath.elements EmptyString (String c p))).
  intros st. cbn [rev]. rewrite Join_snoc. generalize (rev st). intros l.
  destruct (code c =? 47)%N.
  - right. destruct l as [|x l'].
    + exists EmptyString. reflexivity.
    + exists ("/" ++ strings.Join (x :: l') "/"). by rewrite !sapp_assoc.
  - destruct l as [|x l'].
    + left. reflexivity.
    + right. exists (strings.Join (x :: l') "/"). simpl app.
      destruct (l' ++ [e])%list eqn:L'; [by destruct l'|reflexivity].
Qed.

(** X12. The name of the database file.  Whatever the log base and the
    working directory, [DBPath] is a path whose last element is
    [events.duckdb]. *)
Theorem DBPath_file_name (c : config.Config) (cwd : string) :
  config.DBPath c cwd = "events.duckdb"
  \/ exists dir, config.DBPath c cwd = dir ++ "/events.duckdb".
Proof.
  unfold config.DBPath. set (d := config.LogDir c cwd).
  cbn [filepath.Join]. destruct (String.eqb d "") eqn:E.
  - left. reflexivity.
  - apply String.eqb_neq in E.
    change (strings.Join [d; "events.duckdb"] "/")
      with (d ++ String slash "events.duckdb").
    apply Clean_last; [exact E| |reflexivity].
    repeat split; discriminate.
Qed.

(* ================================================================= *)
(** ** package model: the time filter *)

Lemma is_digit_cases c :
  is_digit c = true ->
  In c (bytes "0123456789").
Proof.
  destruct c as [[] [] [] [] [] [] [] []]; vm_compute; intros H;
    try discriminate; tauto.
Qed.

Lemma lead_digit d r :
  is_digit d = true ->
  strings.lead strings.spaces (String d r) = 0
  /\ strings.lead (strings.reverse <$> strings.spaces) (String d r) = 0.
Proof.
  intros H. apply is_digit_cases in H. simpl in H.
  repeat (destruct H as [<-|H]; [split; vm_compute; reflexivity|]).
  destruct H.
Qed.

Lemma reverse_involutive s : strings.reverse (strings.reverse s) = s.
Proof.
  unfold strings.reverse.
  rewrite list_ascii_of_string_of_list_ascii, rev_involutive.
  apply string_of_list_ascii_of_string.
Qed.

Lemma bytes_reverse s : bytes (strings.reverse s) = rev (bytes s).
Proof. unfold bytes, strings.reverse. apply list_ascii_of_string_of_list_ascii. Qed.

Lemma string_of_bytes s : string_of_list_ascii (bytes s) = s.
Proof. apply string_of_list_ascii_of_string. Qed.

Lemma trim_go_digit runes d r :
  strings.lead runes (String d r) = 0 ->
  strings.trim_go runes 0 (String d r) = String d r.
Proof. intros H. cbn [strings.trim_go]. by rewrite H. Qed.

Lemma TrimSpace_numeral ds : numeral ds -> strings.TrimSpace ds = ds.
Proof.
  intros [Hne Hd]. unfold strings.TrimSpace.
  destruct ds as [|d r]; [done|].
  assert (Hd0 : is_digit d = true) by (simpl in Hd; by apply andb_true_iff in Hd as [? _]).
  rewrite (trim_go_digit _ d r) by (by apply lead_digit).
  assert (R : exists d' r', strings.reverse (String d r) = String d' r'
                            /\ is_digit d' = true).
  { assert (B : bytes (strings.reverse (String d r)) = rev (bytes (String d r)))
      by apply bytes_reverse.
    destruct (rev (bytes (String d r))) as [|d' l'] eqn:E.
    { apply (f_equal (@length _)) in E. rewrite length_rev in E. simpl in E. lia. }
    exists d', (string_of_list_ascii l'). split.
    - rewrite <- (string_of_bytes (strings.reverse (String d r))), B. reflexivity.
    - assert (I : In d' (rev (bytes (String d r)))) by (rewrite E; by left).
      apply in_rev in I. rewrite forallb_forall in Hd. by apply Hd. }
  destruct R as (d' & r' & ER & Hd').
  rewrite ER, (trim_go_digit _ d' r') by (by apply lead_digit).
  rewrite <- ER. apply reverse_involutive.
Qed.

Lemma digits_value_nonneg ds : forall acc,
  (0 <= acc)%Z -> (acc <= time.digits_value acc ds)%Z.
Proof.
  induction ds as [|c ds IH]; intros acc H; simpl; [lia|].
  assert (0 <= time.digit_val c)%Z by (unfold time.digit_val; lia).
  etransitivity; [|apply IH; lia]. lia.
Qed.

Lemma digit_not_sign d :
  is_digit d = true -> (code d =? 45)%N = false /\ (code d =? 43)%N = false.
Proof.
  intros H. apply is_digit_cases in H. simpl in H.
  repeat (destruct H as [<-|H]; [split; reflexivity|]). destruct H.
Qed.

Lemma Atoi_numeral ds :
  numeral ds -> (value ds < 2 ^ 63)%Z -> strconv.Atoi ds = Some (value ds).
Proof.
  intros [Hne Hd] Hv. unfold strconv.Atoi.
  destruct ds as [|d r]; [done|].
  assert (Hd0 : is_digit d = true) by (simpl in Hd; by apply andb_true_iff in Hd as [? _]).
  destruct (digit_not_sign d Hd0) as [N1 N2].
  rewrite N1, N2. fold (bytes (String d r)). rewrite Hd.
  fold (value (String d r)).
  pose proof (digits_value_nonneg (String d r) 0 ltac:(lia)) as P.
  fold (value (String d r)) in P.
  replace ((- 2 ^ 63 <=? value (String d r)) && (value (String d r) <? 2 ^ 63))%Z
    with true; [reflexivity|].
  symmetry. apply andb_true_iff. split; [apply Z.leb_le|apply Z.ltb_lt]; lia.
Qed.

Lemma int64_id z : (- 2 ^ 63 <= z < 2 ^ 63)%Z -> time.int64 z = z.
Proof.
  intros H. unfold time.int64. rewrite Z.mod_small; lia.
Qed.

Lemma length_snoc s c : String.length (s ++ String c EmptyString) = S (String.length s).
Proof. induction s as [|x s IH]; simpl; [reflexivity|]. by rewrite IH. Qed.

Lemma stake_snoc s c : stake (String.length s) (s ++ String c EmptyString) = s.
Proof. induction s as [|x s IH]; simpl; [reflexivity|]. by rewrite IH. Qed.

Lemma last_byte_snoc s c : model.last_byte (s ++ String c EmptyString) = c.
Proof.
  induction s as [|x s IH]; [reflexivity|].
  change (String x s ++ String c EmptyString)
    with (String x (s ++ String c EmptyString)).
  cbn [model.last_byte]. rewrite IH.
  destruct (s ++ String c EmptyString) eqn:E; [|reflexivity].
  destruct s; discriminate.
Qed.

Lemma unit_seconds_pos suffix secs :
  unit_seconds suffix = Some secs -> (60 <= secs)%Z.
Proof.
  unfold unit_seconds.
  repeat (destruct (_ =? _)%N; [intros [= <-]; lia|]). discriminate.
Qed.

(** The duration of a numeral with a unit, when it fits [int64]. *)
Lemma parseRelativeDuration_numeral ds suffix secs :
  numeral ds -> unit_seconds suffix = Some secs ->
  (0 < value ds)%Z -> (value ds * secs * 1000000000 < 2 ^ 63)%Z ->
  model.parseRelativeDuration (ds ++ String suffix EmptyString)
  = ((value ds * secs * 1000000000)%Z, true).
Proof.
  intros Hn Hu Hpos Hfit. unfold model.parseRelativeDuration.
  assert (L : (len (ds ++ String suffix EmptyString) <? 2)%Z = false).
  { apply Z.ltb_ge. unfold len. rewrite length_snoc.
    destruct Hn as [Hne _]. destruct ds; [done|]. simpl. lia. }
  rewrite L, last_byte_snoc, length_snoc.
  replace (S (String.length ds) - 1) with (String.length ds) by lia.
  rewrite stake_snoc, (TrimSpace_numeral _ Hn).
  pose proof (unit_seconds_pos _ _ Hu) as Hs.
  rewrite Atoi_numeral by (exact Hn || nia).
  replace (value ds <=? 0)%Z with false by (symmetry; apply Z.leb_gt; lia).
  unfold unit_seconds in Hu. unfold time.mul, time.Hour, time.Minute, time.Second.
  destruct (code suffix =? 109)%N.
  { injection Hu as <-. rewrite int64_id by lia. f_equal. lia. }
  destruct (code suffix =? 104)%N.
  { injection Hu as <-. rewrite int64_id by lia. f_equal. lia. }
  destruct (code suffix =? 100)%N.
  { injection Hu as <-. rewrite (int64_id (value ds * 24)) by lia.
    rewrite int64_id by lia. f_equal. lia. }
  destruct (code suffix =? 119)%N; [|discriminate].
  injection Hu as <-.
  rewrite (int64_id (value ds * 7)) by lia.
  rewrite (int64_id (value ds * 7 * 24)) by lia.
  rewrite int64_id by lia. f_equal. lia.
Qed.

(** X13. [parseRelativeDuration] on a numeral and a unit.  For a
    decimal numeral of value [n > 0] followed by one of the suffixes
    m, h, d and w, the result is [ok] with the duration of [n]
    minutes, hours, days or weeks, as long as that duration fits the
    63 bits of a [time.Duration].  (Beyond that the product wraps
    around, and the duration returned is not the one that was
    written.) *)
Theorem parseRelativeDuration_in_range
    (ds : string) (suffix : ascii) (secs : Z) :
  numeral ds -> unit_seconds suffix = Some secs ->
  (0 < value ds)%Z -> (value ds * secs * 1000000000 < 2 ^ 63)%Z ->
  model.parseRelativeDuration (ds ++ String suffix EmptyString)
  = ((value ds * secs * 1000000000)%Z, true).
Proof. apply parseRelativeDuration_numeral. Qed.

Lemma parseRelativeDuration_in_range_witness :
  numeral "30" /\ unit_seconds "m" = Some 60%Z
  /\ (0 < value "30")%Z /\ (value "30" * 60 * 1000000000 < 2 ^ 63)%Z
  /\ model.parseRelativeDuration "30m" = ((30 * time.Minute)%Z, true).
Proof.
  assert (H1 : numeral "30") by (split; [discriminate|reflexivity]).
  assert (H2 : unit_seconds "m" = Some 60%Z) by reflexivity.
  assert (H3 : (0 < value "30")%Z) by reflexivity.
  assert (H4 : (value "30" * 60 * 1000000000 < 2 ^ 63)%Z) by reflexivity.
  split; [exact H1|]. split; [exact H2|]. split; [exact H3|]. split; [exact H4|].
  exact (parseRelativeDuration_in_range "30" "m" 60 H1 H2 H3 H4).
Defined.

(** X14. A relative bound is counted back from now.  For a numeral of
    value [n > 0] with a unit, in the range above, [parseTimeArg]
    reads the clock once and returns the instant [n] units before the
    one it read, to the nanosecond and in the same zone. *)
Theorem parseTimeArg_relative
    (ds : string) (suffix : ascii) (secs : Z) (clk : time.Clock) :
  numeral ds -> unit_seconds suffix = Some secs ->
  (0 < value ds)%Z -> (value ds * secs * 1000000000 < 2 ^ 63)%Z ->
  (0 <= time.nsec (next_reading clk) < 1000000000)%Z ->
  model.parseTimeArg (ds ++ String suffix EmptyString) clk
  = (Some {| time.unixSec := time.unixSec (next_reading clk) - value ds * secs;
             time.nsec := time.nsec (next_reading clk);
             time.zoneOffset := time.zoneOffset (next_reading clk) |},
     tick clk).
Proof.
  intros Hn Hu Hpos Hfit Hns. unfold model.parseTimeArg.
  rewrite (parseRelativeDuration_numeral _ _ _ Hn Hu Hpos Hfit).
  unfold tick, time.Now. simpl. fold (next_reading clk).
  pose proof (unit_seconds_pos _ _ Hu) as Hs.
  unfold time.neg. rewrite int64_id by nia.
  unfold time.Add.
  replace (- (value ds * secs * 1000000000))%Z
    with ((- (value ds * secs)) * 1000000000)%Z by lia.
  rewrite Z.quot_mul by lia. rewrite Z.rem_mul by lia.
  replace (1000000000 <=? time.nsec (next_reading clk) + 0)%Z with false
    by (symmetry; apply Z.leb_gt; lia).
  replace (time.nsec (next_reading clk) + 0 <? 0)%Z with false
    by (symmetry; apply Z.ltb_ge; lia).
  do 2 f_equal. f_equal; lia.
Qed.

(** The test [TestParseTimeArg_WhenGivenRelativeDuration]: two hours
    before second 1000 of the clock. *)
Lemma parseTimeArg_relative_witness :
  numeral "2" /\ unit_seconds "h" = Some 3600%Z
  /\ (0 < value "2")%Z /\ (value "2" * 3600 * 1000000000 < 2 ^ 63)%Z
  /\ (0 <= time.nsec (next_reading test_clock) < 1000000000)%Z
  /\ model.parseTimeArg "2h" test_clock
     = (Some (time.mkTime (1000 - 2 * 3600) 0 3600), tick test_clock).
Proof.
  assert (H1 : numeral "2") by (split; [discriminate|reflexivity]).
  assert (H2 : unit_seconds "h" = Some 3600%Z) by reflexivity.
  assert (H3 : (0 < value "2")%Z) by reflexivity.
  assert (H4 : (value "2" * 3600 * 1000000000 < 2 ^ 63)%Z) by reflexivity.
  assert (H5 : (0 <= time.nsec (next_reading test_clock) < 1000000000)%Z)
    by (split; [discriminate|reflexivity]).
  split; [exact H1|]. split; [exact H2|]. split; [exact H3|]. split; [exact H4|].
  split; [exact H5|].
  exact (parseTimeArg_relative "2" "h" 3600 test_clock H1 H2 H3 H4 H5).
Defined.

(** *** Absolute bounds *)

(** A value whose last byte is no unit is no relative duration. *)
Lemma parseRelativeDuration_no_unit s :
  unit_seconds (model.last_byte s) = None ->
  model.parseRelativeDuration s = (0%Z, false).
Proof.
  unfold unit_seconds, model.parseRelativeDuration. intros H.
  destruct (len s <? 2)%Z; [reflexivity|].
  destruct (strconv.Atoi _) as [n|]; [|reflexivity].
  destruct (n <=? 0)%Z; [reflexivity|].
  repeat (destruct (_ =? _)%N; [discriminate|]). reflexivity.
Qed.

Lemma digit_no_unit d : is_digit d = true -> unit_seconds d = None.
Proof.
  intros H. apply is_digit_cases in H. simpl in H.
  repeat (destruct H as [<-|H]; [reflexivity|]). destruct H.
Qed.

(** The layouts with a time of day read on after the date. *)
Lemma Parse_after_date s :
  time.Parse s
  = match time.getdate s with
    | Some (_, _, _, EmptyString) => None
    | _ => time.Parse s
    end.
Proof.
  unfold time.getdate, time.Parse.
  destruct (time.getyear s) as [[year v]|]; simpl; [|reflexivity].
  destruct (time.lit 45 v) as [v1|]; simpl; [|reflexivity].
  destruct (time.getnum v1 true) as [[month v2]|]; simpl; [|reflexivity].
  destruct ((month <=? 0) || (12 <? month))%Z; [reflexivity|].
  destruct (time.lit 45 v2) as [v3|]; simpl; [|reflexivity].
  destruct (time.getnum v3 true) as [[day v4]|]; simpl; [|reflexivity].
  destruct v4; reflexivity.
Qed.

Lemma ParseMinutes_after_date s :
  time.ParseMinutes s
  = match time.getdate s with
    | Some (_, _, _, EmptyString) => None
    | _ => time.ParseMinutes s
    end.
Proof.
  unfold time.ParseMinutes.
  destruct (time.getdate s) as [[[[year month] day] v]|]; [|reflexivity].
  destruct v; reflexivity.
Qed.

(** The last byte of a date is a digit. *)
Lemma getnum_fixed_last v n :
  time.getnum v true = Some (n, EmptyString) ->
  exists a b, v = String a (String b EmptyString) /\ is_digit b = true.
Proof.
  unfold time.getnum. destruct v as [|a r]; [discriminate|].
  destruct (is_digit a); [|discriminate].
  destruct r as [|b r']; [discriminate|].
  destruct (is_digit b) eqn:B; [|discriminate].
  intros [= _ ->]. eauto.
Qed.

Lemma last_byte_app s a b :
  model.last_byte (s ++ String a (String b EmptyString)) = b.
Proof.
  induction s as [|x s IH]; [reflexivity|].
  change (String x s ++ String a (String b EmptyString))
    with (String x (s ++ String a (String b EmptyString))).
  cbn [model.last_byte]. rewrite IH.
  destruct (s ++ String a (String b EmptyString)) eqn:E; [|reflexivity].
  destruct s; discriminate.
Qed.

Lemma getdate_last s y m d :
  time.getdate s = Some (y, m, d, EmptyString) ->
  is_digit (model.last_byte s) = true.
Proof.
  unfold time.getdate.
  destruct (time.getyear s) as [[year v]|] eqn:Y; simpl; [|discriminate].
  destruct (time.lit 45 v) as [v1|] eqn:L1; simpl; [|discriminate].
  destruct (time.getnum v1 true) as [[month v2]|] eqn:G1; simpl; [|discriminate].
  destruct ((month <=? 0) || (12 <? month))%Z; [discriminate|].
  destruct (time.lit 45 v2) as [v3|] eqn:L2; simpl; [|discriminate].
  destruct (time.getnum v3 true) as [[day v4]|] eqn:G2; simpl; [|discriminate].
  intros [= -> -> -> ->].
  apply getnum_fixed_last in G2 as (a & b & -> & Hb).
  (* the text is a prefix followed by the two digits of the day *)
  assert (P : exists p, s = p ++ String a (String b EmptyString)).
  { unfold time.getyear in Y.
    destruct s as [|c1 [|c2 [|c3 [|c4 r]]]]; try discriminate.
    destruct (is_digit c1 && is_digit c2 && is_digit c3 && is_digit c4);
      [|discriminate].
    injection Y as _ <-.
    unfold time.lit in L1. destruct r as [|c5 r]; [discriminate|].
    destruct (code c5 =? 45)%N; [|discriminate]. injection L1 as <-.
    unfold time.getnum in G1. destruct r as [|c6 r]; [discriminate|].
    destruct (is_digit c6); [|discriminate].
    destruct r as [|c7 r]; [discriminate|].
    destruct (is_digit c7); [|discriminate]. injection G1 as _ <-.
    unfold time.lit in L2. destruct r as [|c8 r]; [discriminate|].
    destruct (code c8 =? 45)%N; [|discriminate]. injection L2 as ->.
    exists (String c1 (String c2 (String c3 (String c4 (String c5
              (String c6 (String c7 (String c8 EmptyString)))))))).
    reflexivity. }
  destruct P as [p ->]. by rewrite last_byte_app.
Qed.

(** X15. A date alone is midnight, UTC.  When a bound is a date in the
    layout [2006-01-02], [parseTimeArg] returns the first instant of
    that day in UTC -- so that as an upper bound it leaves the day
    itself out -- and does not read the clock. *)
Theorem parseTimeArg_date (s : string) (t : time.Time) (clk : time.Clock) :
  time.ParseDate s = Some t ->
  model.parseTimeArg s clk = (Some t, clk)
  /\ (time.unixSec t mod 86400 = 0)%Z
  /\ time.nsec t = 0%Z /\ time.zoneOffset t = 0%Z.
Proof.
  intros H. unfold time.ParseDate in H.
  destruct (time.getdate s) as [[[[y m] d] v]|] eqn:G; [|discriminate].
  simpl in H. destruct v; [|discriminate].
  destruct ((d <? 1) || (time.daysIn m y <? d))%Z eqn:R; [discriminate|].
  injection H as <-. split.
  - unfold model.parseTimeArg.
    rewrite parseRelativeDuration_no_unit
      by (apply digit_no_unit; by apply (getdate_last s y m d)).
    unfold model.formats. cbn [model.first_parse].
    unfold time.ParseRFC3339. rewrite Parse_after_date, G.
    rewrite ParseMinutes_after_date, G.
    unfold time.ParseDate. rewrite G. simpl. rewrite R. reflexivity.
  - unfold time.Date. simpl. split; [|done].
    replace ((((time.daysSinceEpoch y m d * 24 + 0) * 60 + 0) * 60 + 0))%Z
      with (time.daysSinceEpoch y m d * 86400)%Z by lia.
    apply Z.mod_mul. lia.
Qed.

(** The test [TestParseTimeArg_WhenGivenDateOnly]. *)
Lemma parseTimeArg_date_witness :
  time.ParseDate "2024-06-15" = Some (time.Date 2024 6 15 0 0 0 0)
  /\ model.parseTimeArg "2024-06-15" test_clock
     = (Some (time.Date 2024 6 15 0 0 0 0), test_clock)
  /\ (time.unixSec (time.Date 2024 6 15 0 0 0 0) mod 86400 = 0)%Z.
Proof.
  assert (H : time.ParseDate "2024-06-15" = Some (time.Date 2024 6 15 0 0 0 0))
    by (vm_compute; reflexivity).
  destruct (parseTimeArg_date "2024-06-15" _ test_clock H) as (A & B & _).
  split; [exact H|]. split; [exact A|exact B].
Defined.

(** *** The filter *)

Lemma parseTimeArg_is_Some s clk :
  is_Some (model.parseTimeArg s clk).1 <-> is_time_arg s = true.
Proof.
  unfold model.parseTimeArg, is_time_arg.
  destruct (model.parseRelativeDuration s) as [d [|]]; simpl.
  - split; eauto.
  - by rewrite bool_decide_eq_true.
Qed.

Lemma parseTimeArg_cases s clk :
  (exists t c, model.parseTimeArg s clk = (Some t, c) /\ is_time_arg s = true)
  \/ (exists c, model.parseTimeArg s clk = (None, c) /\ is_time_arg s = false).
Proof.
  pose proof (parseTimeArg_is_Some s clk) as V.
  destruct (model.parseTimeArg s clk) as [[t|] c]; simpl in *.
  - left. exists t, c. split; [reflexivity|]. apply V. eauto.
  - right. exists c. split; [reflexivity|].
    destruct (is_time_arg s); [|done]. destruct V as [_ V]. by destruct (V eq_refl).
Qed.

(** Statements about the results of a function that has been
    evaluated. *)
Ltac settle :=
  cbn; repeat split; intros;
  repeat match goal with
         | H : _ /\ _ |- _ => destruct H
         | H : _ \/ _ |- _ => destruct H
         | H : is_Some None |- _ => destruct H as [? H]; discriminate H
         | H : (_, _) = (_, _) |- _ => injection H as ? ?
         | H : Some _ = Some _ |- _ => injection H as ?
         end;
  subst; cbn in *; try congruence; try done; eauto.

(** X16. The results of [ParseTimeFilter].  It returns no filter and
    no error exactly when the two values are empty.  It returns the
    error of the lower bound exactly when that value is not empty and
    is no bound, and the error of the upper bound exactly when that
    value is not empty and is no bound while the lower one is empty or
    is a bound.  A filter that is returned comes without error, and
    has each of its bounds set exactly when the value for it is not
    empty. *)
Theorem ParseTimeFilter_result (sinceStr untilStr : string) (clk : time.Clock) :
  let r := (model.ParseTimeFilter sinceStr untilStr clk).1 in
  (r = (None, None) <-> sinceStr = "" /\ untilStr = "")
  /\ (r.2 = Some (model.ErrSince sinceStr)
      <-> sinceStr <> "" /\ is_time_arg sinceStr = false)
  /\ (r.2 = Some (model.ErrUntil untilStr)
      <-> untilStr <> "" /\ is_time_arg untilStr = false
          /\ (sinceStr = "" \/ is_time_arg sinceStr = true))
  /\ (forall tf, r.1 = Some tf ->
        r.2 = None
        /\ (is_Some (model.Since tf) <-> sinceStr <> "")
        /\ (is_Some (model.Until tf) <-> untilStr <> "")).
Proof.
  unfold model.ParseTimeFilter.
  destruct (String.eqb sinceStr "") eqn:Es;
    [apply String.eqb_eq in Es|apply String.eqb_neq in Es];
  (destruct (String.eqb untilStr "") eqn:Eu;
    [apply String.eqb_eq in Eu|apply String.eqb_neq in Eu]); cbn [andb negb].
  - (* no bound *)
    settle.
  - (* until alone *)
    destruct (parseTimeArg_cases untilStr clk) as [(t & c & -> & Ok)|(c & -> & Bad)];
      settle.
  - (* since alone *)
    destruct (parseTimeArg_cases sinceStr clk) as [(t & c & -> & Ok)|(c & -> & Bad)];
      settle.
  - (* both *)
    destruct (parseTimeArg_cases sinceStr clk) as [(t & c & -> & Ok)|(c & -> & Bad)];
      [|settle].
    destruct (parseTimeArg_cases untilStr c) as [(t' & c' & -> & Ok')|(c' & -> & Bad')];
      settle.
Qed.

(* ================================================================= *)
(** ** package store: the time clauses *)

Lemma placeholders_app s t :
  placeholders (s ++ t) = placeholders s + placeholders t.
Proof. unfold placeholders. by rewrite bytes_app, count_occ_app. Qed.

(** The four results of [appendTimeClauses] on a filter. *)
Lemma appendTimeClauses_cases tf tsCol hasWhere params :
  store.appendTimeClauses (Some tf) tsCol hasWhere params =
    match model.Since tf, model.Until tf with
    | Some s, Some u =>
        (keyword hasWhere ++ tsCol ++ " >= ?" ++ " AND " ++ tsCol ++ " <= ?",
         (params ++ [store.Time s; store.Time u])%list)
    | Some s, None =>
        (keyword hasWhere ++ tsCol ++ " >= ?", (params ++ [store.Time s])%list)
    | None, Some u =>
        (keyword hasWhere ++ tsCol ++ " <= ?", (params ++ [store.Time u])%list)
    | None, None => (EmptyString, params)
    end.
Proof.
  unfold store.appendTimeClauses, keyword.
  destruct (model.Since tf) as [s|], (model.Until tf) as [u|]; simpl.
  - rewrite <- app_assoc. destruct hasWhere; simpl; by rewrite !sapp_assoc.
  - destruct hasWhere; reflexivity.
  - destruct hasWhere; reflexivity.
  - reflexivity.
Qed.

(** X17. Placeholders and parameters agree.  When the name of the
    column holds no question mark, [appendTimeClauses] returns the
    parameters it was given followed by as many new ones as the clause
    it returns has placeholders. *)
Theorem appendTimeClauses_placeholders
    (tf : option model.TimeFilter) (tsCol : string) (hasWhere : bool)
    (params : list store.arg) :
  placeholders tsCol = 0 ->
  let r := store.appendTimeClauses tf tsCol hasWhere params in
  exists added,
    r.2 = (params ++ added)%list /\ placeholders r.1 = length added.
Proof.
  intros H r. subst r.
  assert (K : placeholders (keyword hasWhere) = 0) by by destruct hasWhere.
  destruct tf as [tf|]; [|exists []; by rewrite app_nil_r].
  rewrite appendTimeClauses_cases.
  destruct (model.Since tf) as [s|], (model.Until tf) as [u|]; cbn [fst snd].
  - exists [store.Time s; store.Time u]. split; [reflexivity|].
    by rewrite !placeholders_app, K, H.
  - exists [store.Time s]. split; [reflexivity|].
    by rewrite !placeholders_app, K, H.
  - exists [store.Time u]. split; [reflexivity|].
    by rewrite !placeholders_app, K, H.
  - exists []. by rewrite app_nil_r.
Qed.

(** The test [TestAppendTimeClauses_WhenBothSet]. *)
Lemma appendTimeClauses_placeholders_witness :
  let r := store.appendTimeClauses (Some filter_2024) "m.timestamp" true
             [store.String_ "p1"] in
  placeholders "m.timestamp" = 0
  /\ r.1 = " AND m.timestamp >= ? AND m.timestamp <= ?"
  /\ exists added,
       r.2 = ([store.String_ "p1"] ++ added)%list
       /\ placeholders r.1 = length added.
Proof.
  intros r.
  assert (H : placeholders "m.timestamp" = 0) by reflexivity.
  split; [exact H|]. split; [reflexivity|].
  exact (appendTimeClauses_placeholders (Some filter_2024) "m.timestamp" true
           [store.String_ "p1"] H).
Defined.

Lemma HasPrefix_app p s : strings.HasPrefix (p ++ s) p = true.
Proof.
  unfold strings.HasPrefix.
  assert (E : strings.CutPrefix (p ++ s) p = Some s).
  { induction p as [|c p IH]; [reflexivity|].
    change (String c p ++ s) with (String c (p ++ s)). cbn.
    by rewrite Ascii.eqb_refl. }
  by rewrite E.
Qed.

(** X18. The word before the clauses.  The clause that
    [appendTimeClauses] returns is empty exactly when the filter is
    [nil] or has no bound; otherwise it starts with [ AND ] when the
    query has a WHERE already, and with [ WHERE ] when it has none. *)
Theorem appendTimeClauses_keyword
    (tf : option model.TimeFilter) (tsCol : string) (hasWhere : bool)
    (params : list store.arg) :
  let clause := (store.appendTimeClauses tf tsCol hasWhere params).1 in
  let bounded :=
    match tf with
    | Some tf => is_Some (model.Since tf) \/ is_Some (model.Until tf)
    | None => False
    end in
  (bounded -> strings.HasPrefix clause (if hasWhere then " AND " else " WHERE ") = true)
  /\ (clause = "" <-> ~ bounded).
Proof.
  destruct tf as [tf|]; [|cbn; tauto].
  rewrite appendTimeClauses_cases. fold (keyword hasWhere).
  assert (K : forall x, keyword hasWhere ++ x <> "") by by destruct hasWhere.
  destruct (model.Since tf) as [s|], (model.Until tf) as [u|]; cbn [fst snd].
  1-3: split; [intros _; apply HasPrefix_app|];
       split; [intros E; by apply K in E|intros N; exfalso; apply N; eauto].
  split; [intros [[? ?]|[? ?]]; discriminate|].
  split; [intros _ [[? ?]|[? ?]]; discriminate|done].
Qed.

(* ================================================================= *)
(** ** package main: what is printed *)

Lemma len_stake n s : n <= String.length s -> String.length (stake n s) = n.
Proof.
  revert s. induction n as [|n IH]; intros s H; [reflexivity|].
  destruct s as [|c s]; simpl in *; [lia|]. rewrite IH; lia.
Qed.

Lemma stake_app n s t : n <= String.length s -> stake n (s ++ t) = stake n s.
Proof.
  revert s. induction n as [|n IH]; intros s H; [reflexivity|].
  destruct s as [|c s]; simpl in *; [lia|]. rewrite IH; [reflexivity|lia].
Qed.

Lemma stake_stake n s : stake n (stake n s) = stake n s.
Proof.
  revert s. induction n as [|n IH]; intros s; [reflexivity|].
  destruct s as [|c s]; simpl; [reflexivity|]. by rewrite IH.
Qed.

Lemma truncate_Some s maxLen :
  (0 <= maxLen)%Z ->
  exists r, main.truncate s maxLen = Some r /\ (len r <= maxLen + 3)%Z.
Proof.
  intros H. unfold main.truncate.
  destruct (len s <=? maxLen)%Z eqn:E.
  - apply Z.leb_le in E. exists s. split; [reflexivity|lia].
  - apply Z.leb_gt in E.
    replace (maxLen <? 0)%Z with false by (symmetry; apply Z.ltb_ge; lia).
    eexists. split; [reflexivity|].
    rewrite len_app. unfold len at 1. rewrite len_stake by (unfold len in E; lia).
    change (len "...") with 3%Z. lia.
Qed.

(** X19. [truncate].  The call panics exactly when the bound is
    negative.  Otherwise a string of at most [maxLen] bytes is
    returned as it is, and a longer one is cut to its first [maxLen]
    bytes, wherever that falls, and followed by three dots: the result
    has [maxLen + 3] bytes, which may be more than the string had.
    The function of the same name in package embedding is the same
    function. *)
Theorem truncate_contract (s : string) (maxLen : Z) :
  (main.truncate s maxLen = None <-> (maxLen < 0)%Z)
  /\ (forall r, main.truncate s maxLen = Some r ->
        (len r <= maxLen + 3)%Z
        /\ ((len s <= maxLen)%Z -> r = s)
        /\ ((maxLen < len s)%Z ->
            r = stake (Z.to_nat maxLen) s ++ "..." /\ len r = (maxLen + 3)%Z))
  /\ embedding.truncate s maxLen = main.truncate s maxLen.
Proof.
  split; [|split; [|reflexivity]].
  - unfold main.truncate. pose proof (len_nonneg s).
    destruct (len s <=? maxLen)%Z eqn:E;
      [apply Z.leb_le in E|apply Z.leb_gt in E].
    + split; [discriminate|lia].
    + destruct (maxLen <? 0)%Z eqn:N;
        [apply Z.ltb_lt in N|apply Z.ltb_ge in N]; split; try done; lia.
  - intros r Hr. unfold main.truncate in Hr. pose proof (len_nonneg s).
    destruct (len s <=? maxLen)%Z eqn:E;
      [apply Z.leb_le in E|apply Z.leb_gt in E].
    + injection Hr as <-. split; [lia|]. split; [done|lia].
    + destruct (maxLen <? 0)%Z eqn:N; [discriminate|]. apply Z.ltb_ge in N.
      injection Hr as <-.
      assert (L : len (stake (Z.to_nat maxLen) s ++ "...") = (maxLen + 3)%Z).
      { rewrite len_app. unfold len at 1.
        rewrite len_stake by (unfold len in E; lia).
        change (len "...") with 3%Z. lia. }
      split; [lia|]. split; [lia|]. done.
Qed.

(** X20. [formatToolInput] always returns, and what it returns is
    short.  Whatever the tool and its input -- JSON or not, an object
    or not, with the field of the tool or without -- the call does not
    panic and the text it returns has at most 123 bytes. *)
Theorem formatToolInput_bounded (toolName rawInput : string) :
  exists shown,
    main.formatToolInput toolName rawInput = Some shown /\ (len shown <= 123)%Z.
Proof.
  unfold main.formatToolInput.
  destruct (String.eqb rawInput ""); [exists "(no input)"; split; [reflexivity|done]|].
  destruct (json.Unmarshal_map rawInput) as [m|]; [|by apply truncate_Some].
  destruct (if negb (String.eqb (main.tool_key toolName) "")
            then match m ≫= (fun v => v !! main.tool_key toolName) with
                 | Some v => json.Unmarshal_string v
                 | None => None
                 end
            else None); by apply truncate_Some.
Qed.

(* ================================================================= *)
(** ** package summary *)

Lemma total_len_nonneg lines : (0 <= total_len lines)%Z.
Proof.
  induction lines as [|l lines IH]; simpl; [lia|].
  pose proof (len_nonneg l). lia.
Qed.

Lemma concat_cons l lines :
  String.concat "" (l :: lines) = l ++ String.concat "" lines.
Proof. destruct lines; simpl; [by rewrite sapp_nil_r|reflexivity]. Qed.

(** The loop of [buildPrompt] copies the lines that fit, in their
    order, and stops at the first that does not. *)
Lemma buildPrompt_loop_spec messages : forall sb,
  (len sb <= summary.maxConversationChars)%Z ->
  exists k,
    (len sb + total_len (take k (prompt_lines messages))
     <= summary.maxConversationChars)%Z
    /\ ((k = length messages
         /\ summary.buildPrompt_loop messages sb
            = sb ++ String.concat "" (prompt_lines messages))
        \/ (k < length messages
            /\ (summary.maxConversationChars
                < len sb + total_len (take (S k) (prompt_lines messages)))%Z
            /\ summary.buildPrompt_loop messages sb
               = sb ++ String.concat "" (take k (prompt_lines messages))
                  ++ truncation_mark)).
Proof.
  induction messages as [|m messages IH]; intros sb Hsb.
  - exists 0. simpl. split; [lia|]. left.
    split; [reflexivity|]. by rewrite sapp_nil_r.
  - cbn [summary.buildPrompt_loop].
    destruct (summary.maxConversationChars <? len sb + len (summary.prompt_line m))%Z
      eqn:E; [apply Z.ltb_lt in E|apply Z.ltb_ge in E].
    + exists 0. rewrite take_0. change (total_len []) with 0%Z.
      split; [lia|]. right. split; [simpl; lia|]. split.
      * change (total_len (take 1 (prompt_lines (m :: messages))))
          with (len (summary.prompt_line m) + 0)%Z. lia.
      * reflexivity.
    + destruct (IH (sb ++ summary.prompt_line m)) as (k & Hfit & Hres);
        [rewrite len_app; lia|].
      rewrite len_app in Hfit.
      exists (S k). cbn [length prompt_lines fmap list_fmap take total_len fold_right].
      fold (prompt_lines messages).
      change (fold_right (fun l n => (len l + n)%Z) 0%Z
                (take k (prompt_lines messages)))
        with (total_len (take k (prompt_lines messages))).
      split; [lia|].
      destruct Hres as [(-> & Hres)|(Hlt & Hover & Hres)]; [left|right].
      * split; [reflexivity|]. rewrite Hres, concat_cons, sapp_assoc. reflexivity.
      * split; [lia|]. split.
        -- rewrite len_app in Hover.
           change (take (S (S k)) (summary.prompt_line m :: prompt_lines messages))
             with (summary.prompt_line m :: take (S k) (prompt_lines messages)).
           cbn [total_len fold_right].
           change (fold_right (fun l n => (len l + n)%Z) 0%Z
                     (take (S k) (prompt_lines messages)))
             with (total_len (take (S k) (prompt_lines messages))).
           lia.
        -- rewrite Hres, concat_cons, !sapp_assoc. reflexivity.
Qed.

Lemma len_concat lines : len (String.concat "" lines) = total_len lines.
Proof.
  induction lines as [|l lines IH]; [reflexivity|].
  rewrite concat_cons, len_app, IH. reflexivity.
Qed.

(** X21. The prompt of a summary.  [buildPrompt] returns two messages,
    the system prompt and the conversation.  The conversation is made
    of the lines of the first messages, in their order, as many as fit
    8000 bytes together; when a message does not fit, the mark
    [... (truncated)] follows and no later message is looked at, a
    shorter one neither.  Hence the conversation never has more than
    8016 bytes. *)
Theorem buildPrompt_contract (messages : list model.StoredMessage.t) :
  exists content k,
    summary.buildPrompt messages
    = [ {| summary.Role := "system"; summary.Content := summary.systemPrompt |};
        {| summary.Role := "user"; summary.Content := content |} ]
    /\ (len content <= summary.maxConversationChars + 16)%Z
    /\ (total_len (take k (prompt_lines messages)) <= summary.maxConversationChars)%Z
    /\ ((k = length messages
         /\ content = String.concat "" (prompt_lines messages))
        \/ (k < length messages
            /\ (summary.maxConversationChars
                < total_len (take (S k) (prompt_lines messages)))%Z
            /\ content = String.concat "" (take k (prompt_lines messages))
                         ++ truncation_mark)).
Proof.
  destruct (buildPrompt_loop_spec messages EmptyString) as (k & Hfit & Hres);
    [done|].
  change (len EmptyString) with 0%Z in *.
  exists (summary.buildPrompt_loop messages EmptyString), k.
  split; [reflexivity|].
  assert (T : (0 + total_len (take k (prompt_lines messages))
               = total_len (take k (prompt_lines messages)))%Z) by lia.
  rewrite T in Hfit.
  destruct Hres as [(-> & Hres)|(Hlt & Hover & Hres)].
  - rewrite Hres. change (EmptyString ++ ?x) with x.
    rewrite firstn_all2 in Hfit by (unfold prompt_lines; rewrite length_fmap; lia).
    split; [rewrite len_concat; lia|]. split.
    + rewrite firstn_all2 by (unfold prompt_lines; rewrite length_fmap; lia). lia.
    + left. done.
  - rewrite Hres. change (EmptyString ++ ?x) with x.
    split; [rewrite len_app, len_concat; change (len truncation_mark) with 16%Z; lia|].
    split; [lia|]. right. split; [lia|]. split; [lia|]. reflexivity.
Qed.

(** *** The provider of summaries *)

Lemma TrimRight_slashes n : strings.TrimRight (slashes n) "/" = EmptyString.
Proof.
  induction n as [|n IH]; [reflexivity|].
  change (slashes (S n)) with (String slash (slashes n)).
  cbn [strings.TrimRight]. rewrite IH. reflexivity.
Qed.

Lemma TrimRight_app s n :
  strings.TrimRight (s ++ slashes n) "/" = strings.TrimRight s "/".
Proof.
  induction s as [|c s IH]; [apply TrimRight_slashes|].
  change (String c s ++ slashes n) with (String c (s ++ slashes n)).
  cbn [strings.TrimRight]. by rewrite IH.
Qed.

Lemma app_slashes_nonempty s n : s <> EmptyString -> s ++ slashes n <> EmptyString.
Proof. destruct s; [done|discriminate]. Qed.

(** X22. Slashes at the end of OLLAMA_HOST do not count.  For a host
    that is not empty, any number of slashes added at its end gives
    the same summarizer, the same endpoint included. *)
Theorem NewFromEnv_trailing_slashes (env : os.Env) (host : string) (n : nat) :
  host <> "" ->
  summary.NewFromEnv (<["OLLAMA_HOST" := host ++ slashes n]> env)
  = summary.NewFromEnv (<["OLLAMA_HOST" := host]> env).
Proof.
  intros Hh. unfold summary.NewFromEnv, os.Getenv.
  rewrite !lookup_insert_eq. cbn [default from_option id].
  rewrite !lookup_insert_ne by done.
  destruct (negb (String.eqb (default "" (env !! "OLLAMA_CHAT_MODEL")) ""));
    [|reflexivity].
  replace (String.eqb (host ++ slashes n) "") with false
    by (symmetry; apply String.eqb_neq; by apply app_slashes_nonempty).
  replace (String.eqb host "") with false
    by (symmetry; by apply String.eqb_neq).
  by rewrite TrimRight_app.
Qed.

(** The host of the test
    [TestNewFromEnv_WhenOllamaChatModelAndHostSet], with and without
    slashes after it. *)
Lemma NewFromEnv_trailing_slashes_witness :
  let env : os.Env := {[ "OLLAMA_CHAT_MODEL" := "llama3" ]} in
  "http://localhost:11434" <> ""
  /\ summary.NewFromEnv (<["OLLAMA_HOST" := "http://localhost:11434" ++ slashes 2]> env)
     = summary.NewFromEnv (<["OLLAMA_HOST" := "http://localhost:11434"]> env)
  /\ (summary.endpoint <$>
        summary.NewFromEnv (<["OLLAMA_HOST" := "http://localhost:11434"]> env))
     = Some "http://localhost:11434/v1/chat/completions".
Proof.
  intros env.
  assert (H : "http://localhost:11434" <> "") by discriminate.
  split; [exact H|]. split; [|vm_compute; reflexivity].
  exact (NewFromEnv_trailing_slashes env "http://localhost:11434" 2 H).
Defined.

(* ================================================================= *)
(** ** package embedding *)

(** X23. The embedder of [NewFromEnv].  Whatever the service answers,
    [NewFromEnv] returns an embedder or an error, never both and never
    neither.  An embedder that is returned has a dimension above zero,
    and it is the one of Ollama exactly when OLLAMA_EMBED_MODEL is
    set: once that variable is set the keys of the other providers are
    not looked at, not even when Ollama fails.  Without the variable
    the only error is that no provider was found. *)
Theorem embedding_NewFromEnv_result
    (float32 : Type)
    (Embed : embedding.HTTPEmbedder -> list string -> option (list (list float32)))
    (env : os.Env) :
  match embedding.NewFromEnv float32 Embed env with
  | (Some e, None) =>
      (0 < embedding.Dimension e)%Z
      /\ (embedding.Provider.Name (embedding.provider e) = "Ollama"
          <-> os.Getenv env "OLLAMA_EMBED_MODEL" <> "")
  | (None, Some err) =>
      os.Getenv env "OLLAMA_EMBED_MODEL" = "" -> err = embedding.ErrNoProvider
  | _ => False
  end.
Proof.
  unfold embedding.NewFromEnv.
  destruct (String.eqb (os.Getenv env "OLLAMA_EMBED_MODEL") "") eqn:M;
    [apply String.eqb_eq in M|apply String.eqb_neq in M]; cbn [negb].
  - cbn [embedding.first_provider]. unfold embedding.Voyage, embedding.OpenAI.
    cbn [embedding.Provider.EnvKey].
    destruct (negb (String.eqb (os.Getenv env "VOYAGE_API_KEY") "")).
    { split; [done|]. split; [discriminate|done]. }
    destruct (negb (String.eqb (os.Getenv env "OPENAI_API_KEY") "")).
    { split; [done|]. split; [discriminate|done]. }
    done.
  - unfold embedding.newOllama.
    destruct (String.eqb (os.Getenv env "OLLAMA_HOST") ""); [done|].
    destruct (Embed _ _) as [[|v vecs]|]; [done| |done].
    destruct (Z.of_nat (length v) =? 0)%Z eqn:L; [done|].
    apply Z.eqb_neq in L. split; [unfold embedding.Dimension; simpl; lia|].
    split; done.
Qed.

(* ================================================================= *)
(** ** package model: the payload of a hook *)

(** X24. The results of [ParsePayload].  It returns a payload or an
    error, never both and never neither.  When it returns a payload
    the input is a JSON object, the session identifier, the working
    directory and the event type are not empty, the event carries the
    identifier of the session, and the session and the event carry
    the same instant, read from the clock once and in UTC.  When it
    returns an error the clock has not been read. *)
Theorem ParsePayload_result (data : string) (clk : time.Clock) :
  match payload.ParsePayload data clk with
  | ((Some p, None), clk') =>
      (exists members, json.parse data = Some (json.Object members))
      /\ model.Session.ID (payload.Session p) <> ""
      /\ model.Session.CWD (payload.Session p) <> ""
      /\ model.Event.EventType (payload.Event p) <> ""
      /\ model.Event.SessionID (payload.Event p) = model.Session.ID (payload.Session p)
      /\ model.Session.CreatedAt (payload.Session p) = time.UTC (next_reading clk)
      /\ model.Event.Timestamp (payload.Event p) = time.UTC (next_reading clk)
      /\ clk' = tick clk
  | ((None, Some _), clk') => clk' = clk
  | _ => False
  end.
Proof.
  unfold payload.ParsePayload, payload.Unmarshal_hookPayload.
  destruct (json.parse data) as [v|]; cbn [mbind option_bind]; [|done].
  destruct v as [| | | | |members]; try done.
  - destruct (payload.decode_hookPayload members) as [p|]; [|done].
    destruct (String.eqb (payload.hookPayload.SessionID p) "") eqn:E1; [done|].
    destruct (String.eqb (payload.hookPayload.CWD p) "") eqn:E2; [done|].
    destruct (String.eqb (payload.hookPayload.HookEventName p) "") eqn:E3; [done|].
    apply String.eqb_neq in E1, E2, E3. cbn.
    split; [eauto|]. done.
Qed.

(* ----------------------------------------------------------------- *)
(** *** The hook *)

Lemma ParsePayload_shape data clk :
  (exists p, payload.ParsePayload data clk = ((Some p, None), tick clk))
  \/ (exists e, payload.ParsePayload data clk = ((None, Some e), clk)).
Proof.
  unfold payload.ParsePayload.
  destruct (payload.Unmarshal_hookPayload data) as [p|]; [|right; eauto].
  destruct (_ || _); [right; eauto|]. left. eexists. reflexivity.
Qed.

(** What [runHook_store] does to the database, by the calls that
    fail. *)
Lemma runHook_store_spec parsed st fs clk :
  let d := sql.db st in
  let r := main.runHook_store parsed st fs clk in
  let f n := sql.faults d (n + sql.ncalls d) in
  (f 0 = true /\ r.1.1 = Some main.ErrInitCoreSchema
     /\ sql.log r.1.2 = sql.log st
     /\ sql.committed (sql.db r.1.2) = sql.committed d)
  \/ (f 0 = false /\ f 1 = true /\ r.1.1 = Some main.ErrUpsertSession
     /\ sql.log r.1.2 = sql.log st
     /\ sql.committed (sql.db r.1.2) = sql.committed d)
  \/ (f 0 = false /\ f 1 = false /\ f 2 = true
     /\ r.1.1 = Some main.ErrInsertEvent
     /\ sql.log r.1.2
        = sql.upsert_session (model.Session.ID (payload.Session parsed))
            (store.session_row (payload.Session parsed)) (sql.log st)
     /\ sql.committed (sql.db r.1.2) = sql.committed d)
  \/ (f 0 = false /\ f 1 = false /\ f 2 = false
     /\ r.1.1 = None
     /\ sql.log r.1.2
        = sql.insert_event (store.event_row (payload.Event parsed))
            (sql.upsert_session (model.Session.ID (payload.Session parsed))
               (store.session_row (payload.Session parsed)) (sql.log st))
     /\ (sql.committed (sql.db r.1.2) = sql.committed d
         \/ (is_stop parsed = true
             /\ exists res,
                  model.Messages res <> []
                  /\ sql.committed (sql.db r.1.2)
                     = saved (model.Messages res)
                         (model.Session.TranscriptPath (payload.Session parsed))
                         (model.NewOffset res) (sql.committed d)))).
Proof.
  intros d r f. subst r f d.
  unfold main.runHook_store, store.InitCoreSchema, store.UpsertSession,
    store.InsertEvent, sql.ExecSchema, sql.ExecLog, sql.call.
  cbn [fst snd sql.db sql.log sql.faults sql.ncalls sql.committed negb Nat.add].
  destruct (sql.faults (sql.db st) (sql.ncalls (sql.db st))) eqn:F0;
    cbn [fst snd sql.db sql.log sql.faults sql.ncalls sql.committed negb].
  { left. done. }
  destruct (sql.faults (sql.db st) (S (sql.ncalls (sql.db st)))) eqn:F1;
    cbn [fst snd sql.db sql.log sql.faults sql.ncalls sql.committed negb].
  { right; left. done. }
  destruct (sql.faults (sql.db st) (S (S (sql.ncalls (sql.db st))))) eqn:F2;
    cbn [fst snd sql.db sql.log sql.faults sql.ncalls sql.committed negb].
  { right; right; left. done. }
  right; right; right.
  fold (is_stop parsed). destruct (is_stop parsed) eqn:S.
  - match goal with
    | |- context [main.harvestMessages ?s ?p ?d ?fs ?c] =>
        pose proof (harvestMessages_outcome s p d fs c) as H;
        destruct (main.harvestMessages s p d fs c) as [[e d'] c']
    end.
    cbn [fst snd sql.db sql.log sql.committed] in *.
    repeat (split; [reflexivity|]).
    destruct H as [H|(_ & res & _ & N & H)]; [by left|].
    right. split; [reflexivity|]. exists res. done.
  - cbn [fst snd sql.db sql.log sql.committed]. repeat (split; [reflexivity|]).
    by left.
Qed.

(** A run that gets as far as the database. *)
Lemma runHook_reaches_store w data parsed :
  main.stdin w = Some data ->
  (payload.ParsePayload data (main.clock w)).1 = (Some parsed, None) ->
  main.mkdir_fails w (hook_dir w parsed) = false ->
  main.open_fails w (hook_db w parsed) = false ->
  let s := main.runHook_store parsed (main.databases w (hook_db w parsed))
             (main.files w) (tick (main.clock w)) in
  (main.runHook w).1 = main.Return s.1.1
  /\ forall p, main.databases (main.runHook w).2 p
               = if String.eqb p (hook_db w parsed) then s.1.2
                 else main.databases w p.
Proof.
  intros I P M O s. subst s. unfold main.runHook. rewrite I.
  destruct (ParsePayload_shape data (main.clock w)) as [[q E]|[e E]];
    rewrite E in P |- *; cbn [fst snd] in P; [|discriminate].
  injection P as ->.
  cbn [main.env main.mkdir_fails main.open_fails main.databases main.files
       main.clock].
  unfold hook_dir, hook_db in *. rewrite M, O.
  destruct (main.runHook_store _ _ _ _) as [[e st] c]. done.
Qed.

(** A run that does not. *)
Lemma runHook_cases w :
  (exists e, (main.runHook w).1 = main.Return (Some e)
             /\ main.databases (main.runHook w).2 = main.databases w
             /\ (main.stdin w = None
                 \/ (exists data, main.stdin w = Some data
                       /\ (payload.ParsePayload data (main.clock w)).1.1 = None)
                 \/ (exists data parsed, main.stdin w = Some data
                       /\ (payload.ParsePayload data (main.clock w)).1
                          = (Some parsed, None)
                       /\ (main.mkdir_fails w (hook_dir w parsed) = true
                           \/ main.open_fails w (hook_db w parsed) = true))))
  \/ (exists data parsed,
        main.stdin w = Some data
        /\ (payload.ParsePayload data (main.clock w)).1 = (Some parsed, None)
        /\ main.mkdir_fails w (hook_dir w parsed) = false
        /\ main.open_fails w (hook_db w parsed) = false).
Proof.
  unfold main.runHook. destruct (main.stdin w) as [data|] eqn:I.
  2:{ left. eexists. cbn. eauto. }
  destruct (ParsePayload_shape data (main.clock w)) as [[q E]|[e E]]; rewrite E.
  2:{ left. eexists. cbn. split; [reflexivity|]. split; [reflexivity|].
      right; left. exists data. by rewrite E. }
  cbn [main.env main.mkdir_fails main.open_fails main.databases main.files
       main.clock fst snd].
  fold (hook_dir w q). fold (hook_db w q).
  destruct (main.mkdir_fails w (hook_dir w q)) eqn:M.
  { left. eexists. cbn. split; [reflexivity|]. split; [reflexivity|].
    right; right. exists data, q. rewrite E. auto. }
  destruct (main.open_fails w (hook_db w q)) eqn:O.
  { left. eexists. cbn. split; [reflexivity|]. split; [reflexivity|].
    right; right. exists data, q. rewrite E. auto. }
  right. exists data, q. rewrite E. auto.
Qed.

(** X27. When the hook returns nil.  [runHook] always returns (the
    nil payload it would dereference never comes about), and it
    returns nil exactly when the standard input was read, the payload
    was parsed, the directory of the project was made, the database
    was opened, and the three statements on it -- the schema, the
    session, the event -- succeeded.  Nothing that happens while the
    transcript is harvested makes it return an error. *)
Theorem runHook_returns_nil (w : main.World) :
  (exists err, (main.runHook w).1 = main.Return err)
  /\ ((main.runHook w).1 = main.Return None <->
      exists data parsed,
        main.stdin w = Some data
        /\ (payload.ParsePayload data (main.clock w)).1 = (Some parsed, None)
        /\ main.mkdir_fails w (hook_dir w parsed) = false
        /\ main.open_fails w (hook_db w parsed) = false
        /\ three_calls_succeed (sql.db (main.databases w (hook_db w parsed)))).
Proof.
  split.
  - destruct (runHook_cases w) as [(e & E & _)|(data & q & I & P & M & O)];
      [eauto|].
    destruct (runHook_reaches_store w data q I P M O) as [E _]. eauto.
  - split.
    + intros R.
      destruct (runHook_cases w) as [(e & E & _)|(data & q & I & P & M & O)];
        [congruence|].
      exists data, q. repeat (split; [assumption|]).
      destruct (runHook_reaches_store w data q I P M O) as [E _].
      rewrite E in R. injection R as R.
      pose proof (runHook_store_spec q (main.databases w (hook_db w q))
                    (main.files w) (tick (main.clock w))) as S.
      cbn zeta in S. rewrite R in S. unfold three_calls_succeed.
      destruct S as [S|[S|[S|S]]]; cbn [Nat.add] in S; by intuition congruence.
    + intros (data & q & I & P & M & O & F0 & F1 & F2).
      destruct (runHook_reaches_store w data q I P M O) as [E _]. rewrite E.
      pose proof (runHook_store_spec q (main.databases w (hook_db w q))
                    (main.files w) (tick (main.clock w))) as S.
      cbn zeta in S. cbn [Nat.add] in S.
      destruct S as [S|[S|[S|S]]]; [by intuition congruence..|].
      f_equal. tauto.
Qed.

Lemma runHook_stops_early w data parsed :
  main.stdin w = Some data ->
  (payload.ParsePayload data (main.clock w)).1 = (Some parsed, None) ->
  main.mkdir_fails w (hook_dir w parsed) = true
  \/ main.open_fails w (hook_db w parsed) = true ->
  main.databases (main.runHook w).2 = main.databases w
  /\ exists e, (main.runHook w).1 = main.Return (Some e).
Proof.
  intros I P H.
  destruct (runHook_cases w) as [(e & E & D & _)|(data' & q & I' & P' & M & O)];
    [eauto|].
  rewrite I in I'. injection I' as <-. rewrite P in P'. injection P' as <-.
  destruct H; congruence.
Qed.

(** X28. The event is recorded exactly when the hook returns nil.
    When [runHook] returns nil, the events of the database of the
    project are those from before followed by the row of the event of
    the payload, and the events of every other database are as
    before; when it returns an error, no database has gained or lost
    an event. *)
Theorem runHook_records_the_event (w : main.World) (p : string) :
  match (main.runHook w).1 with
  | main.Return None =>
      exists data parsed,
        main.stdin w = Some data
        /\ (payload.ParsePayload data (main.clock w)).1 = (Some parsed, None)
        /\ sql.events (log_at (main.runHook w).2 p)
           = if String.eqb p (hook_db w parsed)
             then (sql.events (log_at w p)
                   ++ [store.event_row (payload.Event parsed)])%list
             else sql.events (log_at w p)
  | _ => sql.events (log_at (main.runHook w).2 p) = sql.events (log_at w p)
  end.
Proof.
  unfold log_at.
  destruct (runHook_cases w) as [(e & E & D & _)|(data & q & I & P & M & O)].
  { rewrite E, D. reflexivity. }
  destruct (runHook_reaches_store w data q I P M O) as [E D].
  rewrite E, (D p).
  pose proof (runHook_store_spec q (main.databases w (hook_db w q))
                (main.files w) (tick (main.clock w))) as S.
  cbn zeta in S.
  destruct S as [S|[S|[S|S]]].
  - destruct S as (_ & -> & L & _).
    destruct (String.eqb p (hook_db w q)) eqn:Q; [|reflexivity].
    apply String.eqb_eq in Q. subst p. by rewrite L.
  - destruct S as (_ & _ & -> & L & _).
    destruct (String.eqb p (hook_db w q)) eqn:Q; [|reflexivity].
    apply String.eqb_eq in Q. subst p. by rewrite L.
  - destruct S as (_ & _ & _ & -> & L & _).
    destruct (String.eqb p (hook_db w q)) eqn:Q; [|reflexivity].
    apply String.eqb_eq in Q. subst p. by rewrite L.
  - destruct S as (_ & _ & _ & -> & L & _).
    exists data, q. split; [exact I|]. split; [exact P|].
    destruct (String.eqb p (hook_db w q)) eqn:Q; [|reflexivity].
    apply String.eqb_eq in Q. subst p. by rewrite L.
Qed.

Lemma upsert_session_known id r l old :
  sql.sessions l !! id = Some old ->
  sql.sessions (sql.upsert_session id r l)
  = <[id := {| sql.Sessions.cwd := sql.Sessions.cwd old;
               sql.Sessions.transcript_path := sql.Sessions.transcript_path r;
               sql.Sessions.created_at := sql.Sessions.created_at old |}]>
      (sql.sessions l).
Proof. intros H. unfold sql.upsert_session. cbn. by rewrite H. Qed.

Lemma upsert_session_others id r l id' :
  id' <> id ->
  sql.sessions (sql.upsert_session id r l) !! id' = sql.sessions l !! id'.
Proof.
  intros N. unfold sql.upsert_session. cbn.
  destruct (sql.sessions l !! id); by rewrite lookup_insert_ne.
Qed.

(** X29. A session that is stored keeps its directory and its time
    of creation.  When the session of the payload is in the database
    of the project, it is still there after [runHook], with the
    working directory and the time of creation it had, whatever the
    payload and the clock say; when [runHook] returns nil its
    transcript path is the one of the payload, NULL when the payload
    has none, so that an event without a path erases the path that
    was stored.  The other sessions are as before. *)
Theorem runHook_known_session
    (w : main.World) (data : string) (parsed : payload.ParsedPayload)
    (old : sql.Sessions.Row) :
  let id := model.Session.ID (payload.Session parsed) in
  let before := sql.sessions (log_at w (hook_db w parsed)) in
  let after := sql.sessions (log_at (main.runHook w).2 (hook_db w parsed)) in
  main.stdin w = Some data ->
  (payload.ParsePayload data (main.clock w)).1 = (Some parsed, None) ->
  before !! id = Some old ->
  (exists new,
     after !! id = Some new
     /\ sql.Sessions.cwd new = sql.Sessions.cwd old
     /\ sql.Sessions.created_at new = sql.Sessions.created_at old
     /\ ((main.runHook w).1 = main.Return None ->
         sql.Sessions.transcript_path new
         = store.nullStr (model.Session.TranscriptPath (payload.Session parsed))))
  /\ forall id', id' <> id -> after !! id' = before !! id'.
Proof.
  intros id before after I P K. subst before after. unfold log_at in *.
  destruct (main.mkdir_fails w (hook_dir w parsed)) eqn:M.
  { destruct (runHook_stops_early w data parsed I P (or_introl M)) as (D & e & E).
    rewrite D, E. split; [|done]. exists old. rewrite K. done. }
  destruct (main.open_fails w (hook_db w parsed)) eqn:O.
  { destruct (runHook_stops_early w data parsed I P (or_intror O)) as (D & e & E).
    rewrite D, E. split; [|done]. exists old. rewrite K. done. }
  destruct (runHook_reaches_store w data parsed I P M O) as [E D].
  rewrite E, (D (hook_db w parsed)), String.eqb_refl.
  pose proof (runHook_store_spec parsed (main.databases w (hook_db w parsed))
                (main.files w) (tick (main.clock w))) as S.
  cbn zeta in S.
  destruct S as [S|[S|[S|S]]].
  - destruct S as (_ & -> & -> & _). split; [|done]. exists old. rewrite K. done.
  - destruct S as (_ & _ & -> & -> & _). split; [|done]. exists old. rewrite K. done.
  - destruct S as (_ & _ & _ & -> & -> & _). split.
    + rewrite (upsert_session_known _ _ _ _ K). fold id.
      rewrite lookup_insert_eq. eexists. split; [reflexivity|]. done.
    + intros id' N. by apply upsert_session_others.
  - destruct S as (_ & _ & _ & -> & -> & _). cbn [sql.insert_event sql.sessions].
    split.
    + rewrite (upsert_session_known _ _ _ _ K). fold id.
      rewrite lookup_insert_eq. eexists. split; [reflexivity|]. done.
    + intros id' N. by apply upsert_session_others.
Qed.

(** A prompt event of a session stored with its transcript path: the
    time of creation stays, the path is erased. *)
Lemma runHook_known_session_witness :
  let w := world_of payload_prompt known_database in
  main.stdin w = Some payload_prompt
  /\ (payload.ParsePayload payload_prompt (main.clock w)).1
     = (Some parsed_prompt, None)
  /\ sql.sessions (log_at w (hook_db w parsed_prompt)) !! "sess-1"
     = Some {| sql.Sessions.cwd := "/home/u/project";
               sql.Sessions.transcript_path := Some "/t.jsonl";
               sql.Sessions.created_at := time.mkTime 5 0 0 |}
  /\ exists new,
       sql.sessions (log_at (main.runHook w).2 (hook_db w parsed_prompt))
         !! "sess-1" = Some new
       /\ sql.Sessions.created_at new = time.mkTime 5 0 0
       /\ sql.Sessions.transcript_path new = None.
Proof.
  intros w.
  assert (I : main.stdin w = Some payload_prompt) by reflexivity.
  assert (P : (payload.ParsePayload payload_prompt (main.clock w)).1
              = (Some parsed_prompt, None)) by (vm_compute; reflexivity).
  assert (K : sql.sessions (log_at w (hook_db w parsed_prompt)) !! "sess-1"
              = Some {| sql.Sessions.cwd := "/home/u/project";
                        sql.Sessions.transcript_path := Some "/t.jsonl";
                        sql.Sessions.created_at := time.mkTime 5 0 0 |})
    by (vm_compute; reflexivity).
  assert (R : (main.runHook w).1 = main.Return None) by (vm_compute; reflexivity).
  split; [exact I|]. split; [exact P|]. split; [exact K|].
  destruct (runHook_known_session w payload_prompt parsed_prompt _ I P K)
    as [(new & A & _ & C & D) _].
  exists new. split; [exact A|]. split; [exact C|]. exact (D R).
Defined.

(** X30. Only a Stop event with a transcript path touches the
    messages.  If the committed messages or offsets of any database
    differ after [runHook] from what they were, then [runHook]
    returned nil, the payload was parsed, its event is "Stop", its
    transcript path is not empty, and the database is that of the
    project of the payload. *)
Theorem runHook_touches_messages (w : main.World) (p : string) :
  tables_at (main.runHook w).2 p <> tables_at w p ->
  (main.runHook w).1 = main.Return None
  /\ exists data parsed,
       main.stdin w = Some data
       /\ (payload.ParsePayload data (main.clock w)).1 = (Some parsed, None)
       /\ p = hook_db w parsed
       /\ model.Event.EventType (payload.Event parsed) = "Stop"
       /\ model.Session.TranscriptPath (payload.Session parsed) <> "".
Proof.
  unfold tables_at. intros N.
  destruct (runHook_cases w) as [(e & E & D & _)|(data & q & I & P & M & O)].
  { rewrite D in N. done. }
  destruct (runHook_reaches_store w data q I P M O) as [E D].
  rewrite (D p) in N. rewrite E.
  destruct (String.eqb p (hook_db w q)) eqn:Q; [|done].
  apply String.eqb_eq in Q. subst p.
  pose proof (runHook_store_spec q (main.databases w (hook_db w q))
                (main.files w) (tick (main.clock w))) as S.
  cbn zeta in S.
  destruct S as [S|[S|[S|S]]]; [by intuition congruence..|].
  destruct S as (_ & _ & _ & -> & _ & [S|(S & _)]); [congruence|].
  split; [reflexivity|]. exists data, q. repeat (split; [done|]).
  unfold is_stop in S. apply andb_true_iff in S as [S1 S2].
  apply String.eqb_eq in S1. apply negb_true_iff, String.eqb_neq in S2. done.
Qed.

(** A Stop event for the file of one turn, on a database never
    written: the turn is stored. *)
Lemma runHook_touches_messages_witness :
  let w := world_of payload_stop fresh_database in
  let p := "/home/u/.claude/logs/home__u__project/events.duckdb" in
  tables_at (main.runHook w).2 p <> tables_at w p
  /\ (main.runHook w).1 = main.Return None
  /\ exists data parsed,
       main.stdin w = Some data
       /\ (payload.ParsePayload data (main.clock w)).1 = (Some parsed, None)
       /\ p = hook_db w parsed
       /\ model.Event.EventType (payload.Event parsed) = "Stop"
       /\ model.Session.TranscriptPath (payload.Session parsed) <> "".
Proof.
  intros w p.
  assert (N : tables_at (main.runHook w).2 p <> tables_at w p).
  { intros H. apply (f_equal (fun t => length (sql.messages t))) in H.
    vm_compute in H. discriminate. }
  split; [exact N|]. exact (runHook_touches_messages w p N).
Defined.

(* ================================================================= *)
(** ** The tests of the repository, run on the model *)

Example TestExtractText_PlainString :
  transcript.extractText (dq "'hello world'") = "hello world".
Proof. vm_compute. reflexivity. Qed.

Example TestExtractText_ArrayOfTextBlocks :
  transcript.extractText
    (dq "[{'type':'text','text':'line one'},{'type':'text','text':'line two'}]")
  = "line one" ++ String LF EmptyString ++ "line two".
Proof. vm_compute. reflexivity. Qed.

Example TestExtractText_NonTextBlocks :
  transcript.extractText
    (dq "[{'type':'tool_use','id':'tu-1'},{'type':'text','text':'the answer'}]")
  = "the answer".
Proof. vm_compute. reflexivity. Qed.

Example TestExtractText_EmptyArray : transcript.extractText "[]" = "".
Proof. vm_compute. reflexivity. Qed.

Example TestExtractText_TextBlockWithEmptyText :
  transcript.extractText
    (dq "[{'type':'text','text':''},{'type':'text','text':'visible'}]")
  = "visible".
Proof. vm_compute. reflexivity. Qed.

Example TestExtractText_InvalidJSON :
  transcript.extractText "not valid json" = "not valid json".
Proof. vm_compute. reflexivity. Qed.

Example TestParseTimestamp_ValidRFC3339Nano :
  transcript.parseTimestamp "2024-06-15T14:30:00.123456789Z" (time.mkTime 5 0 0)
  = time.Date 2024 6 15 14 30 0 123456789.
Proof. vm_compute. reflexivity. Qed.

Example TestParseTimestamp_EmptyString :
  transcript.parseTimestamp "" (time.Date 2024 1 1 0 0 0 0)
  = time.Date 2024 1 1 0 0 0 0.
Proof. vm_compute. reflexivity. Qed.

Example TestParseTimestamp_InvalidFormat :
  transcript.parseTimestamp "not-a-timestamp" (time.Date 2024 1 1 0 0 0 0)
  = time.Date 2024 1 1 0 0 0 0.
Proof. vm_compute. reflexivity. Qed.

Example TestParseTimestamp_RFC3339WithoutNanos :
  transcript.parseTimestamp "2024-06-15T14:30:00Z" (time.mkTime 5 0 0)
  = time.Date 2024 6 15 14 30 0 0.
Proof. vm_compute. reflexivity. Qed.

Example TestHarvest_AssistantMessage :
  (transcript.Harvest "sess-1" "/t.jsonl" 0
     {[ "/t.jsonl" := writeTranscript
          ["{'type':'message','uuid':'a1','message':{'role':'assistant','content':[{'type':'text','text':'answer'}],'model':'claude-3'}}"] ]}
     test_clock).1
  = (Some {| model.Messages :=
               [ {| model.SessionID := "sess-1"; model.UUID := "a1";
                    model.ParentUUID := ""; model.Role := "assistant";
                    model.Content := "answer";
                    model.RawContent := dq "[{'type':'text','text':'answer'}]";
                    model.Model := "claude-3";
                    model.Timestamp := time.mkTime 1000 0 0 |} ];
             model.NewOffset := 125 |}, None).
Proof. vm_compute. reflexivity. Qed.

Example TestHarvest_SystemMessage :
  harvested
    ["{'type':'message','uuid':'s1','message':{'role':'system','content':'you are helpful'}}";
     "{'type':'message','uuid':'u1','message':{'role':'user','content':'hi'}}"] 0
  = Some (["hi"], 159%Z).
Proof. vm_compute. reflexivity. Qed.

Example TestHarvest_LinesWithoutMessage :
  harvested
    ["{'type':'summary','content':'this is a summary'}";
     "{'type':'message','uuid':'u1','message':{'role':'user','content':'hi'}}"] 0
  = Some (["hi"], 121%Z).
Proof. vm_compute. reflexivity. Qed.

Example TestHarvest_EmptyFile : harvested [] 0 = Some ([], 0%Z).
Proof. vm_compute. reflexivity. Qed.

Example TestHarvest_InvalidJSONLines :
  harvested
    ["not json at all";
     "{'type':'message','uuid':'u1','message':{'role':'user','content':'valid'}}"] 0
  = Some (["valid"], 91%Z).
Proof. vm_compute. reflexivity. Qed.

Example TestHarvest_EmptyLines :
  harvested
    [""; "{'type':'message','uuid':'u1','message':{'role':'user','content':'hi'}}"; ""] 0
  = Some (["hi"], 74%Z).
Proof. vm_compute. reflexivity. Qed.

Example TestHarvest_ResumedFromOffset :
  let lines :=
    ["{'type':'message','uuid':'u1','message':{'role':'user','content':'first'}}";
     "{'type':'message','uuid':'u2','message':{'role':'user','content':'second'}}"] in
  harvested lines 0 = Some (["first"; "second"], 151%Z)
  /\ harvested lines 151 = Some ([], 151%Z).
Proof. vm_compute. split; reflexivity. Qed.

Example TestHarvest_ResumedAndNewDataAppended :
  let a := "{'type':'message','uuid':'u1','message':{'role':'user','content':'first'}}" in
  let b := "{'type':'message','uuid':'u2','message':{'role':'user','content':'second'}}" in
  harvested [a] 0 = Some (["first"], 75%Z)
  /\ harvested [a; b] 75 = Some (["second"], 151%Z).
Proof. vm_compute. split; reflexivity. Qed.

Example TestHarvest_MultipleMessagesInOrder :
  harvested
    ["{'type':'message','uuid':'u1','message':{'role':'user','content':'one'}}";
     "{'type':'message','uuid':'a1','message':{'role':'assistant','content':[{'type':'text','text':'two'}]}}";
     "{'type':'message','uuid':'u2','message':{'role':'user','content':'three'}}"] 0
  = Some (["one"; "two"; "three"], 251%Z).
Proof. vm_compute. reflexivity. Qed.

Example TestHarvest_FileDoesNotExist :
  (transcript.Harvest "sess-1" "/nonexistent/path/transcript.jsonl" 0 ∅
     test_clock).1
  = (None, Some (transcript.ErrOpen "/nonexistent/path/transcript.jsonl")).
Proof. vm_compute. reflexivity. Qed.

Example TestSaveHarvestedMessages_DuplicateUUID :
  let d := handle empty_tables no_faults in
  let d1 := (store.SaveHarvestedMessages [msg_dup] "/path.jsonl" 50 d).2 in
  let d2 := (store.SaveHarvestedMessages [msg_dup] "/path.jsonl" 100 d1).2 in
  length (rows_with "dup-1" (sql.committed d2)) = 1.
Proof. vm_compute. reflexivity. Qed.

Example TestGetOffset_LatestValue :
  let d := handle empty_tables no_faults in
  let d1 := (store.SaveHarvestedMessages [msg_m1] "/path.jsonl" 100 d).2 in
  let d2 := (store.SaveHarvestedMessages [msg_m2] "/path.jsonl" 200 d1).2 in
  (store.GetOffset "/path.jsonl" d2).1 = (200%Z, None).
Proof. vm_compute. reflexivity. Qed.

Example TestNullStr :
  store.nullStr "" = None /\ store.nullStr "hello" = Some "hello".
Proof. split; reflexivity. Qed.
